(** * n8n-scanner: the workflow analyzer of [src/app/page.tsx], the report
      of [src/components/report-generator.tsx] and the workflow graph

    The analyzer is TypeScript running on values produced by [JSON.parse].
    The development embeds

    - ECMAScript strings as sequences of UTF-16 code units,
    - the values [JSON.parse] can return (with the allocation identity of
      arrays and objects, which [Set.prototype.has] observes),
    - property access, truthiness, [typeof], [Array.isArray], template-literal
      conversion, [String.prototype.includes], [RegExp.prototype.test] for
      the eight patterns of the source, and exceptions ([TypeError],
      [SyntaxError]) as an error monad,
    - [JSON.parse] itself (ECMA-404 grammar, numbers rounded to binary64),
    - [validateN8nWorkflow], [checkNodeSecurity], [analyzeJson] and
      [calculateSecureNodes], statement by statement,
    - the objects the code builds with [{}] and [Object.fromEntries], whose
      lookups reach [Object.prototype],
    - the file handlers of the page ([processFile], [handleFileUpload],
      [handleDrop]),
    - the values [generateReportHTML] computes for the report (severity
      counts, findings by node, node types, node categories),
    - the graph [WorkflowVisualization] computes (nodes, edges, security
      levels, icons).

    Resource exhaustion of the host (stack depth, memory) is not modelled. *)

From Stdlib Require Import List Bool Arith ZArith NArith Lia String Ascii.
From Stdlib Require Import Floats.SpecFloat.
From Stdlib Require Import Permutation.
Import ListNotations.

Set Implicit Arguments.

(** ** Strings: UTF-16 code units *)

Module Str.

Definition char := N.
Definition t := list char.

(** Decoding of a source literal (the [.tsx] files are UTF-8) into code
    units. Malformed sequences do not occur in the literals of the source;
    a stray byte is kept as it is. *)
Definition byte_of (a : ascii) : N := N.of_nat (nat_of_ascii a).

Definition cont (b : N) : N := N.land b 63.

Definition code_units_of_code_point (cp : N) : t :=
  if (cp <? 65536)%N then [cp]
  else let c := (cp - 65536)%N in
       [(55296 + N.shiftr c 10)%N; (56320 + N.land c 1023)%N].

Fixpoint of_bytes (fuel : nat) (bs : list N) : t :=
  match fuel with
  | O => []
  | S fuel =>
    match bs with
    | [] => []
    | b :: r =>
      if (b <? 128)%N then b :: of_bytes fuel r
      else if (b <? 224)%N then
        match r with
        | b1 :: r' => ((N.land b 31) * 64 + cont b1)%N :: of_bytes fuel r'
        | _ => b :: of_bytes fuel r
        end
      else if (b <? 240)%N then
        match r with
        | b1 :: b2 :: r' =>
          ((N.land b 15) * 4096 + cont b1 * 64 + cont b2)%N :: of_bytes fuel r'
        | _ => b :: of_bytes fuel r
        end
      else
        match r with
        | b1 :: b2 :: b3 :: r' =>
          code_units_of_code_point
            ((N.land b 7) * 262144 + cont b1 * 4096 + cont b2 * 64 + cont b3)%N
          ++ of_bytes fuel r'
        | _ => b :: of_bytes fuel r
        end
    end
  end.

Definition lit (s : string) : t :=
  let bs := map byte_of (list_ascii_of_string s) in
  of_bytes (List.length bs) bs.

Fixpoint eqb (a b : t) : bool :=
  match a, b with
  | [], [] => true
  | x :: a', y :: b' => N.eqb x y && eqb a' b'
  | _, _ => false
  end.

Fixpoint prefix (p s : t) : bool :=
  match p, s with
  | [], _ => true
  | x :: p', y :: s' => N.eqb x y && prefix p' s'
  | _ :: _, [] => false
  end.

(** [String.prototype.includes(needle)]: [needle] occurs as a contiguous
    run of code units. *)
Fixpoint includes (s needle : t) : bool :=
  prefix needle s ||
  match s with
  | [] => false
  | _ :: s' => includes s' needle
  end.

(** WhiteSpace and LineTerminator code units (ECMA-262 12.2, 12.3): what
    [String.prototype.trim] strips and what [\s] matches. *)
Definition is_white_space (c : char) : bool :=
  (N.eqb c 9 || N.eqb c 10 || N.eqb c 11 || N.eqb c 12 || N.eqb c 13 ||
   N.eqb c 32 || N.eqb c 160 || N.eqb c 5760 ||
   ((8192 <=? c) && (c <=? 8202)) ||
   N.eqb c 8232 || N.eqb c 8233 || N.eqb c 8239 || N.eqb c 8287 ||
   N.eqb c 12288 || N.eqb c 65279)%N.

Fixpoint trim_start (s : t) : t :=
  match s with
  | c :: s' => if is_white_space c then trim_start s' else s
  | [] => []
  end.

Definition trim (s : t) : t := rev (trim_start (rev (trim_start s))).

(** Decimal digits of a natural number, as [Number::toString] prints a
    non-negative integer below 2^53. *)
Fixpoint digits_fuel (fuel : nat) (n : N) (acc : t) : t :=
  match fuel with
  | O => acc
  | S fuel =>
    let acc' := (48 + n mod 10)%N :: acc in
    if (n <? 10)%N then acc' else digits_fuel fuel (n / 10)%N acc'
  end.

Definition of_N (n : N) : t := digits_fuel (S (N.to_nat (N.log2 n))) n [].

Definition of_nat (n : nat) : t := of_N (N.of_nat n).

End Str.

Notation "'u' s" := (Str.lit s%string) (at level 9, s at level 0, only parsing).


(** ** Numbers: IEEE 754 binary64 *)

Module Num.

Definition t := spec_float.

Definition prec : Z := 53.
Definition emax : Z := 1024.

Definition of_Z (z : Z) : t := binary_normalize prec emax z 0 false.
Definition of_N (n : N) : t := of_Z (Z.of_N n).
Definition of_nat (n : nat) : t := of_Z (Z.of_nat n).

Definition zero : t := S754_zero false.
Definition five : t := of_Z 5.

(** The Number value of a decimal literal [(-)? d * 10^e10], rounded to
    nearest, ties to even. *)
Definition of_decimal (neg : bool) (d : N) (e10 : Z) : t :=
  match d with
  | N0 => S754_zero neg
  | Npos m =>
    match e10 with
    | Zneg k => SFdiv prec emax (S754_finite neg m 0)
                      (S754_finite false (Pos.pow 10 k) 0)
    | _ => binary_normalize prec emax
             (cond_Zopp neg (Zpos m * Z.pow 10 e10)) 0 false
    end
  end.

Definition is_nan (x : t) : bool :=
  match x with S754_nan => true | _ => false end.

Definition is_zero (x : t) : bool :=
  match x with S754_zero _ => true | _ => false end.

(** ToBoolean on a Number: false for +0, -0 and NaN. *)
Definition truthy (x : t) : bool := negb (is_zero x || is_nan x).

(** [x > y] on Numbers (false when either is NaN). *)
Definition gtb (x y : t) : bool := SFltb y x.

(** SameValueZero on Numbers: NaN equals NaN, +0 equals -0. *)
Definition same_value_zero (x y : t) : bool :=
  (is_nan x && is_nan y) || SFeqb x y.

(** *** Number::toString (ECMA-262 6.1.6.1.20, radix 10) *)

(** A positive rational as a pair numerator / denominator. *)
Definition scaled (m : Z) (e2 : Z) : Z * Z :=
  match e2 with
  | Zneg k => (m, Z.pow 2 (Zpos k))
  | _ => (m * Z.pow 2 e2, 1)
  end%Z.

(** [s * 10^p] as a fraction. *)
Definition dec (s : Z) (p : Z) : Z * Z :=
  match p with
  | Zneg k => (s, Z.pow 10 (Zpos k))
  | _ => (s * Z.pow 10 p, 1)
  end%Z.

Definition q_div_floor (a b : Z * Z) : Z :=
  (fst a * snd b / (snd a * fst b))%Z.

Definition q_div_ceil (a b : Z * Z) : Z :=
  (- ((- (fst a * snd b)) / (snd a * fst b)))%Z.

Definition q_dist (a b : Z * Z) : Z * Z :=
  (Z.abs (fst a * snd b - fst b * snd a), snd a * snd b)%Z.

Definition q_ltb (a b : Z * Z) : bool :=
  (fst a * snd b <? fst b * snd a)%Z.

Definition q_eqb (a b : Z * Z) : bool :=
  (fst a * snd b =? fst b * snd a)%Z.

(** The reals that round to the positive finite [m * 2^e] lie between
    [lo] and [hi], bounds included exactly when [m] is even. *)
Definition round_interval (m : positive) (e : Z) : (Z * Z) * (Z * Z) :=
  let lower_gap :=
    if (Pos.eqb m (Pos.pow 2 52) && (-1074 <? e)%Z)%bool then 1%Z else 2%Z in
  (scaled (4 * Zpos m - lower_gap) (e - 2), scaled (4 * Zpos m + 2) (e - 2)).

(** Of two candidate digit strings the one nearer to [x]; at equal
    distance the even one. *)
Definition nearer (x : Z * Z) (a b : option (Z * Z)) : option (Z * Z) :=
  match a, b with
  | None, _ => b
  | _, None => a
  | Some (sa, pa), Some (sb, pb) =>
    let da := q_dist (dec sa pa) x in
    let db := q_dist (dec sb pb) x in
    if q_ltb da db then a
    else if q_ltb db da then b
    else if Z.even sa then a else b
  end.

(** The [k]-digit integers [s] with [s * 10^p] in the rounding interval:
    the nearest to [x] of them, if any. *)
Definition candidate (x lo hi : Z * Z) (closed : bool) (k : Z) (p : Z)
  : option (Z * Z) :=
  let one := dec 1 p in
  let smin0 := if closed then q_div_ceil lo one
               else (q_div_floor lo one + 1)%Z in
  let smax0 := if closed then q_div_floor hi one
               else (q_div_ceil hi one - 1)%Z in
  let smin := Z.max smin0 (Z.pow 10 (k - 1)) in
  let smax := Z.min smax0 (Z.pow 10 k - 1) in
  if (smax <? smin)%Z then None
  else
    let mid := q_div_floor x one in
    let c1 := Z.min smax (Z.max smin mid) in
    let c2 := Z.min smax (Z.max smin (mid + 1)) in
    nearer x (Some (c1, p)) (Some (c2, p)).

Fixpoint candidates (x lo hi : Z * Z) (closed : bool) (k : Z) (p : Z)
  (count : nat) : option (Z * Z) :=
  match count with
  | O => None
  | S count =>
    nearer x (candidate x lo hi closed k p)
             (candidates x lo hi closed k (p + 1) count)
  end.

(** Smallest [k] first: [(s, k, n)] with [10^(k-1) <= s < 10^k] and
    [s * 10^(n-k)] rounding to [x]. *)
Fixpoint shortest (x lo hi : Z * Z) (closed : bool) (est : Z) (k : Z)
  (fuel : nat) : Z * Z * Z :=
  match fuel with
  | O => (0, 1, 1)%Z
  | S fuel =>
    match candidates x lo hi closed k (est - k - 1) 5 with
    | Some (s, p) => (s, k, p + k)%Z
    | None => shortest x lo hi closed est (k + 1) fuel
    end
  end.

Definition digits_of (m : positive) (e : Z) : Z * Z * Z :=
  let x := scaled (Zpos m) e in
  let '(lo, hi) := round_interval m e in
  let est := ((Z.log2 (fst x) - Z.log2 (snd x)) * 30103 / 100000)%Z in
  shortest x lo hi (Z.even (Zpos m)) est 1 17.

Definition zeros (n : Z) : Str.t := repeat 48%N (Z.to_nat n).

Definition exponent_part (n : Z) : Str.t :=
  let e := (n - 1)%Z in
  101%N :: (if (e <? 0)%Z then 45%N else 43%N) :: Str.of_N (Z.to_N (Z.abs e)).

Definition format (s k n : Z) : Str.t :=
  let ds := Str.of_N (Z.to_N s) in
  if ((k <=? n) && (n <=? 21))%Z then ds ++ zeros (n - k)
  else if ((0 <? n) && (n <=? 21))%Z then
    firstn (Z.to_nat n) ds ++ 46%N :: skipn (Z.to_nat n) ds
  else if ((-6 <? n) && (n <=? 0))%Z then
    48%N :: 46%N :: zeros (- n) ++ ds
  else if (k =? 1)%Z then ds ++ exponent_part n
  else firstn 1 ds ++ 46%N :: skipn 1 ds ++ exponent_part n.

Definition to_string (x : t) : Str.t :=
  match x with
  | S754_nan => u"NaN"
  | S754_zero _ => u"0"
  | S754_infinity s => (if s then [45%N] else []) ++ u"Infinity"
  | S754_finite s m e =>
    let '(d, k, n) := digits_of m e in
    (if s then [45%N] else []) ++ format d k n
  end.

End Num.


(** ** ECMAScript values and the operations the analyzer applies to them *)

Module JS.

(** A value [JSON.parse] returns. Arrays and objects carry the identity
    [ref] of their allocation: two structurally equal objects are distinct
    values for [===] and for [Set.prototype.has]. The properties of an
    object are listed in enumeration order (what [Object.keys] returns);
    a lookup takes the first entry with the key. *)
#[warnings="-register-all"]
Inductive json : Type :=
| JNull
| JBool (b : bool)
| JNum (x : Num.t)
| JStr (s : Str.t)
| JArr (ref : N) (elems : list json)
| JObj (ref : N) (props : list (Str.t * json)).

(** A value of the language: [None] is [undefined]. *)
Definition value := option json.
Definition undefined : value := None.

(** What the analyzer can throw. The text of [error.message] belongs to
    the host engine (see [Analyzer.analyzeJson]). *)
Inductive js_error : Type :=
| SyntaxError (input : Str.t)
| TypeError_read_property (base : value) (key : Str.t)
| TypeError_not_a_function (callee : value) (method : Str.t)
| TypeError_not_an_object (v : value)
| TypeError_to_primitive (v : json).

Inductive result (A : Type) : Type :=
| Ok (a : A)
| Throw (e : js_error).
Arguments Ok {A} a.
Arguments Throw {A} e.

Definition bind {A B} (r : result A) (f : A -> result B) : result B :=
  match r with
  | Ok a => f a
  | Throw e => Throw e
  end.

Definition is_ok {A} (r : result A) : bool :=
  match r with Ok _ => true | Throw _ => false end.

(** [forEach] with a body that may throw, threading the mutated state. *)
Fixpoint for_each {A St} (f : A -> St -> result St) (xs : list A) (s : St)
  : result St :=
  match xs with
  | [] => Ok s
  | x :: xs' => bind (f x s) (for_each f xs')
  end.

(** [forEach] passing the index as well, starting at [i]. *)
Fixpoint for_each_indexed {A St} (f : A -> nat -> St -> result St)
  (xs : list A) (i : nat) (s : St) : result St :=
  match xs with
  | [] => Ok s
  | x :: xs' => bind (f x i s) (for_each_indexed f xs' (S i))
  end.

(** [Array.prototype.filter] with a predicate that may throw. *)
Fixpoint filter_m {A} (f : A -> result bool) (xs : list A)
  : result (list A) :=
  match xs with
  | [] => Ok []
  | x :: xs' =>
    bind (f x) (fun keep =>
    bind (filter_m f xs') (fun r =>
    Ok (if keep then x :: r else r)))
  end.

(** ToBoolean. *)
Definition truthy (v : value) : bool :=
  match v with
  | None => false
  | Some JNull => false
  | Some (JBool b) => b
  | Some (JNum x) => Num.truthy x
  | Some (JStr s) => match s with [] => false | _ => true end
  | Some (JArr _ _) => true
  | Some (JObj _ _) => true
  end.

(** [null] or [undefined]. *)
Definition nullish (v : value) : bool :=
  match v with
  | None | Some JNull => true
  | _ => false
  end.

(** [a || b] when evaluating [b] cannot throw. *)
Definition or_else (a b : value) : value := if truthy a then a else b.

Definition typeof (v : value) : Str.t :=
  match v with
  | None => u"undefined"
  | Some JNull => u"object"
  | Some (JBool _) => u"boolean"
  | Some (JNum _) => u"number"
  | Some (JStr _) => u"string"
  | Some (JArr _ _) => u"object"
  | Some (JObj _ _) => u"object"
  end.

Definition isArray (v : value) : bool :=
  match v with
  | Some (JArr _ _) => true
  | _ => false
  end.

(** SameValueZero, which is also [===] here except on NaN and which
    [Array.prototype.includes] and [Set] use. *)
Definition same_value_zero (a b : value) : bool :=
  match a, b with
  | None, None => true
  | Some JNull, Some JNull => true
  | Some (JBool x), Some (JBool y) => Bool.eqb x y
  | Some (JNum x), Some (JNum y) => Num.same_value_zero x y
  | Some (JStr x), Some (JStr y) => Str.eqb x y
  | Some (JArr r _), Some (JArr r' _) => N.eqb r r'
  | Some (JObj r _), Some (JObj r' _) => N.eqb r r'
  | _, _ => false
  end.

(** [a === b]. *)
Definition strict_equal (a b : value) : bool :=
  match a, b with
  | Some (JNum x), Some (JNum y) => SFeqb x y
  | _, _ => same_value_zero a b
  end.

(** A canonical array index: decimal digits without a leading zero,
    below 2^32 - 1. *)
Fixpoint digits_value (s : Str.t) (acc : N) : option N :=
  match s with
  | [] => Some acc
  | c :: s' =>
    if ((48 <=? c) && (c <=? 57))%N
    then digits_value s' (acc * 10 + (c - 48))%N
    else None
  end.

Definition array_index (k : Str.t) : option N :=
  match k with
  | [] => None
  | [48%N] => Some 0%N
  | 48%N :: _ => None
  | _ =>
    match digits_value k 0 with
    | Some n => if (n <? 4294967295)%N then Some n else None
    | None => None
    end
  end.

Fixpoint lookup (k : Str.t) (props : list (Str.t * json)) : value :=
  match props with
  | [] => None
  | (k', v) :: rest => if Str.eqb k k' then Some v else lookup k rest
  end.

Definition length_key : Str.t := u"length".

(** [base.key] / [base[key]] for the data properties of a parsed value:
    the properties of an object, the elements and [length] of an array, the
    code units and [length] of a string. No other property read by the
    analyzer exists on the prototypes of these values, so every other key
    reads as [undefined]; reading from [null] or [undefined] throws. *)
Definition get (base : value) (key : Str.t) : result value :=
  match base with
  | None | Some JNull => Throw (TypeError_read_property base key)
  | Some (JBool _) | Some (JNum _) => Ok None
  | Some (JStr s) =>
    if Str.eqb key length_key
    then Ok (Some (JNum (Num.of_nat (List.length s))))
    else match array_index key with
         | Some i => Ok (option_map (fun c => JStr [c]) (nth_error s (N.to_nat i)))
         | None => Ok None
         end
  | Some (JArr _ xs) =>
    if Str.eqb key length_key
    then Ok (Some (JNum (Num.of_nat (List.length xs))))
    else match array_index key with
         | Some i => Ok (nth_error xs (N.to_nat i))
         | None => Ok None
         end
  | Some (JObj _ props) => Ok (lookup key props)
  end.

(** [base?.key]. *)
Definition get_opt (base : value) (key : Str.t) : result value :=
  match base with
  | None | Some JNull => Ok None
  | _ => get base key
  end.

(** [Object.entries], [Object.keys], [Object.values]. *)
Definition indexed_entries {A} (f : A -> json) (xs : list A)
  : list (Str.t * json) :=
  map (fun p => (Str.of_nat (fst p), f (snd p)))
      (combine (seq 0 (List.length xs)) xs).

(** The own enumerable properties of a value that is not [null]. *)
Definition own_entries (j : json) : list (Str.t * json) :=
  match j with
  | JStr s => indexed_entries (fun c => JStr [c]) s
  | JArr _ xs => indexed_entries (fun x => x) xs
  | JObj _ props => props
  | _ => []
  end.

Definition own_values (j : json) : list json := map snd (own_entries j).

Definition entries (v : value) : result (list (Str.t * json)) :=
  match v with
  | None | Some JNull => Throw (TypeError_not_an_object v)
  | Some j => Ok (own_entries j)
  end.

Definition keys (v : value) : result (list Str.t) :=
  bind (entries v) (fun es => Ok (map fst es)).

Definition values (v : value) : result (list json) :=
  bind (entries v) (fun es => Ok (map snd es)).

(** [recv.includes(needle)] for a string [needle]: the method of
    [String.prototype] on a string, of [Array.prototype] on an array; on
    anything else [recv.includes] is not a function (a parsed object holds
    no function), and reading it from [null] or [undefined] throws. *)
Definition call_includes (recv : value) (needle : Str.t) : result bool :=
  match recv with
  | None | Some JNull => Throw (TypeError_read_property recv (u"includes"))
  | Some (JStr s) => Ok (Str.includes s needle)
  | Some (JArr _ xs) =>
    Ok (existsb (fun x => same_value_zero (Some (JStr needle)) (Some x)) xs)
  | _ => Throw (TypeError_not_a_function recv (u"includes"))
  end.

(** [recv.filter(f)]: only arrays have the method. *)
Definition call_filter (recv : value) (f : json -> result bool)
  : result (list json) :=
  match recv with
  | None | Some JNull => Throw (TypeError_read_property recv (u"filter"))
  | Some (JArr _ xs) => filter_m f xs
  | _ => Throw (TypeError_not_a_function recv (u"filter"))
  end.

Definition has_own (k : Str.t) (props : list (Str.t * json)) : bool :=
  match lookup k props with Some _ => true | None => false end.

Fixpoint join (sep : Str.t) (parts : list Str.t) : Str.t :=
  match parts with
  | [] => []
  | [p] => p
  | p :: rest => p ++ sep ++ join sep rest
  end.

Fixpoint sequence {A} (rs : list (result A)) : result (list A) :=
  match rs with
  | [] => Ok []
  | r :: rs' => bind r (fun a => bind (sequence rs') (fun l => Ok (a :: l)))
  end.

(** ToString of a parsed value (what a template literal applies). An array
    joins its elements with a comma, [null] elements printing as empty; a
    plain object prints through [Object.prototype.toString] unless it has
    an own [toString] property, which a parsed document can only fill with
    a non-callable value, and then the conversion throws. *)
Fixpoint to_string_json (j : json) : result Str.t :=
  match j with
  | JNull => Ok (u"null")
  | JBool b => Ok (if b then u"true" else u"false")
  | JNum x => Ok (Num.to_string x)
  | JStr s => Ok s
  | JArr _ xs =>
    bind (sequence (map (fun x => match x with
                                  | JNull => Ok []
                                  | _ => to_string_json x
                                  end) xs))
         (fun parts => Ok (join (u",") parts))
  | JObj _ props =>
    if has_own (u"toString") props then Throw (TypeError_to_primitive j)
    else Ok (u"[object Object]")
  end.

Definition to_string (v : value) : result Str.t :=
  match v with
  | None => Ok (u"undefined")
  | Some j => to_string_json j
  end.

End JS.


(** ** Numeric literals, ToNumber and [>] *)

Module Conv.
Import JS.

Definition is_digit (c : Str.char) : bool := ((48 <=? c) && (c <=? 57))%N.

(** The longest run of decimal digits at the head of [s], and the rest. *)
Fixpoint take_digits (s : Str.t) : Str.t * Str.t :=
  match s with
  | c :: s' =>
    if is_digit c
    then let '(ds, rest) := take_digits s' in (c :: ds, rest)
    else ([], s)
  | [] => ([], [])
  end.

Definition digit_value (c : Str.char) : N := (c - 48)%N.

Definition digits_to_N (ds : Str.t) : N :=
  fold_left (fun acc c => (acc * 10 + digit_value c)%N) ds 0%N.

(** [s] without its first code unit, when that is [c]. *)
Definition eat (c : Str.char) (s : Str.t) : option Str.t :=
  match s with
  | x :: rest => if N.eqb x c then Some rest else None
  | [] => None
  end.

(** An optional exponent part [e|E (+|-)? digits] at the head of [s]:
    its value and the rest; [None] when an [e] is not followed by digits. *)
Definition take_exponent (s : Str.t) : option (Z * Str.t) :=
  match s with
  | c :: s1 =>
    if (N.eqb c 101 || N.eqb c 69)%N then
      let '(neg, s2) :=
        match eat 45%N s1 with
        | Some s2 => (true, s2)
        | None => match eat 43%N s1 with
                  | Some s2 => (false, s2)
                  | None => (false, s1)
                  end
        end in
      match take_digits s2 with
      | ([], _) => None
      | (ds, rest) => Some (cond_Zopp neg (Z.of_N (digits_to_N ds)), rest)
      end
    else Some (0%Z, s)
  | [] => Some (0%Z, [])
  end.

Definition hex_value (c : Str.char) : option N :=
  if is_digit c then Some (c - 48)%N
  else if ((97 <=? c) && (c <=? 102))%N then Some (c - 87)%N
  else if ((65 <=? c) && (c <=? 70))%N then Some (c - 55)%N
  else None.

Fixpoint radix_value (radix : N) (s : Str.t) (acc : N) : option N :=
  match s with
  | [] => Some acc
  | c :: s' =>
    match hex_value c with
    | Some d => if (d <? radix)%N then radix_value radix s' (acc * radix + d)%N
                else None
    | None => None
    end
  end.

Definition nan : Num.t := S754_nan.

(** StrUnsignedDecimalLiteral, the whole of [s]: [Infinity], or digits
    with an optional dot among them and an optional exponent, at least one
    digit before the exponent. *)
Definition unsigned_decimal (neg : bool) (s : Str.t) : Num.t :=
  if Str.eqb s (u"Infinity") then S754_infinity neg
  else
    let '(ip, s1) := take_digits s in
    let '(fp, s2) :=
      match eat 46%N s1 with
      | Some s2 => take_digits s2
      | None => ([], s1)
      end in
    match ip ++ fp with
    | [] => nan
    | ds =>
      match take_exponent s2 with
      | Some (e, []) =>
        Num.of_decimal neg (digits_to_N ds) (e - Z.of_nat (List.length fp))
      | _ => nan
      end
    end.

(** The radix a prefix [0x], [0o] or [0b] announces, in either case. *)
Definition radix_of (c : Str.char) : option N :=
  if (N.eqb c 120 || N.eqb c 88)%N then Some 16%N
  else if (N.eqb c 111 || N.eqb c 79)%N then Some 8%N
  else if (N.eqb c 98 || N.eqb c 66)%N then Some 2%N
  else None.

(** NonDecimalIntegerLiteral, the whole of [s]: the radix and the digits. *)
Definition non_decimal (s : Str.t) : option (N * Str.t) :=
  match s with
  | c0 :: c :: ds =>
    if N.eqb c0 48 then option_map (fun r => (r, ds)) (radix_of c) else None
  | _ => None
  end.

(** StringToNumber (ECMA-262 7.1.4.1.1). *)
Definition string_to_number (s : Str.t) : Num.t :=
  let t := Str.trim s in
  match t with
  | [] => Num.zero
  | c :: rest =>
    match non_decimal t with
    | Some (radix, ds) =>
      match ds, radix_value radix ds 0 with
      | _ :: _, Some n => Num.of_N n
      | _, _ => nan
      end
    | None =>
      if N.eqb c 45 then unsigned_decimal true rest
      else if N.eqb c 43 then unsigned_decimal false rest
      else unsigned_decimal false t
    end
  end.

(** ToNumber of a parsed value; an array or object goes through
    ToPrimitive, that is through its string. *)
Definition to_number (v : value) : result Num.t :=
  match v with
  | None => Ok nan
  | Some JNull => Ok Num.zero
  | Some (JBool b) => Ok (if b then Num.of_Z 1 else Num.zero)
  | Some (JNum x) => Ok x
  | Some (JStr s) => Ok (string_to_number s)
  | Some j => bind (to_string_json j) (fun s => Ok (string_to_number s))
  end.

(** [v > y] for a Number [y]. *)
Definition greater_than (v : value) (y : Num.t) : result bool :=
  bind (to_number v) (fun x => Ok (Num.gtb x y)).

End Conv.


(** ** Regular expressions: the fragment the source's patterns use *)

Module Regex.

Inductive re : Type :=
| Chr (c : Str.char)                 (* a pattern character *)
| Dot                                (* [.] *)
| Class (p : Str.char -> bool)       (* a character class or escape *)
| Seq (a b : re)
| Alt (a b : re)
| Opt (a : re)                       (* [a?], greedy *)
| WordBoundary                       (* [\b] *)
| Eps.                               (* the empty pattern *)

(** Canonicalize of a pattern with the [i] flag and without [u]
    (ECMA-262 22.2.5.6): upper-casing, never from a code unit at or above
    128 to one below. The patterns hold ASCII characters only, so it is
    enough to fold the ASCII letters. *)
Definition canonicalize (c : Str.char) : Str.char :=
  if ((97 <=? c) && (c <=? 122))%N then (c - 32)%N else c.

Definition is_line_terminator (c : Str.char) : bool :=
  (N.eqb c 10 || N.eqb c 13 || N.eqb c 8232 || N.eqb c 8233)%N.

(** A word character for [\b]: [A-Za-z0-9_]. *)
Definition is_word_char (c : Str.char) : bool :=
  (((97 <=? c) && (c <=? 122)) || ((65 <=? c) && (c <=? 90)) ||
   ((48 <=? c) && (c <=? 57)) || N.eqb c 95)%N.

Definition is_word (c : option Str.char) : bool :=
  match c with Some c => is_word_char c | None => false end.

(** Backtracking matcher in continuation-passing style: [prev] is the code
    unit before the current position, [s] what is left of the input. *)
Fixpoint matches (ignore_case : bool) (r : re) (prev : option Str.char)
  (s : Str.t) (k : option Str.char -> Str.t -> bool) : bool :=
  match r with
  | Chr c =>
    match s with
    | x :: s' =>
      (if ignore_case then N.eqb (canonicalize x) (canonicalize c)
       else N.eqb x c) && k (Some x) s'
    | [] => false
    end
  | Dot =>
    match s with
    | x :: s' => negb (is_line_terminator x) && k (Some x) s'
    | [] => false
    end
  | Class p =>
    match s with
    | x :: s' => p x && k (Some x) s'
    | [] => false
    end
  | Seq a b =>
    matches ignore_case a prev s (fun prev' s' => matches ignore_case b prev' s' k)
  | Alt a b => matches ignore_case a prev s k || matches ignore_case b prev s k
  | Opt a => matches ignore_case a prev s k || k prev s
  | WordBoundary =>
    xorb (is_word prev) (is_word (hd_error s)) && k prev s
  | Eps => k prev s
  end.

Fixpoint search (ignore_case : bool) (r : re) (prev : option Str.char)
  (s : Str.t) : bool :=
  matches ignore_case r prev s (fun _ _ => true) ||
  match s with
  | [] => false
  | x :: s' => search ignore_case r (Some x) s'
  end.

Record regexp := { source : re; ignoreCase : bool }.

(** [pattern.test(s)] for a pattern without the [g] and [y] flags: a match
    starting anywhere in [s]. *)
Definition test (pattern : regexp) (s : Str.t) : bool :=
  search (ignoreCase pattern) (source pattern) None s.

(** Pattern text: a run of pattern characters, a concatenation. *)
Definition word (w : Str.t) : re :=
  fold_right (fun c r => Seq (Chr c) r) Eps w.

Definition cat (rs : list re) : re := fold_right Seq Eps rs.

Definition one_of (cs : Str.t) : re :=
  Class (fun x => existsb (N.eqb x) cs).

Definition digit : re := Class Conv.is_digit.

End Regex.



(** ** [JSON.parse] *)

Module JSONParser.
Import JS.

(** JSON whitespace: tab, line feed, carriage return, space. *)
Definition is_ws (c : Str.char) : bool :=
  (N.eqb c 9 || N.eqb c 10 || N.eqb c 13 || N.eqb c 32)%N.

Fixpoint skip_ws (s : Str.t) : Str.t :=
  match s with
  | c :: s' => if is_ws c then skip_ws s' else s
  | [] => []
  end.

(** The characters of a string after its opening quote, up to the closing
    one: the string's value and what follows it. *)
Fixpoint string_body (s : Str.t) : option (Str.t * Str.t) :=
  match s with
  | [] => None
  | c :: rest =>
    if N.eqb c 34 then Some ([], rest)
    else if N.eqb c 92 then
      match rest with
      | [] => None
      | e :: rest1 =>
        let simple (x : Str.char) :=
          option_map (fun r => (x :: fst r, snd r)) (string_body rest1) in
        if N.eqb e 34 then simple 34%N
        else if N.eqb e 92 then simple 92%N
        else if N.eqb e 47 then simple 47%N
        else if N.eqb e 98 then simple 8%N
        else if N.eqb e 102 then simple 12%N
        else if N.eqb e 110 then simple 10%N
        else if N.eqb e 114 then simple 13%N
        else if N.eqb e 116 then simple 9%N
        else if N.eqb e 117 then
          match rest1 with
          | h1 :: h2 :: h3 :: h4 :: rest2 =>
            match Conv.hex_value h1, Conv.hex_value h2,
                  Conv.hex_value h3, Conv.hex_value h4 with
            | Some a, Some b, Some c, Some d =>
              option_map
                (fun r => ((a * 4096 + b * 256 + c * 16 + d)%N :: fst r, snd r))
                (string_body rest2)
            | _, _, _, _ => None
            end
          | _ => None
          end
        else None
      end
    else if (c <? 32)%N then None
    else option_map (fun r => (c :: fst r, snd r)) (string_body rest)
  end.

(** A JSON number at the head of [s]: an optional minus sign; an integer
    part, either a single zero or digits not starting with zero; an
    optional fraction, a dot and at least one digit; an optional exponent,
    [e] or [E], an optional sign and at least one digit. *)
Definition number (s : Str.t) : option (Num.t * Str.t) :=
  let '(neg, s0) := match Conv.eat 45%N s with
                    | Some s0 => (true, s0)
                    | None => (false, s)
                    end in
  let '(ip, s1) := Conv.take_digits s0 in
  match ip with
  | [] => None
  | d :: more =>
    if N.eqb d 48 && negb (Nat.eqb (List.length more) 0) then None
    else
      let frac := match Conv.eat 46%N s1 with
                  | Some s2 =>
                    match Conv.take_digits s2 with
                    | ([], _) => None
                    | (fp, s3) => Some (fp, s3)
                    end
                  | None => Some ([], s1)
                  end in
      match frac with
      | None => None
      | Some (fp, s3) =>
        match Conv.take_exponent s3 with
        | None => None
        | Some (e, rest) =>
          Some (Num.of_decimal neg (Conv.digits_to_N (ip ++ fp))
                               (e - Z.of_nat (List.length fp)), rest)
        end
      end
  end.

(** [s] without the prefix [p], when it starts with it. *)
Fixpoint strip_prefix (p s : Str.t) : option Str.t :=
  match p, s with
  | [], _ => Some s
  | x :: p', y :: s' => if N.eqb x y then strip_prefix p' s' else None
  | _ :: _, [] => None
  end.

(** CreateDataProperty on the property list of an object under
    construction: a key already present keeps its place and takes the new
    value; a new array-index key goes among the index keys in ascending
    order, before every other key; any other new key goes last. *)
Fixpoint replace_property (k : Str.t) (v : json) (props : list (Str.t * json))
  : list (Str.t * json) :=
  match props with
  | [] => []
  | (k', v') :: rest =>
    if Str.eqb k k' then (k', v) :: rest
    else (k', v') :: replace_property k v rest
  end.

Fixpoint insert_index (i : N) (k : Str.t) (v : json)
  (props : list (Str.t * json)) : list (Str.t * json) :=
  match props with
  | [] => [(k, v)]
  | (k', v') :: rest =>
    match array_index k' with
    | Some j => if (j <? i)%N then (k', v') :: insert_index i k v rest
                else (k, v) :: props
    | None => (k, v) :: props
    end
  end.

Definition define_property (props : list (Str.t * json)) (k : Str.t) (v : json)
  : list (Str.t * json) :=
  if has_own k props then replace_property k v props
  else match array_index k with
       | Some i => insert_index i k v props
       | None => props ++ [(k, v)]
       end.

Inductive outcome (A : Type) : Type :=
| Parsed (a : A) (rest : Str.t) (next_ref : N)
| Malformed
| OutOfFuel.
Arguments Parsed {A} a rest next_ref.
Arguments Malformed {A}.
Arguments OutOfFuel {A}.

(** Recursive descent. [ref] is the identity the next allocated array or
    object takes; [self] the identity of the array or object being filled. *)
Fixpoint value (fuel : nat) (s : Str.t) (ref : N) : outcome json :=
  match fuel with
  | O => OutOfFuel
  | S fuel =>
    match skip_ws s with
    | [] => Malformed
    | c :: rest =>
      if N.eqb c 123 then                                  (* { *)
        match Conv.eat 125%N (skip_ws rest) with
        | Some rest' => Parsed (JObj ref []) rest' (ref + 1)
        | None => members fuel rest (ref + 1) ref []
        end
      else if N.eqb c 91 then                              (* [ *)
        match Conv.eat 93%N (skip_ws rest) with
        | Some rest' => Parsed (JArr ref []) rest' (ref + 1)
        | None => elements fuel rest (ref + 1) ref []
        end
      else if N.eqb c 34 then                              (* quote *)
        match string_body rest with
        | Some (str, rest') => Parsed (JStr str) rest' ref
        | None => Malformed
        end
      else if N.eqb c 116 then                             (* t *)
        match strip_prefix (u"true") (c :: rest) with
        | Some rest' => Parsed (JBool true) rest' ref
        | None => Malformed
        end
      else if N.eqb c 102 then                             (* f *)
        match strip_prefix (u"false") (c :: rest) with
        | Some rest' => Parsed (JBool false) rest' ref
        | None => Malformed
        end
      else if N.eqb c 110 then                             (* n *)
        match strip_prefix (u"null") (c :: rest) with
        | Some rest' => Parsed JNull rest' ref
        | None => Malformed
        end
      else
        match number (c :: rest) with
        | Some (x, rest') => Parsed (JNum x) rest' ref
        | None => Malformed
        end
    end
  end
with elements (fuel : nat) (s : Str.t) (ref self : N) (acc : list json)
  : outcome json :=
  match fuel with
  | O => OutOfFuel
  | S fuel =>
    match value fuel s ref with
    | Parsed v rest ref' =>
      match Conv.eat 44%N (skip_ws rest) with                (* , *)
      | Some rest' => elements fuel rest' ref' self (acc ++ [v])
      | None =>
        match Conv.eat 93%N (skip_ws rest) with              (* ] *)
        | Some rest' => Parsed (JArr self (acc ++ [v])) rest' ref'
        | None => Malformed
        end
      end
    | Malformed => Malformed
    | OutOfFuel => OutOfFuel
    end
  end
with members (fuel : nat) (s : Str.t) (ref self : N)
  (acc : list (Str.t * json)) : outcome json :=
  match fuel with
  | O => OutOfFuel
  | S fuel =>
    match Conv.eat 34%N (skip_ws s) with                     (* quote *)
    | Some rest =>
      match string_body rest with
      | Some (key, rest1) =>
        match Conv.eat 58%N (skip_ws rest1) with             (* : *)
        | Some rest2 =>
          match value fuel rest2 ref with
          | Parsed v rest3 ref' =>
            match Conv.eat 44%N (skip_ws rest3) with         (* , *)
            | Some rest4 =>
              members fuel rest4 ref' self (define_property acc key v)
            | None =>
              match Conv.eat 125%N (skip_ws rest3) with      (* } *)
              | Some rest4 =>
                Parsed (JObj self (define_property acc key v)) rest4 ref'
              | None => Malformed
              end
            end
          | Malformed => Malformed
          | OutOfFuel => OutOfFuel
          end
        | None => Malformed
        end
      | None => Malformed
      end
    | None => Malformed
    end
  end.

Definition fuel_for (s : Str.t) : nat := 2 * List.length s + 2.

(** [JSON.parse(text)]: one value, whitespace around it, nothing else. *)
Definition parse (text : Str.t) : result json :=
  match value (fuel_for text) text 0 with
  | Parsed v rest _ =>
    match skip_ws rest with
    | [] => Ok v
    | _ => Throw (SyntaxError text)
    end
  | _ => Throw (SyntaxError text)
  end.

End JSONParser.

(** ** The analyzer: [src/app/page.tsx] *)

Module Analyzer.
Import JS.

Notation "x <- e ;; k" := (bind e (fun x => k))
  (at level 61, e at next level, right associativity).

(** [a || b] and [a && b] on conditions whose evaluation may throw; the
    right operand is evaluated only when the left one does not decide. *)
Definition or_b (a b : result bool) : result bool :=
  x <- a ;; if x then Ok true else b.

Definition and_b (a b : result bool) : result bool :=
  x <- a ;; if x then b else Ok false.

(** [a || b] on values. *)
Definition or_v (a b : result value) : result value :=
  x <- a ;; if truthy x then Ok x else b.

Definition is_truthy (a : result value) : result bool :=
  x <- a ;; Ok (truthy x).

Definition not_b (a : result bool) : result bool :=
  x <- a ;; Ok (negb x).

Infix "|||" := or_b (at level 50, left associativity).
Infix "&&&" := and_b (at level 40, left associativity).

Inductive Severity : Type := high | medium | low.

(** [interface SecurityIssue]. [nodeId] and [nodeName] hold whatever the
    document gives for [id] and [name]: any parsed value, or [undefined]. *)
Record SecurityIssue : Type := {
  severity : Severity;
  type : Str.t;
  message : Str.t;
  nodeId : value;
  nodeName : value;
  description : Str.t;
  remediation : Str.t
}.

Record WorkflowInfo : Type := {
  name : value;
  nodes : nat;
  connections : nat;
  version : value
}.

(** [interface ValidationResult]. *)
Record ValidationResult : Type := {
  isValid : bool;
  isN8nWorkflow : bool;
  errors : list Str.t;
  warnings : list Str.t;
  info : list Str.t;
  securityIssues : list SecurityIssue;
  workflowInfo : option WorkflowInfo
}.

(** [array.push(x)]. *)
Definition push {A} (array : list A) (x : A) : list A := array ++ [x].

(** The remediation texts are bullet lines separated by a line feed. *)
Definition lines (ls : list Str.t) : Str.t := join [10%N] ls.

(** *** The findings *)

Definition llm01_issue (nodeId nodeName : value) : SecurityIssue :=
  {| severity := high;
     type := u"LLM-01: Prompt Injection";
     message :=
       u"Dynamic prompt construction detected. User input directly inserted into prompts can lead to prompt injection attacks.";
     description :=
       u"Prompt injection occurs when untrusted input is used to construct prompts, potentially allowing attackers to manipulate AI model behavior, extract sensitive information, or bypass safety measures.";
     remediation :=
       lines [u"• Validate and sanitize all user inputs before including in prompts";
              u"• Use parameterized prompts with clear boundaries";
              u"• Implement input filtering for malicious patterns";
              u"• Consider using prompt templates with restricted variable substitution";
              u"• Monitor AI responses for unexpected behavior"];
     nodeId := nodeId;
     nodeName := nodeName |}.

Definition llm02_issue (nodeId nodeName : value) : SecurityIssue :=
  {| severity := medium;
     type := u"LLM-02: Insecure Output Handling";
     message :=
       u"AI model output used without validation. Unvalidated LLM outputs can contain malicious content or be used in downstream attacks.";
     description :=
       u"LLM outputs may contain malicious code, scripts, or instructions that could be executed by downstream systems or displayed to users without proper sanitization.";
     remediation :=
       lines [u"• Validate and sanitize all LLM outputs before use";
              u"• Implement output filtering for code, scripts, and malicious patterns";
              u"• Use content security policies when displaying outputs";
              u"• Log and monitor LLM outputs for anomalies";
              u"• Implement rate limiting for LLM interactions"];
     nodeId := nodeId;
     nodeName := nodeName |}.

Definition llm03_issue (nodeId nodeName : value) : SecurityIssue :=
  {| severity := high;
     type := u"LLM-03: Training Data Poisoning";
     message :=
       u"Training data source detected. Untrusted training data can compromise model integrity and introduce backdoors.";
     description :=
       u"Training data poisoning involves injecting malicious or biased data into training datasets, potentially causing the model to produce harmful outputs or exhibit unintended behaviors.";
     remediation :=
       lines [u"• Verify the integrity and source of all training data";
              u"• Implement data validation and anomaly detection";
              u"• Use trusted, curated datasets when possible";
              u"• Monitor model performance for unexpected behaviors";
              u"• Implement data provenance tracking"];
     nodeId := nodeId;
     nodeName := nodeName |}.

Definition llm04_issue (nodeId nodeName : value) : SecurityIssue :=
  {| severity := medium;
     type := u"LLM-04: Model Denial of Service";
     message :=
       u"No resource limits configured for LLM requests. This can lead to resource exhaustion and service disruption.";
     description :=
       u"Without proper resource limits, attackers can craft inputs that cause excessive resource consumption, leading to denial of service for legitimate users.";
     remediation :=
       lines [u"• Set maximum token limits for requests and responses";
              u"• Implement request timeouts";
              u"• Use rate limiting per user/IP";
              u"• Monitor resource usage and set alerts";
              u"• Implement circuit breakers for LLM services"];
     nodeId := nodeId;
     nodeName := nodeName |}.

Definition llm06_issue (type_ : Str.t) (nodeId nodeName : value) : SecurityIssue :=
  {| severity := high;
     type := u"LLM-06: Sensitive Information Disclosure";
     message :=
       u"Potential " ++ type_ ++
       u" detected in node parameters. Sensitive data in prompts can be logged or exposed.";
     description :=
       u"LLM interactions may inadvertently expose sensitive information through logs, model training, or response caching. This can lead to data breaches and privacy violations.";
     remediation :=
       lines [u"• Remove all sensitive data from prompts and parameters";
              u"• Use secure credential management systems";
              u"• Implement data masking for sensitive fields";
              u"• Review and sanitize all LLM inputs";
              u"• Use environment variables for secrets"];
     nodeId := nodeId;
     nodeName := nodeName |}.

Definition llm07_issue (nodeId nodeName : value) : SecurityIssue :=
  {| severity := medium;
     type := u"LLM-07: Insecure Plugin Design";
     message :=
       u"LLM tool/plugin usage detected. Insecure plugins can provide unauthorized access to sensitive functions.";
     description :=
       u"LLM plugins and tools may lack proper input validation, authorization controls, or may expose sensitive functions that can be exploited by malicious prompts.";
     remediation :=
       lines [u"• Implement strict input validation for all plugin parameters";
              u"• Use principle of least privilege for plugin permissions";
              u"• Audit plugin code for security vulnerabilities";
              u"• Implement proper authentication and authorization";
              u"• Monitor plugin usage and outputs"];
     nodeId := nodeId;
     nodeName := nodeName |}.

Definition llm08_issue (toolCount : Str.t) (nodeId nodeName : value) : SecurityIssue :=
  {| severity := high;
     type := u"LLM-08: Excessive Agency";
     message :=
       u"Agent configured with " ++ toolCount ++
       u" tools. Excessive permissions can lead to unintended actions and security breaches.";
     description :=
       u"LLM agents with too many tools or excessive permissions can perform unintended actions, potentially causing data loss, unauthorized access, or system compromise.";
     remediation :=
       lines [u"• Limit agent tools to only what's necessary";
              u"• Implement approval workflows for sensitive actions";
              u"• Use role-based access control";
              u"• Monitor and log all agent actions";
              u"• Implement safeguards and confirmation steps"];
     nodeId := nodeId;
     nodeName := nodeName |}.

Definition llm09_issue (nodeId nodeName : value) : SecurityIssue :=
  {| severity := medium;
     type := u"LLM-09: Overreliance";
     message :=
       u"No fallback or validation mechanisms detected. Overreliance on LLM outputs without verification can lead to critical failures.";
     description :=
       u"Systems that rely entirely on LLM outputs without human oversight or validation mechanisms are vulnerable to model failures, hallucinations, and malicious manipulation.";
     remediation :=
       lines [u"• Implement human-in-the-loop validation for critical decisions";
              u"• Add fallback mechanisms for LLM failures";
              u"• Use multiple models for cross-validation";
              u"• Implement confidence scoring and thresholds";
              u"• Regular model performance monitoring"];
     nodeId := nodeId;
     nodeName := nodeName |}.

Definition llm10_issue (nodeId nodeName : value) : SecurityIssue :=
  {| severity := medium;
     type := u"LLM-10: Model Theft";
     message :=
       u"Custom model path/URL detected. Exposed model endpoints can lead to intellectual property theft.";
     description :=
       u"Unauthorized access to proprietary models can result in intellectual property theft, competitive disadvantage, and potential misuse of the model.";
     remediation :=
       lines [u"• Secure model endpoints with proper authentication";
              u"• Use API rate limiting and monitoring";
              u"• Implement model access logging";
              u"• Consider model encryption at rest";
              u"• Use secure model serving infrastructure"];
     nodeId := nodeId;
     nodeName := nodeName |}.

Definition planning_issue (nodeId nodeName : value) : SecurityIssue :=
  {| severity := medium;
     type := u"Agentic AI: Insecure Planning";
     message :=
       u"AI agent planning capabilities detected. Insecure planning can lead to unintended or malicious action sequences.";
     description :=
       u"AI agents with planning capabilities may generate action sequences that bypass security controls, access unauthorized resources, or perform unintended operations.";
     remediation :=
       lines [u"• Implement plan validation and approval workflows";
              u"• Use constrained planning with predefined action sets";
              u"• Monitor and log all planned actions";
              u"• Implement plan simulation and testing";
              u"• Use human oversight for critical plans"];
     nodeId := nodeId;
     nodeName := nodeName |}.

Definition memory_issue (nodeId nodeName : value) : SecurityIssue :=
  {| severity := medium;
     type := u"Agentic AI: Memory Poisoning";
     message :=
       u"AI memory/buffer system detected. Compromised memory can persist malicious information across sessions.";
     description :=
       u"AI memory systems can be poisoned with malicious information that persists across interactions, potentially influencing future decisions and responses.";
     remediation :=
       lines [u"• Implement memory validation and sanitization";
              u"• Use memory isolation between users/sessions";
              u"• Regular memory cleanup and rotation";
              u"• Monitor memory contents for anomalies";
              u"• Implement memory access controls"];
     nodeId := nodeId;
     nodeName := nodeName |}.

Definition credential_issue (credType : Str.t) (nodeId nodeName : value) : SecurityIssue :=
  {| severity := low;
     type := u"Credential Reference";
     message :=
       u"Node references credential of type '" ++ credType ++
       u"'. Ensure credentials are properly secured.";
     description :=
       u"While using n8n's credential system is a security best practice, it's important to ensure credentials are properly configured and have minimal required permissions.";
     remediation :=
       lines [u"• Verify credential permissions follow principle of least privilege";
              u"• Regularly rotate credentials";
              u"• Monitor credential usage";
              u"• Use separate credentials for different environments";
              u"• Implement credential access logging"];
     nodeId := nodeId;
     nodeName := nodeName |}.

Definition code_execution_issue (nodeId nodeName : value) : SecurityIssue :=
  {| severity := high;
     type := u"Code Execution Risk";
     message :=
       u"Node can execute custom code. Malicious code execution can compromise the entire system.";
     description :=
       u"Code execution nodes can run arbitrary JavaScript code, potentially allowing attackers to access sensitive data, modify system files, or establish persistence.";
     remediation :=
       lines [u"• Review all custom code for malicious patterns";
              u"• Use code sandboxing and isolation";
              u"• Implement code review processes";
              u"• Restrict available APIs and modules";
              u"• Monitor code execution and outputs";
              u"• Use static code analysis tools"];
     nodeId := nodeId;
     nodeName := nodeName |}.

Definition http_request_issue (url : Str.t) (nodeId nodeName : value) : SecurityIssue :=
  {| severity := (if Str.includes url (u"http://") then high else medium);
     type := u"External HTTP Request";
     message :=
       u"Node makes HTTP requests to: " ++ url ++ u". " ++
       (if Str.includes url (u"http://")
        then u"Unencrypted HTTP connections expose data in transit."
        else u"External requests may leak sensitive data.");
     description :=
       u"HTTP requests to external services can expose sensitive data, credentials, or workflow information. Unencrypted HTTP connections are particularly vulnerable to interception.";
     remediation :=
       lines [u"• Use HTTPS for all external requests";
              u"• Validate and sanitize request parameters";
              u"• Implement request logging and monitoring";
              u"• Use allowlists for external domains";
              u"• Avoid sending sensitive data in URLs";
              u"• Implement request timeouts and rate limiting"];
     nodeId := nodeId;
     nodeName := nodeName |}.

Definition webhook_issue (nodeId nodeName : value) : SecurityIssue :=
  {| severity := medium;
     type := u"Webhook Exposure";
     message :=
       u"Node exposes a webhook endpoint. Unsecured webhooks can be exploited by attackers.";
     description :=
       u"Webhook endpoints without proper authentication and validation can be abused to trigger unauthorized workflow executions, inject malicious data, or cause denial of service.";
     remediation :=
       lines [u"• Implement webhook authentication (API keys, signatures)";
              u"• Validate all incoming webhook data";
              u"• Use HTTPS for webhook endpoints";
              u"• Implement rate limiting and DDoS protection";
              u"• Log and monitor webhook usage";
              u"• Use webhook secret validation"];
     nodeId := nodeId;
     nodeName := nodeName |}.

Definition social_media_issue (nodeId nodeName : value) : SecurityIssue :=
  {| severity := medium;
     type := u"Social Media Integration Risk";
     message :=
       u"Node integrates with social media platforms. Compromised accounts can lead to reputation damage and data exposure.";
     description :=
       u"Social media integrations can be exploited to post malicious content, harvest personal information, or spread misinformation if proper controls are not in place.";
     remediation :=
       lines [u"• Implement content approval workflows";
              u"• Use read-only permissions when possible";
              u"• Monitor posted content and interactions";
              u"• Implement rate limiting for posts";
              u"• Use separate accounts for automation";
              u"• Regular security audits of social media permissions"];
     nodeId := nodeId;
     nodeName := nodeName |}.

Definition database_issue (nodeId nodeName : value) : SecurityIssue :=
  {| severity := high;
     type := u"Database Security Risk";
     message :=
       u"Direct database access detected. Improper database queries can lead to SQL injection and data breaches.";
     description :=
       u"Direct database access without proper input validation and query parameterization can lead to SQL injection attacks, unauthorized data access, and data corruption.";
     remediation :=
       lines [u"• Use parameterized queries and prepared statements";
              u"• Implement input validation and sanitization";
              u"• Use database user accounts with minimal privileges";
              u"• Enable database query logging and monitoring";
              u"• Implement connection encryption (SSL/TLS)";
              u"• Regular database security audits"];
     nodeId := nodeId;
     nodeName := nodeName |}.

Definition file_system_issue (nodeId nodeName : value) : SecurityIssue :=
  {| severity := medium;
     type := u"File System Access Risk";
     message :=
       u"File system operations detected. Unrestricted file access can lead to data exposure and system compromise.";
     description :=
       u"File system operations without proper path validation can lead to directory traversal attacks, unauthorized file access, and potential system compromise.";
     remediation :=
       lines [u"• Validate and sanitize all file paths";
              u"• Use chroot jails or containers for isolation";
              u"• Implement file access logging";
              u"• Restrict file operations to specific directories";
              u"• Use principle of least privilege for file permissions";
              u"• Monitor file system changes"];
     nodeId := nodeId;
     nodeName := nodeName |}.

(** *** [checkNodeSecurity] *)

(** [node.type.includes(s)]. *)
Definition type_includes (node : value) (s : Str.t) : result bool :=
  t <- get node (u"type") ;; call_includes t s.

(** [node.parameters?.key]. *)
Definition parameter (node : value) (key : Str.t) : result value :=
  p <- get node (u"parameters") ;; get_opt p key.

(** Pushes the finding [mk] with [nodeId: node.id, nodeName]. *)
Definition push_issue (mk : value -> value -> SecurityIssue)
  (node nodeName : value) (securityIssues : list SecurityIssue)
  : result (list SecurityIssue) :=
  id <- get node (u"id") ;; Ok (push securityIssues (mk id nodeName)).

(** OWASP LLM-01: Prompt Injection *)
Definition check_llm01 (node nodeName : value)
  (securityIssues : list SecurityIssue) : result (list SecurityIssue) :=
  c <- type_includes node (u"lmChat") ||| type_includes node (u"openai") |||
       type_includes node (u"gemini") ||| type_includes node (u"anthropic") ;;
  if c then
    c2 <- is_truthy (parameter node (u"prompt")) |||
          is_truthy (parameter node (u"message")) ;;
    if c2 then
      promptContent <-
        or_v (or_v (p <- get node (u"parameters") ;; get p (u"prompt"))
                   (p <- get node (u"parameters") ;; get p (u"message")))
             (Ok (Some (JStr []))) ;;
      match promptContent with
      | Some (JStr text) =>
        if Str.includes text (u"{{")
        then push_issue llm01_issue node nodeName securityIssues
        else Ok securityIssues
      | _ => Ok securityIssues
      end
    else Ok securityIssues
  else Ok securityIssues.

(** OWASP LLM-02: Insecure Output Handling *)
Definition check_llm02 (node nodeName : value)
  (securityIssues : list SecurityIssue) : result (list SecurityIssue) :=
  c <- type_includes node (u"lmChat") ||| type_includes node (u"openai") |||
       type_includes node (u"gemini") ;;
  if c then push_issue llm02_issue node nodeName securityIssues
  else Ok securityIssues.

(** OWASP LLM-03: Training Data Poisoning *)
Definition check_llm03 (node nodeName : value)
  (securityIssues : list SecurityIssue) : result (list SecurityIssue) :=
  c <- is_truthy (parameter node (u"trainingData")) |||
       is_truthy (parameter node (u"dataset")) ;;
  if c then push_issue llm03_issue node nodeName securityIssues
  else Ok securityIssues.

(** OWASP LLM-04: Model Denial of Service *)
Definition check_llm04 (node nodeName : value)
  (securityIssues : list SecurityIssue) : result (list SecurityIssue) :=
  c <- type_includes node (u"lmChat") ||| type_includes node (u"openai") ;;
  if c then
    c2 <- not_b (is_truthy (parameter node (u"maxTokens"))) &&&
          not_b (is_truthy (parameter node (u"timeout"))) ;;
    if c2 then push_issue llm04_issue node nodeName securityIssues
    else Ok securityIssues
  else Ok securityIssues.


(** OWASP LLM-06: Sensitive Information Disclosure *)
Record SensitivePattern : Type := { pattern : Regex.regexp; type_ : Str.t }.

Definition sep_class : Regex.re :=
  Regex.Class (fun c => N.eqb c 45 || Str.is_white_space c).

Definition four_digits : Regex.re :=
  Regex.cat [Regex.digit; Regex.digit; Regex.digit; Regex.digit].

Definition sensitivePatterns : list SensitivePattern :=
  [ (* /api[_-]?key/i *)
    {| pattern := {| Regex.source :=
         Regex.cat [Regex.word (u"api"); Regex.Opt (Regex.one_of (u"_-"));
                    Regex.word (u"key")];
         Regex.ignoreCase := true |};
       type_ := u"API Key" |};
    (* /password/i *)
    {| pattern := {| Regex.source := Regex.word (u"password");
                     Regex.ignoreCase := true |};
       type_ := u"Password" |};
    (* /secret/i *)
    {| pattern := {| Regex.source := Regex.word (u"secret");
                     Regex.ignoreCase := true |};
       type_ := u"Secret" |};
    (* /token/i *)
    {| pattern := {| Regex.source := Regex.word (u"token");
                     Regex.ignoreCase := true |};
       type_ := u"Token" |};
    (* /private[_-]?key/i *)
    {| pattern := {| Regex.source :=
         Regex.cat [Regex.word (u"private"); Regex.Opt (Regex.one_of (u"_-"));
                    Regex.word (u"key")];
         Regex.ignoreCase := true |};
       type_ := u"Private Key" |};
    (* /ssn|social.security/i *)
    {| pattern := {| Regex.source :=
         Regex.Alt (Regex.word (u"ssn"))
                   (Regex.cat [Regex.word (u"social"); Regex.Dot;
                               Regex.word (u"security")]);
         Regex.ignoreCase := true |};
       type_ := u"SSN" |};
    (* /credit.card|ccn/i *)
    {| pattern := {| Regex.source :=
         Regex.Alt (Regex.cat [Regex.word (u"credit"); Regex.Dot;
                               Regex.word (u"card")])
                   (Regex.word (u"ccn"));
         Regex.ignoreCase := true |};
       type_ := u"Credit Card" |};
    (* /\b\d{4}[-\s]?\d{4}[-\s]?\d{4}[-\s]?\d{4}\b/ *)
    {| pattern := {| Regex.source :=
         Regex.cat [Regex.WordBoundary;
                    four_digits; Regex.Opt sep_class;
                    four_digits; Regex.Opt sep_class;
                    four_digits; Regex.Opt sep_class;
                    four_digits; Regex.WordBoundary];
         Regex.ignoreCase := false |};
       type_ := u"Credit Card Number" |} ].

(** The body of [sensitivePatterns.forEach] on the string [obj]. *)
Definition check_pattern (node nodeName : value) (obj : Str.t)
  (p : SensitivePattern) (securityIssues : list SecurityIssue)
  : result (list SecurityIssue) :=
  if Regex.test (pattern p) obj
  then push_issue (llm06_issue (type_ p)) node nodeName securityIssues
  else Ok securityIssues.

(** [checkForSensitiveData(obj, path)]. The [path] argument is built on the
    way down and never read, so it is left out. [Object.entries] of an
    array lists its elements in order. *)
Fixpoint checkForSensitiveData (node nodeName : value) (obj : json)
  (securityIssues : list SecurityIssue) : result (list SecurityIssue) :=
  match obj with
  | JStr text =>
    for_each (check_pattern node nodeName text) sensitivePatterns securityIssues
  | JArr _ elems =>
    for_each (checkForSensitiveData node nodeName) elems securityIssues
  | JObj _ props =>
    for_each (fun kv => checkForSensitiveData node nodeName (snd kv)) props
             securityIssues
  | _ => Ok securityIssues
  end.

Definition check_llm06 (node nodeName : value)
  (securityIssues : list SecurityIssue) : result (list SecurityIssue) :=
  parameters <- get node (u"parameters") ;;
  match parameters with
  | Some obj =>
    if truthy parameters
    then checkForSensitiveData node nodeName obj securityIssues
    else Ok securityIssues
  | None => Ok securityIssues
  end.

(** OWASP LLM-07: Insecure Plugin Design *)
Definition check_llm07 (node nodeName : value)
  (securityIssues : list SecurityIssue) : result (list SecurityIssue) :=
  c <- type_includes node (u"tool") ||| type_includes node (u"agent") ;;
  if c then push_issue llm07_issue node nodeName securityIssues
  else Ok securityIssues.

(** OWASP LLM-08: Excessive Agency *)
Definition check_llm08 (node nodeName : value)
  (securityIssues : list SecurityIssue) : result (list SecurityIssue) :=
  c <- type_includes node (u"agent") |||
       (is_truthy (parameter node (u"tools")) &&&
        (p <- get node (u"parameters") ;;
         tools <- get p (u"tools") ;; Ok (isArray tools))) ;;
  if c then
    toolCount <-
      or_v (tools <- parameter node (u"tools") ;; get_opt tools (u"length"))
           (Ok (Some (JNum Num.zero))) ;;
    more <- Conv.greater_than toolCount Num.five ;;
    if more then
      text <- to_string toolCount ;;
      push_issue (llm08_issue text) node nodeName securityIssues
    else Ok securityIssues
  else Ok securityIssues.

(** OWASP LLM-09: Overreliance *)
Definition check_llm09 (node nodeName : value)
  (securityIssues : list SecurityIssue) : result (list SecurityIssue) :=
  c <- type_includes node (u"lmChat") &&&
       not_b (is_truthy (parameter node (u"fallback"))) &&&
       not_b (is_truthy (parameter node (u"validation"))) ;;
  if c then push_issue llm09_issue node nodeName securityIssues
  else Ok securityIssues.

(** OWASP LLM-10: Model Theft *)
Definition check_llm10 (node nodeName : value)
  (securityIssues : list SecurityIssue) : result (list SecurityIssue) :=
  c <- is_truthy (parameter node (u"modelPath")) |||
       is_truthy (parameter node (u"modelUrl")) ;;
  if c then push_issue llm10_issue node nodeName securityIssues
  else Ok securityIssues.

(** OWASP Agentic AI Security - Planning and Reasoning Vulnerabilities *)
Definition check_planning (node nodeName : value)
  (securityIssues : list SecurityIssue) : result (list SecurityIssue) :=
  c <- type_includes node (u"agent") ||| type_includes node (u"planning") ;;
  if c then push_issue planning_issue node nodeName securityIssues
  else Ok securityIssues.

(** Memory and Context Vulnerabilities *)
Definition check_memory (node nodeName : value)
  (securityIssues : list SecurityIssue) : result (list SecurityIssue) :=
  c <- type_includes node (u"memory") ||| type_includes node (u"buffer") ;;
  if c then push_issue memory_issue node nodeName securityIssues
  else Ok securityIssues.

(** Credential exposure *)
Definition check_credentials (node nodeName : value)
  (securityIssues : list SecurityIssue) : result (list SecurityIssue) :=
  credentials <- get node (u"credentials") ;;
  if truthy credentials then
    credTypes <- keys credentials ;;
    for_each
      (fun credType securityIssues =>
         cs <- get node (u"credentials") ;;
         cred <- get cs credType ;;
         id <- get cred (u"id") ;;
         if truthy id
         then push_issue (credential_issue credType) node nodeName securityIssues
         else Ok securityIssues)
      credTypes securityIssues
  else Ok securityIssues.

(** Code execution nodes *)
Definition codeExecutionNodes : list Str.t :=
  [u"n8n-nodes-base.code"; u"n8n-nodes-base.function";
   u"n8n-nodes-base.functionItem"].

(** [array.includes(v)] on an array of strings. *)
Definition array_includes (array : list Str.t) (v : value) : bool :=
  existsb (fun x => same_value_zero v (Some (JStr x))) array.

Definition check_code_execution (node nodeName : value)
  (securityIssues : list SecurityIssue) : result (list SecurityIssue) :=
  t <- get node (u"type") ;;
  if array_includes codeExecutionNodes t
  then push_issue code_execution_issue node nodeName securityIssues
  else Ok securityIssues.

(** HTTP request nodes *)
Definition check_http_request (node nodeName : value)
  (securityIssues : list SecurityIssue) : result (list SecurityIssue) :=
  c <- (t <- get node (u"type") ;;
        Ok (strict_equal t (Some (JStr (u"n8n-nodes-base.httpRequest"))))) &&&
       is_truthy (parameter node (u"url")) ;;
  if c then
    p <- get node (u"parameters") ;;
    url <- get p (u"url") ;;
    match url with
    | Some (JStr url) =>
      if Str.includes url (u"http://") || Str.includes url (u"https://")
      then push_issue (http_request_issue url) node nodeName securityIssues
      else Ok securityIssues
    | _ => Ok securityIssues
    end
  else Ok securityIssues.

(** Webhook/form trigger nodes *)
Definition check_webhook (node nodeName : value)
  (securityIssues : list SecurityIssue) : result (list SecurityIssue) :=
  c <- type_includes node (u"trigger") ||| type_includes node (u"webhook") |||
       type_includes node (u"form") ;;
  if c then
    c2 <- is_truthy (get node (u"webhookId")) |||
          type_includes node (u"webhook") ;;
    if c2 then push_issue webhook_issue node nodeName securityIssues
    else Ok securityIssues
  else Ok securityIssues.

(** Social media integrations *)
Definition check_social_media (node nodeName : value)
  (securityIssues : list SecurityIssue) : result (list SecurityIssue) :=
  c <- type_includes node (u"linkedIn") ||| type_includes node (u"twitter") |||
       type_includes node (u"facebook") ;;
  if c then push_issue social_media_issue node nodeName securityIssues
  else Ok securityIssues.

(** Database connections *)
Definition check_database (node nodeName : value)
  (securityIssues : list SecurityIssue) : result (list SecurityIssue) :=
  c <- type_includes node (u"postgres") ||| type_includes node (u"mysql") |||
       type_includes node (u"database") ;;
  if c then push_issue database_issue node nodeName securityIssues
  else Ok securityIssues.

(** File system operations *)
Definition check_file_system (node nodeName : value)
  (securityIssues : list SecurityIssue) : result (list SecurityIssue) :=
  c <- type_includes node (u"file") ||| type_includes node (u"fs") ;;
  if c then push_issue file_system_issue node nodeName securityIssues
  else Ok securityIssues.

(** The checks in the order of the source. *)
Definition checks
  : list (value -> value -> list SecurityIssue -> result (list SecurityIssue)) :=
  [check_llm01; check_llm02; check_llm03; check_llm04; check_llm06;
   check_llm07; check_llm08; check_llm09; check_llm10; check_planning;
   check_memory; check_credentials; check_code_execution;
   check_http_request; check_webhook; check_social_media; check_database;
   check_file_system].

Definition checkNodeSecurity (node : value)
  (securityIssues : list SecurityIssue) : result (list SecurityIssue) :=
  nodeName <- or_v (or_v (get node (u"name")) (get node (u"id")))
                   (Ok (Some (JStr (u"Unknown")))) ;;
  (* Skip sticky notes from security analysis *)
  sticky <- type_includes node (u"stickyNote") ;;
  if sticky then Ok securityIssues
  else for_each (fun check => check node nodeName) checks securityIssues.

(** *** [validateN8nWorkflow] *)

(** [data && (data.nodes || data.connections || data.meta?.instanceId ||
    data.name)], read as a condition. *)
Definition looksLikeWorkflow (data : value) : result bool :=
  if truthy data then
    is_truthy
      (or_v (or_v (or_v (get data (u"nodes")) (get data (u"connections")))
                  (meta <- get data (u"meta") ;; get_opt meta (u"instanceId")))
            (get data (u"name")))
  else Ok false.

(** [node.name || node.id || index]. *)
Definition displayName (node : value) (index : nat) : result value :=
  or_v (or_v (get node (u"name")) (get node (u"id")))
       (Ok (Some (JNum (Num.of_nat index)))).

Definition missing_id_error (index : nat) : Str.t :=
  u"Node at index " ++ Num.to_string (Num.of_nat index) ++
  u" is missing required 'id' field".

Definition missing_type_error (label : Str.t) : Str.t :=
  u"Node '" ++ label ++ u"' is missing required 'type' field".

Definition missing_typeVersion_warning (label : Str.t) : Str.t :=
  u"Node '" ++ label ++ u"' is missing 'typeVersion' field".

(** The three arrays the node loop appends to. *)
Record Lists : Type := {
  l_errors : list Str.t;
  l_warnings : list Str.t;
  l_securityIssues : list SecurityIssue
}.

(** The body of [data.nodes.forEach((node, index) => ...)]. *)
Definition validateNode (node : json) (index : nat) (l : Lists)
  : result Lists :=
  id <- get (Some node) (u"id") ;;
  let errors := if truthy id then l_errors l
                else push (l_errors l) (missing_id_error index) in
  t <- get (Some node) (u"type") ;;
  errors <- (if truthy t then Ok errors
             else label <- (d <- displayName (Some node) index ;; to_string d) ;;
                  Ok (push errors (missing_type_error label))) ;;
  typeVersion <- get (Some node) (u"typeVersion") ;;
  warnings <- (if truthy typeVersion then Ok (l_warnings l)
               else label <- (d <- displayName (Some node) index ;; to_string d) ;;
                    Ok (push (l_warnings l) (missing_typeVersion_warning label))) ;;
  (* Security checks *)
  securityIssues <- checkNodeSecurity (Some node) (l_securityIssues l) ;;
  Ok {| l_errors := errors; l_warnings := warnings;
        l_securityIssues := securityIssues |}.

(** Check workflow metadata. *)
Definition metadataInfo (data : value) (info : list Str.t)
  : result (list Str.t) :=
  meta <- get data (u"meta") ;;
  if truthy meta then
    instanceId <- get meta (u"instanceId") ;;
    info <- (if truthy instanceId
             then text <- to_string instanceId ;;
                  Ok (push info (u"Workflow from instance: " ++ text))
             else Ok info) ;;
    completed <- get meta (u"templateCredsSetupCompleted") ;;
    Ok (if truthy completed
        then push info (u"Template credentials setup completed")
        else info)
  else Ok info.

(** Count connections. [Object.values] of a value that is not [null] or
    [undefined] cannot throw. *)
Definition countOutputs (outputs : json) (connectionCount : nat) : nat :=
  match outputs with
  | JArr _ slots =>
    fold_left (fun connectionCount outputConnections =>
                 match outputConnections with
                 | JArr _ edges => connectionCount + List.length edges
                 | _ => connectionCount
                 end)
              slots connectionCount
  | _ => connectionCount
  end.

Definition countNodeConnections (nodeConnections : json)
  (connectionCount : nat) : nat :=
  if truthy (Some nodeConnections) &&
     Str.eqb (typeof (Some nodeConnections)) (u"object")
  then fold_left (fun connectionCount outputs =>
                    countOutputs outputs connectionCount)
                 (own_values nodeConnections) connectionCount
  else connectionCount.

Definition countConnections (connections : value) : nat :=
  match connections with
  | Some c =>
    if truthy connections
    then fold_left (fun connectionCount nodeConnections =>
                      countNodeConnections nodeConnections connectionCount)
                   (own_values c) 0
    else 0
  | None => 0
  end.

(** [node => !node.type.includes("stickyNote")]. *)
Definition notStickyNote (node : json) : result bool :=
  not_b (type_includes (Some node) (u"stickyNote")).

Definition not_a_workflow_error : Str.t :=
  u"This doesn't appear to be an n8n workflow file".
Definition invalid_nodes_error : Str.t := u"Missing or invalid 'nodes' array".
Definition invalid_connections_error : Str.t :=
  u"Missing or invalid 'connections' object".

Definition summaryInfo (w : WorkflowInfo) : Str.t :=
  u"Workflow contains " ++ Num.to_string (Num.of_nat (nodes w)) ++
  u" nodes and " ++ Num.to_string (Num.of_nat (connections w)) ++
  u" connections".

Definition validateN8nWorkflow (data : value) : result ValidationResult :=
  (* Check if it's an n8n workflow *)
  isN8nWorkflow <- looksLikeWorkflow data ;;
  if negb isN8nWorkflow then
    Ok {| isValid := false; isN8nWorkflow := false;
          errors := [not_a_workflow_error]; warnings := []; info := [];
          securityIssues := []; workflowInfo := None |}
  else
    (* Validate required fields *)
    nodes_ <- get data (u"nodes") ;;
    let errors := if negb (truthy nodes_) || negb (isArray nodes_)
                  then [invalid_nodes_error] else [] in
    connections_ <- get data (u"connections") ;;
    let errors :=
      if negb (truthy connections_) ||
         negb (Str.eqb (typeof connections_) (u"object"))
      then push errors invalid_connections_error else errors in
    (* Validate nodes *)
    l <- match nodes_ with
         | Some (JArr _ elems) =>
           for_each_indexed validateNode elems 0
             {| l_errors := errors; l_warnings := [];
                l_securityIssues := [] |}
         | _ => Ok {| l_errors := errors; l_warnings := [];
                      l_securityIssues := [] |}
         end ;;
    (* Check workflow metadata *)
    info <- metadataInfo data [] ;;
    (* Count connections *)
    let connectionCount := countConnections connections_ in
    (* Count nodes (excluding sticky notes) *)
    actualNodes <- call_filter nodes_ notStickyNote ;;
    name_ <- or_v (get data (u"name"))
                  (Ok (Some (JStr (u"Unnamed Workflow")))) ;;
    version_ <- (meta <- get data (u"meta") ;; get_opt meta (u"version")) ;;
    let workflowInfo := {| name := name_; nodes := List.length actualNodes;
                           connections := connectionCount;
                           version := version_ |} in
    Ok {| isValid := match l_errors l with [] => true | _ => false end;
          isN8nWorkflow := true;
          errors := l_errors l;
          warnings := l_warnings l;
          info := push info (summaryInfo workflowInfo);
          securityIssues := l_securityIssues l;
          workflowInfo := Some workflowInfo |}.

(** *** [analyzeJson] *)

Section Host.

(** [error.message]: the text the host engine gives an error. *)
Variable error_message : js_error -> Str.t.

Definition failure (text : Str.t) : ValidationResult :=
  {| isValid := false; isN8nWorkflow := false; errors := [text];
     warnings := []; info := []; securityIssues := [];
     workflowInfo := None |}.

(** The component state [analyzeJson] writes: [result] and
    [workflowData]. *)
Record State : Type := {
  result_ : option ValidationResult;
  workflowData : value
}.

Definition analyzeJson (jsonInput : Str.t) (st : State) : State :=
  match Str.trim jsonInput with
  | [] =>
    {| result_ := Some (failure (u"Please provide JSON input"));
       workflowData := workflowData st |}
  | _ =>
    match (parsed <- JSONParser.parse jsonInput ;;
           validation <- validateN8nWorkflow (Some parsed) ;;
           Ok (parsed, validation)) with
    | Ok (parsed, validation) =>
      {| result_ := Some validation; workflowData := Some parsed |}
    | Throw error =>
      {| result_ := Some (failure (u"Invalid JSON format: " ++
                                   error_message error));
         workflowData := Some JNull |}
    end
  end.

End Host.

End Analyzer.

(** ** The report generator: [src/components/report-generator.tsx] *)

Module ReportGenerator.
Import JS Analyzer.

(** [new Set(result.securityIssues.map((issue) => issue.nodeId)
    .filter(Boolean))], as the list of its members. *)
Definition nodesWithIssues (securityIssues : list SecurityIssue)
  : list value :=
  filter truthy (map nodeId securityIssues).

(** [set.has(v)]: membership by SameValueZero. *)
Definition set_has (set : list value) (v : value) : bool :=
  existsb (fun e => same_value_zero e v) set.

(** [calculateSecureNodes], with the props [workflowData] and [result] as
    arguments. [result.securityIssues] is an array in every
    [ValidationResult], hence truthy. *)
Definition calculateSecureNodes (workflowData : value)
  (result : ValidationResult) : JS.result nat :=
  nodes_ <- get_opt workflowData (u"nodes") ;;
  if negb (truthy nodes_) then Ok 0
  else
    (* Get all actual nodes (excluding sticky notes) *)
    actualNodes <- call_filter nodes_ notStickyNote ;;
    (* Get unique node IDs that have security issues *)
    let withIssues := nodesWithIssues (securityIssues result) in
    (* Count nodes that don't have any security issues *)
    secureNodes <- filter_m (fun node =>
                               id <- get (Some node) (u"id") ;;
                               Ok (negb (set_has withIssues id)))
                            actualNodes ;;
    Ok (List.length secureNodes).

(** The same count as [generateReportHTML] computes it
    ([secureNodesCount]). *)
Definition secureNodesCount (result : ValidationResult) (workflowData : value)
  : JS.result nat :=
  nodes_ <- get_opt workflowData (u"nodes") ;;
  actualNodes <- (if truthy nodes_ then call_filter nodes_ notStickyNote
                  else Ok []) ;;
  let withIssues := nodesWithIssues (securityIssues result) in
  secureNodes <- filter_m (fun node =>
                             id <- get (Some node) (u"id") ;;
                             Ok (negb (set_has withIssues id)))
                          actualNodes ;;
  Ok (List.length secureNodes).

End ReportGenerator.

(** ** Concrete documents *)

Module Inputs.
Import JS Analyzer.

(** JSON text written with apostrophes in place of double quotes. *)
Definition json_text (s : string) : Str.t :=
  map (fun c => if N.eqb c 39 then 34%N else c) (Str.lit s).

(** The scenario of the specification. *)
Definition demo : Str.t :=
  json_text "{'name':'Demo','nodes':[{'id':'1','type':'n8n-nodes-base.httpRequest','parameters':{'url':'http://example.com'}}],'connections':{}}".

(** A document with a name and no [nodes]. *)
Definition name_only : Str.t := json_text "{'name':'Demo'}".

(** A branch of the connection map that is an array. *)
Definition array_branch : Str.t :=
  json_text "{'A':[[[{'node':'B'}]]]}".

(** A code node without [id]. *)
Definition code_node_without_id : Str.t :=
  json_text "{'nodes':[{'type':'n8n-nodes-base.code'}],'connections':{}}".

(** A parameter in which the word password occurs twice. *)
Definition password_twice : Str.t :=
  json_text "{'id':'1','type':'x','parameters':{'a':'password password'}}".

(** A sticky note without [id] and [typeVersion], then a code node. *)
Definition sticky_note_first : Str.t :=
  json_text "{'nodes':[{'type':'n8n-nodes-base.stickyNote'},{'id':'2','type':'n8n-nodes-base.code','typeVersion':2}],'connections':{}}".

(** A node without [type]. *)
Definition node_without_type : Str.t :=
  json_text "{'nodes':[{'id':'1'}],'connections':{}}".

(** The state of the component before the first analysis. *)
Definition initial : State := {| result_ := None; workflowData := Some JNull |}.

End Inputs.

(** ** The claims' vocabulary *)

Module Spec.
Import JS Analyzer.

(** The value of [base.key], [undefined] where the read throws. *)
Definition prop (base : value) (key : Str.t) : value :=
  match get base key with
  | Ok v => v
  | Throw _ => None
  end.

(** [base] has the attribute [key], whatever its value. *)
Definition has (base : value) (key : Str.t) : bool :=
  match prop base key with
  | Some _ => true
  | None => false
  end.

Definition is_object (v : value) : bool :=
  match v with
  | Some (JObj _ _) | Some (JArr _ _) => true
  | _ => false
  end.

(** The classification as the specification words it: a non-null object
    exposing a [nodes], a [connections], a [meta.instanceId] or a [name]
    attribute. *)
Definition exposes_workflow_attribute (data : value) : bool :=
  is_object data &&
  (has data (u"nodes") || has data (u"connections") ||
   has (prop data (u"meta")) (u"instanceId") || has data (u"name")).

(** The classification the code computes: one of the four attributes has
    a truthy value. *)
Definition has_truthy_workflow_attribute (data : value) : bool :=
  truthy data &&
  (truthy (prop data (u"nodes")) || truthy (prop data (u"connections")) ||
   truthy (prop (prop data (u"meta")) (u"instanceId")) ||
   truthy (prop data (u"name"))).

Definition sum (l : list nat) : nat := fold_right plus 0 l.

(** *** Sensitive strings *)

(** The string values of a parameter tree, in the order
    [checkForSensitiveData] meets them. *)
Fixpoint strings_of (j : json) : list Str.t :=
  match j with
  | JStr s => [s]
  | JArr _ xs => flat_map strings_of xs
  | JObj _ props => flat_map (fun kv => strings_of (snd kv)) props
  | _ => []
  end.

(** The patterns of the source that match [text]. *)
Definition matching_patterns (text : Str.t) : list SensitivePattern :=
  filter (fun p => Regex.test (pattern p) text) sensitivePatterns.

(** [node.name || node.id || "Unknown"]. *)
Definition node_name (node : value) : value :=
  or_else (or_else (prop node (u"name")) (prop node (u"id")))
          (Some (JStr (u"Unknown"))).

(** One finding per string value of [node.parameters] and per pattern
    that matches it. *)
Definition sensitive_findings (node nodeName : value) : list SecurityIssue :=
  match prop node (u"parameters") with
  | Some obj =>
    if truthy (Some obj)
    then map (fun p => llm06_issue (type_ p) (prop node (u"id")) nodeName)
             (flat_map matching_patterns (strings_of obj))
    else []
  | None => []
  end.

(** The number of places in [s] where a match of [p] starts. *)
Fixpoint match_starts (ignore_case : bool) (r : Regex.re)
  (prev : option Str.char) (s : Str.t) : nat :=
  (if Regex.matches ignore_case r prev s (fun _ _ => true) then 1 else 0) +
  match s with
  | [] => 0
  | x :: s' => match_starts ignore_case r (Some x) s'
  end.

Definition occurrences (p : Regex.regexp) (s : Str.t) : nat :=
  match_starts (Regex.ignoreCase p) (Regex.source p) None s.

(** The number of findings as the specification words it: one per
    pattern and per occurrence of a match in each string value. *)
Definition findings_per_occurrence (obj : json) : nat :=
  sum (map (fun s => sum (map (fun p => occurrences (pattern p) s)
                              sensitivePatterns))
           (strings_of obj)).

(** The categories of the findings, in the order of [checks]. *)
Definition categories : list Str.t :=
  [type (llm01_issue None None); type (llm02_issue None None);
   type (llm03_issue None None); type (llm04_issue None None);
   type (llm06_issue [] None None); type (llm07_issue None None);
   type (llm08_issue [] None None); type (llm09_issue None None);
   type (llm10_issue None None); type (planning_issue None None);
   type (memory_issue None None); type (credential_issue [] None None);
   type (code_execution_issue None None);
   type (http_request_issue [] None None); type (webhook_issue None None);
   type (social_media_issue None None); type (database_issue None None);
   type (file_system_issue None None)].

(** The findings of [l] in the category [T]. *)
Definition in_category (T : Str.t) (l : list SecurityIssue)
  : list SecurityIssue :=
  filter (fun i => Str.eqb (type i) T) l.

(** *** The messages of the node loop *)

(** The text of [node.name || node.id || index] in a message; empty
    where the conversion throws. *)
Definition label (node : json) (index : nat) : Str.t :=
  match (d <- displayName (Some node) index ;; to_string d) with
  | Ok text => text
  | Throw _ => []
  end.

(** The errors the loop body appends for the node at [index]. *)
Definition node_errors (node : json) (index : nat) : list Str.t :=
  (if truthy (prop (Some node) (u"id")) then []
   else [missing_id_error index]) ++
  (if truthy (prop (Some node) (u"type")) then []
   else [missing_type_error (label node index)]).

(** The warnings the loop body appends for the node at [index]. *)
Definition node_warnings (node : json) (index : nat) : list Str.t :=
  if truthy (prop (Some node) (u"typeVersion")) then []
  else [missing_typeVersion_warning (label node index)].

(** The findings [checkNodeSecurity] appends for a node; none where it
    throws. *)
Definition node_findings (node : json) : list SecurityIssue :=
  match checkNodeSecurity (Some node) [] with
  | Ok added => added
  | Throw _ => []
  end.

(** The nodes with their indices, counted from [i]. *)
Definition indexed (ns : list json) (i : nat) : list (nat * json) :=
  combine (seq i (List.length ns)) ns.

(** The errors about the top-level attributes. *)
Definition structure_errors (data : value) : list Str.t :=
  (if negb (truthy (prop data (u"nodes"))) ||
      negb (isArray (prop data (u"nodes")))
   then [invalid_nodes_error] else []) ++
  (if negb (truthy (prop data (u"connections"))) ||
      negb (Str.eqb (typeof (prop data (u"connections"))) (u"object"))
   then [invalid_connections_error] else []).

(** *** The rule engine *)

(** A step of the engine that only appends to [securityIssues], whatever
    the array holds. *)
Definition appends (c : list SecurityIssue -> result (list SecurityIssue))
  : Prop :=
  forall issues, c issues = bind (c []) (fun added => Ok (issues ++ added)).

(** What the step appends is of the category [T]. *)
Definition adds (T : Str.t)
  (c : list SecurityIssue -> result (list SecurityIssue)) : Prop :=
  forall added, c [] = Ok added -> Forall (fun i => type i = T) added.

(** A check of the catalog: it appends, and what it appends is of one
    category. *)
Definition check_of (T : Str.t)
  (c : value -> value -> list SecurityIssue -> result (list SecurityIssue))
  : Prop :=
  forall node nn, appends (c node nn) /\ adds T (c node nn).

(** The node's [credentials] are absent or falsy, or a mapping none of
    whose entries is [null]. *)
Definition plain_credentials (node : value) : bool :=
  match prop node (u"credentials") with
  | Some (JObj _ creds) =>
    forallb (fun kv => negb (nullish (Some (snd kv)))) creds
  | c => negb (truthy c)
  end.

(** The findings for one string value. *)
Definition findings_in (node nn : value) (text : Str.t) : list SecurityIssue :=
  map (fun p => llm06_issue (type_ p) (prop node (u"id")) nn)
      (matching_patterns text).

(** *** Connections *)

(** The length of an innermost edge array; 0 for anything else. *)
Definition slot_edges (slot : json) : nat :=
  match slot with
  | JArr _ edges => List.length edges
  | _ => 0
  end.

(** The edges under one category: an array of output slots. *)
Definition outputs_edges (outputs : json) : nat :=
  match outputs with
  | JArr _ slots => sum (map slot_edges slots)
  | _ => 0
  end.

(** The values of a mapping; nothing for what is not a mapping. *)
Definition mapping_values (j : json) : list json :=
  match j with
  | JObj _ props => map snd props
  | _ => []
  end.

(** The count as the specification words it: mapping, mapping, array of
    arrays, every branch of another shape counting for 0. *)
Definition edge_total (connections : value) : nat :=
  match connections with
  | Some c =>
    sum (map (fun nodeConnections =>
                sum (map outputs_edges (mapping_values nodeConnections)))
             (mapping_values c))
  | None => 0
  end.

(** The count the code computes: at the two upper levels every value with
    enumerable properties is walked, an array (and at the top a string) as
    well as a mapping. *)
Definition edge_total_walked (connections : value) : nat :=
  match connections with
  | Some c =>
    if truthy connections then
      sum (map (fun nodeConnections =>
                  if is_object (Some nodeConnections)
                  then sum (map outputs_edges (own_values nodeConnections))
                  else 0)
               (own_values c))
    else 0
  | None => 0
  end.

Definition is_array (j : json) : bool := isArray (Some j).

(** A well-formed connection map: a mapping of mappings of arrays of
    arrays. *)
Definition well_formed_connections (c : json) : bool :=
  match c with
  | JObj _ sources =>
    forallb (fun nodeConnections =>
               match nodeConnections with
               | JObj _ categories =>
                 forallb (fun outputs =>
                            match outputs with
                            | JArr _ slots => forallb is_array slots
                            | _ => false
                            end)
                         (map snd categories)
               | _ => false
               end)
            (map snd sources)
  | _ => false
  end.

(** *** Secure nodes *)

Definition node_id (node : json) : value := prop (Some node) (u"id").

(** The node's [type] is a string or an array, so that
    [node.type.includes] is a method. *)
Definition typed (node : json) : bool :=
  match prop (Some node) (u"type") with
  | Some (JStr _) | Some (JArr _ _) => true
  | _ => false
  end.

(** The node is an annotation: its [type] includes [stickyNote]. *)
Definition is_annotation (node : json) : bool :=
  match type_includes (Some node) (u"stickyNote") with
  | Ok b => b
  | Throw _ => false
  end.

(** A finding is associated with a node when its [nodeId] is the node's
    [id]. *)
Definition associated (f : SecurityIssue) (node : json) : bool :=
  same_value_zero (nodeId f) (node_id node).

(** The count as the specification words it. *)
Definition secure_nodes (ns : list json) (findings : list SecurityIssue)
  : nat :=
  List.length
    (filter (fun n => negb (is_annotation n) &&
                      forallb (fun f => negb (associated f n)) findings) ns).

(** The count the code computes: a finding whose [nodeId] is falsy is
    associated with no node. *)
Definition secure_nodes_by_truthy_id (ns : list json)
  (findings : list SecurityIssue) : nat :=
  List.length
    (filter (fun n => negb (is_annotation n) &&
                      forallb (fun f => negb (truthy (nodeId f) &&
                                               associated f n)) findings) ns).

End Spec.

(** ** More of the language: string methods and objects the code builds *)

Module StrMethods.

(** [s.endsWith(suffix)]. *)
Definition ends_with (s suffix : Str.t) : bool :=
  Str.prefix (rev suffix) (rev s).

(** [s.split(sep)] for a separator of one code unit: the runs between the
    separators, always at least one (the whole of [s] when it holds no
    separator, the empty string for the empty [s]). *)
Fixpoint split (sep : Str.char) (s : Str.t) : list Str.t :=
  match s with
  | [] => [[]]
  | c :: s' =>
    if N.eqb c sep then [] :: split sep s'
    else match split sep s' with
         | seg :: segs => (c :: seg) :: segs
         | [] => [[c]]
         end
  end.

(** [s.split(sep).pop()] and [parts[parts.length - 1]]: the last run. *)
Definition last_part (sep : Str.char) (s : Str.t) : Str.t :=
  last (split sep s) [].

(** [s.replace(pattern, "")] for a string [pattern]: [s] without the first
    occurrence of [pattern]. *)
Fixpoint remove_first (pattern s : Str.t) : Str.t :=
  match JSONParser.strip_prefix pattern s with
  | Some rest => rest
  | None =>
    match s with
    | [] => []
    | c :: s' => c :: remove_first pattern s'
    end
  end.

End StrMethods.

(** An object the code creates with [{}] or [Object.fromEntries]: its own
    properties in enumeration order, and [Object.prototype] behind them. *)
Module Obj.
Import JS.

Definition t (A : Type) : Type := list (Str.t * A).

(** The property names of [Object.prototype] (ECMA-262 20.1.3 and B.2.2):
    methods, but for [__proto__], an accessor that answers with
    [Object.prototype] itself. *)
Definition prototype_keys : list Str.t :=
  [u"constructor"; u"hasOwnProperty"; u"isPrototypeOf";
   u"propertyIsEnumerable"; u"toLocaleString"; u"toString"; u"valueOf";
   u"__proto__"; u"__defineGetter__"; u"__defineSetter__";
   u"__lookupGetter__"; u"__lookupSetter__"].

Definition inherited (k : Str.t) : bool := existsb (Str.eqb k) prototype_keys.

Fixpoint own {A} (o : t A) (k : Str.t) : option A :=
  match o with
  | [] => None
  | (k', a) :: rest => if Str.eqb k k' then Some a else own rest k
  end.

(** What [o[k]] finds. *)
Inductive slot (A : Type) : Type :=
| Own (a : A)        (* an own property *)
| Inherited          (* a built-in of [Object.prototype]: a truthy value *)
| Absent.            (* [undefined] *)
Arguments Own {A} a.
Arguments Inherited {A}.
Arguments Absent {A}.

Definition get {A} (o : t A) (k : Str.t) : slot A :=
  match own o k with
  | Some a => Own a
  | None => if inherited k then Inherited else Absent
  end.

(** CreateDataProperty, and [o[k] = a] where [k] is not inherited: a key
    already present keeps its place; a new array-index key goes among the
    index keys in ascending order, before every other key; any other new
    key goes last. *)
Fixpoint replace {A} (k : Str.t) (a : A) (o : t A) : t A :=
  match o with
  | [] => []
  | (k', a') :: rest =>
    if Str.eqb k k' then (k', a) :: rest else (k', a') :: replace k a rest
  end.

Fixpoint insert_index {A} (i : N) (k : Str.t) (a : A) (o : t A) : t A :=
  match o with
  | [] => [(k, a)]
  | (k', a') :: rest =>
    match array_index k' with
    | Some j => if (j <? i)%N then (k', a') :: insert_index i k a rest
                else (k, a) :: o
    | None => (k, a) :: o
    end
  end.

Definition define {A} (o : t A) (k : Str.t) (a : A) : t A :=
  match own o k with
  | Some _ => replace k a o
  | None =>
    match array_index k with
    | Some i => insert_index i k a o
    | None => o ++ [(k, a)]
    end
  end.

End Obj.

(** ** File upload and drop: [src/app/page.tsx] *)

Module Upload.
Import JS Analyzer.

(** A [File] as the handlers see it: its MIME type, its name, and what
    [FileReader.readAsText] delivers ([None] when the read fails). *)
Record File : Type := {
  file_type : Str.t;
  file_name : Str.t;
  file_text : option Str.t
}.

(** The component state the handlers write: [jsonInput], and [result] and
    [workflowData] as in [analyzeJson]. The flags [isAnalyzing] and
    [isDragOver] only drive the display and are left out. *)
Record Page : Type := {
  jsonInput : Str.t;
  analysis : State
}.

Definition setResult (r : ValidationResult) (p : Page) : Page :=
  {| jsonInput := jsonInput p;
     analysis := {| result_ := Some r;
                    workflowData := workflowData (analysis p) |} |}.

(** [analyzeJson] reads [jsonInput] from the component state. *)
Definition analyze (error_message : js_error -> Str.t) (p : Page) : Page :=
  {| jsonInput := jsonInput p;
     analysis := analyzeJson error_message (jsonInput p) (analysis p) |}.

Section Host.

Variable error_message : js_error -> Str.t.

(** [processFile]: the state once the reader has called back and the timer
    of [reader.onload] has fired. *)
Definition processFile (file : File) (p : Page) : Page :=
  if negb (Str.includes (file_type file) (u"json")) &&
     negb (StrMethods.ends_with (file_name file) (u".json"))
  then setResult (failure (u"Please upload a JSON file")) p
  else
    match file_text file with
    | Some content =>
      (* reader.onload *)
      {| jsonInput := content;
         analysis :=
           match (parsed <- JSONParser.parse content ;;
                  validation <- validateN8nWorkflow (Some parsed) ;;
                  Ok (parsed, validation)) with
           | Ok (parsed, validation) =>
             {| result_ := Some validation; workflowData := Some parsed |}
           | Throw error =>
             {| result_ := Some (failure (u"Invalid JSON format: " ++
                                          error_message error));
                workflowData := Some JNull |}
           end |}
    | None =>
      (* reader.onerror *)
      setResult (failure (u"Failed to read file")) p
    end.

(** [handleFileUpload]: [files] is [event.target.files], [None] for
    [null]. *)
Definition handleFileUpload (files : option (list File)) (p : Page) : Page :=
  match files with
  | Some (file :: _) => processFile file p
  | _ => p
  end.

(** [handleDrop]: [files] is [Array.from(e.dataTransfer.files)]. *)
Definition handleDrop (files : list File) (p : Page) : Page :=
  match find (fun file => Str.includes (file_type file) (u"json") ||
                          StrMethods.ends_with (file_name file) (u".json"))
             files with
  | Some jsonFile => processFile jsonFile p
  | None => setResult (failure (u"Please drop a JSON file")) p
  end.

End Host.

(** What the page hands to [WorkflowVisualization], when it renders it:
    [workflowData && result && <WorkflowVisualization workflowData=...
    securityIssues={result?.securityIssues || []} />]. *)
Definition visualizationProps (st : State)
  : option (value * list SecurityIssue) :=
  if truthy (workflowData st) then
    match result_ st with
    | Some r => Some (workflowData st, securityIssues r)
    | None => None
    end
  else None.

End Upload.

(** ** The report: more of [src/components/report-generator.tsx] *)

Module Report.
Import JS Analyzer.

(** [i.severity === s]. *)
Definition severity_eqb (a b : Severity) : bool :=
  match a, b with
  | high, high | medium, medium | low, low => true
  | _, _ => false
  end.

(** [result.securityIssues.filter((i) => i.severity === s).length]. *)
Definition countSeverity (s : Severity) (securityIssues : list SecurityIssue)
  : nat :=
  List.length (filter (fun i => severity_eqb (severity i) s) securityIssues).

Definition highIssues := countSeverity high.
Definition mediumIssues := countSeverity medium.
Definition lowIssues := countSeverity low.

(** Group issues by node: the [reduce] over [result.securityIssues] (the
    same code groups the findings on the page). The key is
    [issue.nodeName || "Unknown Node"] converted to a property key. Where
    [acc[nodeKey]] is a built-in of [Object.prototype] no array is stored,
    and [acc[nodeKey].push] is not a function. *)
Definition issuesByNode (securityIssues : list SecurityIssue)
  : result (Obj.t (list SecurityIssue)) :=
  for_each
    (fun issue acc =>
       let nodeKey := or_else (nodeName issue) (Some (JStr (u"Unknown Node"))) in
       key <- to_string nodeKey ;;
       match Obj.get acc key with
       | Obj.Own group => Ok (Obj.define acc key (push group issue))
       | Obj.Inherited => Throw (TypeError_not_a_function None (u"push"))
       | Obj.Absent => Ok (Obj.define acc key [issue])
       end)
    securityIssues [].

(** [Object.keys(issuesByNode).length > 0]: the section "Security Issues
    by Node" is part of the report. *)
Definition hasIssuesSection (groups : Obj.t (list SecurityIssue)) : bool :=
  0 <? List.length (map fst groups).

(** [nodeType.split(".")], then the last part. Only a string has
    [split]. *)
Definition lastPart (nodeType : value) : result value :=
  match nodeType with
  | None | Some JNull => Throw (TypeError_read_property nodeType (u"split"))
  | Some (JStr s) => Ok (Some (JStr (StrMethods.last_part 46%N s)))
  | _ => Throw (TypeError_not_a_function nodeType (u"split"))
  end.

(** Extract readable node type name. *)
Definition readableType (node : json) : result value :=
  t <- get (Some node) (u"type") ;;
  let nodeType := or_else t (Some (JStr (u"Unknown"))) in
  dotted <- call_includes nodeType (u".") ;;
  if dotted then lastPart nodeType else Ok nodeType.

Fixpoint map_m {A B} (f : A -> result B) (xs : list A) : result (list B) :=
  match xs with
  | [] => Ok []
  | x :: xs' => b <- f x ;; bs <- map_m f xs' ;; Ok (b :: bs)
  end.

(** [[...new Set(xs)]]: the first occurrence of each value, in order. *)
Fixpoint unique (xs : list value) (seen : list value) : list value :=
  match xs with
  | [] => []
  | x :: xs' =>
    if existsb (fun e => same_value_zero e x) seen then unique xs' seen
    else x :: unique xs' (seen ++ [x])
  end.

(** [nodeTypes]. *)
Definition nodeTypes (workflowData : value) : result (list value) :=
  nodes_ <- get_opt workflowData (u"nodes") ;;
  if truthy nodes_ then
    actual <- call_filter nodes_ notStickyNote ;;
    names <- map_m readableType actual ;;
    Ok (unique (filter truthy names) [])
  else Ok [].

(** The category of a node type: the first rule that applies. *)
Definition categoryOf (nodeType : value) : result Str.t :=
  let has := call_includes nodeType in
  c <- has (u"trigger") ||| has (u"webhook") ;;
  if c then Ok (u"Triggers") else
  c <- has (u"lmChat") ||| has (u"openai") ||| has (u"gemini") ;;
  if c then Ok (u"AI/LLM") else
  c <- has (u"http") ||| has (u"api") ;;
  if c then Ok (u"HTTP/API") else
  c <- has (u"database") ||| has (u"postgres") ||| has (u"mysql") ;;
  if c then Ok (u"Database") else
  c <- has (u"code") ||| has (u"function") ;;
  if c then Ok (u"Code Execution") else
  c <- has (u"email") ||| has (u"gmail") ;;
  if c then Ok (u"Communication") else
  c <- has (u"schedule") ||| has (u"cron") ;;
  if c then Ok (u"Scheduling") else
  c <- has (u"set") ||| has (u"edit") ;;
  if c then Ok (u"Data Processing") else
  Ok (u"Other").

(** [acc[category] = (acc[category] || 0) + 1]. No category is a property
    name of [Object.prototype], so [acc[category]] is a count or
    [undefined]. *)
Definition countCategory (category : Str.t) (acc : Obj.t nat) : Obj.t nat :=
  match Obj.get acc category with
  | Obj.Own n => Obj.define acc category (n + 1)
  | _ => Obj.define acc category 1
  end.

(** [nodeCategories]. *)
Definition nodeCategories (workflowData : value) : result (Obj.t nat) :=
  nodes_ <- get_opt workflowData (u"nodes") ;;
  if truthy nodes_ then
    actual <- call_filter nodes_ notStickyNote ;;
    for_each
      (fun node acc =>
         t <- get (Some node) (u"type") ;;
         let nodeType := or_else t (Some (JStr (u"unknown"))) in
         category <- categoryOf nodeType ;;
         Ok (countCategory category acc))
      actual []
  else Ok [].

(** What the component renders: nothing unless the result is that of a
    workflow, and otherwise the summary with [calculateSecureNodes()]. *)
Definition summary (result : option ValidationResult) (workflowData : value)
  : option (JS.result nat) :=
  match result with
  | Some r =>
    if isN8nWorkflow r
    then Some (ReportGenerator.calculateSecureNodes workflowData r)
    else None
  | None => None
  end.

End Report.

(** ** The workflow graph: [WorkflowVisualization] *)

Module Visualization.
Import JS Analyzer.

(** [getNodeIcon]: the icon components by name. *)
Inductive Icon : Type :=
| Play | MessageSquare | Bot | Zap | Brain | Calendar | Globe | Code
| Settings | Database | Mail | FileText.

Definition getNodeIcon (nodeType : value) : result Icon :=
  let has := call_includes nodeType in
  (* Trigger nodes *)
  c <- has (u"trigger") ||| has (u"webhook") ||| has (u"form") ;;
  if c then Ok Play else
  c <- has (u"chat") &&& has (u"trigger") ;;
  if c then Ok MessageSquare else
  (* AI and LangChain nodes *)
  c <- has (u"agent") ;;
  if c then Ok Bot else
  c <- has (u"lmChat") ||| has (u"openai") ||| has (u"gemini") ;;
  if c then Ok Zap else
  c <- has (u"memory") ||| has (u"buffer") ;;
  if c then Ok Brain else
  c <- has (u"tool") &&& has (u"calendar") ;;
  if c then Ok Calendar else
  c <- has (u"langchain") ;;
  if c then Ok Brain else
  (* HTTP and API nodes *)
  c <- has (u"http") ||| has (u"webhook") ;;
  if c then Ok Globe else
  c <- has (u"linkedin") ;;
  if c then Ok MessageSquare else
  (* Data processing nodes *)
  c <- has (u"code") ||| has (u"function") ;;
  if c then Ok Code else
  c <- has (u"set") ||| has (u"edit") ;;
  if c then Ok Settings else
  (* Database nodes *)
  c <- has (u"database") ||| has (u"postgres") ||| has (u"mysql") ;;
  if c then Ok Database else
  (* Communication nodes *)
  c <- has (u"email") ||| has (u"gmail") ;;
  if c then Ok Mail else
  (* Scheduling nodes *)
  c <- has (u"schedule") ||| has (u"cron") ;;
  if c then Ok Calendar else
  (* Google services *)
  c <- has (u"google") &&& has (u"calendar") ;;
  if c then Ok Calendar else
  (* Sticky notes and documentation *)
  c <- has (u"sticky") ;;
  if c then Ok FileText else
  Ok FileText.

(** ["safe" | "high" | "medium" | "low"]. *)
Inductive SecurityLevel : Type := Safe | High | Medium | Low.

Definition getNodeSecurityLevel (securityIssues : list SecurityIssue)
  (nodeId_ : value) : SecurityLevel :=
  let nodeIssues :=
    filter (fun issue => strict_equal (nodeId issue) nodeId_) securityIssues in
  match nodeIssues with
  | [] => Safe
  | _ =>
    let hasHigh :=
      existsb (fun issue => Report.severity_eqb (severity issue) high)
              nodeIssues in
    let hasMedium :=
      existsb (fun issue => Report.severity_eqb (severity issue) medium)
              nodeIssues in
    if hasHigh then High else if hasMedium then Medium else Low
  end.

(** A coordinate of a node: what the document gives in [position], or
    the number the fallback grid computes (an integer, exact in binary64
    for every index an array can have). *)
Inductive coordinate : Type :=
| Given (v : value)
| Grid (n : nat).

(** [type: isSticky ? "sticky" : "custom"]. *)
Inductive NodeKind : Type := sticky | custom.

(** [data] of a processed node. *)
Inductive NodeData : Type :=
| StickyData (label : value)
| CustomData (label : value) (type_ : value) (securityLevel : SecurityLevel)
             (issues : list SecurityIssue) (issueCount : nat).

(** The fields of a processed node that depend on the document; the
    handle positions and the colours of a sticky note are constants. *)
Record ProcessedNode : Type := {
  pn_id : value;
  pn_type : NodeKind;
  pn_position : coordinate * coordinate;
  pn_data : NodeData;
  pn_size : option (value * value)      (* [style.width], [style.height] *)
}.

(** [node.position && Array.isArray(node.position) &&
    node.position.length >= 2], then [position[0]] and [position[1]];
    otherwise the fallback grid layout. *)
Definition positionOf (node : json) (index : nat)
  : result (coordinate * coordinate) :=
  position <- get (Some node) (u"position") ;;
  match position with
  | Some (JArr _ (x :: y :: _)) => Ok (Given (Some x), Given (Some y))
  | _ => Ok (Grid ((index mod 6) * 200 + 100),
             Grid ((index / 6) * 150 + 100))
  end.

(** The callback of [workflowData.nodes.map((node, index) => ...)]. *)
Definition processNode (securityIssues : list SecurityIssue)
  (node : json) (index : nat) : result ProcessedNode :=
  id <- get (Some node) (u"id") ;;
  let securityLevel := getNodeSecurityLevel securityIssues id in
  let nodeIssues :=
    filter (fun issue => strict_equal (nodeId issue) id) securityIssues in
  (* Use existing position if available, otherwise create a better layout *)
  position <- positionOf node index ;;
  (* Special handling for sticky notes *)
  isSticky <- type_includes (Some node) (u"stickyNote") ;;
  if isSticky then
    label <- or_v (or_v (parameter (Some node) (u"content"))
                        (get (Some node) (u"name")))
                  (Ok (Some (JStr (u"Note")))) ;;
    width <- or_v (parameter (Some node) (u"width"))
                  (Ok (Some (JNum (Num.of_nat 200)))) ;;
    height <- or_v (parameter (Some node) (u"height"))
                   (Ok (Some (JNum (Num.of_nat 100)))) ;;
    Ok {| pn_id := id; pn_type := sticky; pn_position := position;
          pn_data := StickyData label; pn_size := Some (width, height) |}
  else
    label <- or_v (or_v (get (Some node) (u"name"))
                        (t <- get (Some node) (u"type") ;; Report.lastPart t))
                  (Ok (Some (JStr (u"Unknown")))) ;;
    t <- get (Some node) (u"type") ;;
    Ok {| pn_id := id; pn_type := custom; pn_position := position;
          pn_data := CustomData label t securityLevel nodeIssues
                                (List.length nodeIssues);
          pn_size := None |}.

Fixpoint map_indexed {A B} (f : A -> nat -> result B) (xs : list A) (i : nat)
  : result (list B) :=
  match xs with
  | [] => Ok []
  | x :: xs' => b <- f x i ;; bs <- map_indexed f xs' (S i) ;; Ok (b :: bs)
  end.

(** What [nodeNameToIdMap[k]] evaluates to: a value of the document, or
    a built-in of [Object.prototype]. *)
Inductive Ident : Type :=
| Doc (v : value)
| Builtin (k : Str.t).

Definition lookupId (nodeNameToIdMap : Obj.t value) (k : Str.t) : Ident :=
  match Obj.get nodeNameToIdMap k with
  | Obj.Own v => Doc v
  | Obj.Inherited => Builtin k
  | Obj.Absent => Doc None
  end.

Definition truthyId (i : Ident) : bool :=
  match i with
  | Doc v => truthy v
  | Builtin _ => true
  end.

(** [n.id === i]: no node of the document has a built-in for [id]. *)
Definition hasId (i : Ident) (n : ProcessedNode) : bool :=
  match i with
  | Doc v => strict_equal (pn_id n) v
  | Builtin _ => false
  end.

(** [node?.data.securityLevel]: [None] is [undefined]. *)
Definition levelOf (n : option ProcessedNode) : option SecurityLevel :=
  match n with
  | Some {| pn_data := CustomData _ _ securityLevel _ _ |} => Some securityLevel
  | _ => None
  end.

Definition isLevel (l : SecurityLevel) (o : option SecurityLevel) : bool :=
  match o, l with
  | Some Safe, Safe | Some High, High | Some Medium, Medium
  | Some Low, Low => true
  | _, _ => false
  end.

(** [strokeWidth]: 2, 2.5 or 3. *)
Inductive Width : Type := W2 | W2_5 | W3.

(** An edge of the graph. [markerEnd.color] is [stroke] again, and
    [type] and [markerEnd.type] are constants. *)
Record Edge : Type := {
  e_id : Str.t;
  e_source : Ident;
  e_target : Ident;
  e_stroke : Str.t;
  e_strokeWidth : Width;
  e_strokeDasharray : option Str.t;
  e_animated : bool;
  e_label : option Str.t
}.

Section Host.

(** The text of [Function.prototype.toString] for the built-in of
    [Object.prototype] under a key, and [Date.now()]. *)
Variable function_text : Str.t -> Str.t.
Variable now : N.

Definition identText (i : Ident) : result Str.t :=
  match i with
  | Doc v => to_string v
  | Builtin k =>
    Ok (if Str.eqb k (u"__proto__") then u"[object Object]"
        else function_text k)
  end.

(** [Object.fromEntries(pairs)]. *)
Definition fromEntries (pairs : list (value * value))
  : result (Obj.t value) :=
  for_each (fun kv acc => key <- to_string (fst kv) ;;
                          Ok (Obj.define acc key (snd kv)))
           pairs [].

(** The body of the innermost [forEach], for a connection that is truthy
    and has a truthy [node]. The first statement logs a template literal
    with the source id and [connection.node], which converts both. *)
Definition makeEdge (nodeNameToIdMap : Obj.t value)
  (processedNodes : list ProcessedNode) (sourceNodeId : Ident)
  (connectionType : Str.t) (outputIndex connectionIndex : nat)
  (target : value) : result Edge :=
  (* the texts the log line and the edge id are built from *)
  sourceText <- identText sourceNodeId ;;
  targetText <- to_string target ;;
  let sourceNode := find (hasId sourceNodeId) processedNodes in
  let targetNodeId :=
    let found := lookupId nodeNameToIdMap targetText in
    if truthyId found then found else Doc target in
  let targetNode := find (hasId targetNodeId) processedNodes in
  (* Security-based styling *)
  let '(edgeColor, strokeWidth, animated) :=
    if isLevel High (levelOf sourceNode) || isLevel High (levelOf targetNode)
    then (u"#ef4444", W3, true)
    else if isLevel Medium (levelOf sourceNode) ||
            isLevel Medium (levelOf targetNode)
    then (u"#f59e0b", W2_5, false)
    else (u"#64748b", W2, false) in
  (* Connection type styling *)
  let '(edgeColor, strokeDasharray) :=
    if Str.eqb connectionType (u"ai_tool")
    then (u"#8b5cf6", Some (u"5,5"))
    else if Str.eqb connectionType (u"ai_languageModel")
    then (u"#06b6d4", Some (u"10,5"))
    else if Str.eqb connectionType (u"ai_memory")
    then (u"#10b981", Some (u"15,5"))
    else (edgeColor, None) in
  Ok {| e_id := sourceText ++ u"-" ++ targetText ++ u"-" ++ connectionType ++
                u"-" ++ Str.of_nat outputIndex ++ u"-" ++
                Str.of_nat connectionIndex;
        e_source := sourceNodeId;
        e_target := targetNodeId;
        e_stroke := edgeColor;
        e_strokeWidth := strokeWidth;
        e_strokeDasharray := strokeDasharray;
        e_animated := animated;
        e_label := if Str.eqb connectionType (u"main") then None
                   else Some (StrMethods.remove_first (u"ai_") connectionType) |}.

(** [outputArray.forEach((connection, connectionIndex) => ...)]. *)
Definition edgesOfOutput (nodeNameToIdMap : Obj.t value)
  (processedNodes : list ProcessedNode) (sourceNodeId : Ident)
  (connectionType : Str.t) (outputArray : json) (outputIndex : nat)
  (processedEdges : list Edge) : result (list Edge) :=
  match outputArray with
  | JArr _ connections_ =>
    for_each_indexed
      (fun connection connectionIndex processedEdges =>
         if truthy (Some connection) then
           target <- get (Some connection) (u"node") ;;
           if truthy target then
             edge <- makeEdge nodeNameToIdMap processedNodes sourceNodeId
                              connectionType outputIndex connectionIndex
                              target ;;
             Ok (push processedEdges edge)
           else Ok processedEdges
         else Ok processedEdges)
      connections_ 0 processedEdges
  | _ => Ok processedEdges
  end.

(** The callback over the entries of [sourceConnections]. *)
Definition edgesOfType (nodeNameToIdMap : Obj.t value)
  (processedNodes : list ProcessedNode) (sourceNodeId : Ident)
  (entry : Str.t * json) (processedEdges : list Edge) : result (list Edge) :=
  let '(connectionType, connectionData) := entry in
  match connectionData with
  | JArr _ outputs =>
    for_each_indexed
      (edgesOfOutput nodeNameToIdMap processedNodes sourceNodeId connectionType)
      outputs 0 processedEdges
  | _ => Ok processedEdges
  end.

(** The callback over the entries of [workflowData.connections]. *)
Definition edgesOfSource (nodeNameToIdMap : Obj.t value)
  (processedNodes : list ProcessedNode) (entry : Str.t * json)
  (processedEdges : list Edge) : result (list Edge) :=
  let '(sourceNodeName, sourceConnections) := entry in
  let sourceNodeId := lookupId nodeNameToIdMap sourceNodeName in
  if negb (truthyId sourceNodeId) then Ok processedEdges
  else
    (* the log line converts the source id *)
    logged <- identText sourceNodeId ;;
    if truthy (Some sourceConnections) &&
       Str.eqb (typeof (Some sourceConnections)) (u"object")
    then for_each (edgesOfType nodeNameToIdMap processedNodes sourceNodeId)
                  (own_entries sourceConnections) processedEdges
    else Ok processedEdges.

Record Graph : Type := {
  processedNodes : list ProcessedNode;
  processedEdges : list Edge;
  workflowKey : Str.t
}.

(** The computation under [useMemo]. *)
Definition processWorkflow (workflowData : value)
  (securityIssues : list SecurityIssue) : result Graph :=
  nodes_ <- get workflowData (u"nodes") ;;
  pairs <- match nodes_ with
           | None | Some JNull =>
             Throw (TypeError_read_property nodes_ (u"map"))
           | Some (JArr _ elems) =>
             Report.map_m (fun node => name_ <- get (Some node) (u"name") ;;
                                       id <- get (Some node) (u"id") ;;
                                       Ok (name_, id))
                          elems
           | _ => Throw (TypeError_not_a_function nodes_ (u"map"))
           end ;;
  nodeNameToIdMap <- fromEntries pairs ;;
  nodes_ <- get_opt workflowData (u"nodes") ;;
  if negb (truthy nodes_)
  then Ok {| processedNodes := []; processedEdges := [];
             workflowKey := u"empty" |}
  else
    (* Create nodes *)
    processedNodes <-
      match nodes_ with
      | Some (JArr _ elems) => map_indexed (processNode securityIssues) elems 0
      | _ => Throw (TypeError_not_a_function nodes_ (u"map"))
      end ;;
    (* Create edges - handle ALL connection types *)
    connections_ <- get workflowData (u"connections") ;;
    processedEdges <-
      match connections_ with
      | Some c =>
        if truthy connections_ && Str.eqb (typeof connections_) (u"object")
        then for_each (edgesOfSource nodeNameToIdMap processedNodes)
                      (own_entries c) []
        else Ok []
      | None => Ok []
      end ;;
    (* Create a unique key based on workflow content to force re-mount *)
    name_ <- or_v (get workflowData (u"name"))
                  (Ok (Some (JStr (u"unnamed")))) ;;
    nameText <- to_string name_ ;;
    Ok {| processedNodes := processedNodes;
          processedEdges := processedEdges;
          workflowKey := u"workflow-" ++ nameText ++ u"-" ++
                         Str.of_nat (List.length processedNodes) ++ u"-" ++
                         Str.of_nat (List.length processedEdges) ++ u"-" ++
                         Str.of_N now |}.

End Host.

(** Filter out sticky nodes, exclude it from count:
    [processedNodes.filter((node) => !node.type.includes("sticky"))]. *)
Definition workflowNodes (processedNodes : list ProcessedNode)
  : list ProcessedNode :=
  filter (fun node => match pn_type node with
                      | sticky => false
                      | custom => true
                      end) processedNodes.

(** [processedNodes.filter((n) => n.data.securityLevel === "safe")],
    the nodes counted as "Secure" in the header. *)
Definition secureShown (processedNodes : list ProcessedNode)
  : list ProcessedNode :=
  filter (fun n => isLevel Safe (levelOf (Some n))) processedNodes.

End Visualization.
(** ** Closed forms of what the code computes *)

Module Facts.
Import JS Analyzer.

(** The text of a value in a template literal; empty where the
    conversion throws. *)
Definition text_of (v : value) : Str.t :=
  match to_string v with
  | Ok text => text
  | Throw _ => []
  end.

(** The lines [validateN8nWorkflow] writes to [info] for [data.meta]. *)
Definition metadata_lines (data : value) : list Str.t :=
  let meta := Spec.prop data (u"meta") in
  if truthy meta then
    (if truthy (Spec.prop meta (u"instanceId"))
     then [u"Workflow from instance: " ++
           text_of (Spec.prop meta (u"instanceId"))]
     else []) ++
    (if truthy (Spec.prop meta (u"templateCredsSetupCompleted"))
     then [u"Template credentials setup completed"]
     else [])
  else [].

(** A node is complete: its [id] and its [type] are truthy. *)
Definition complete (node : json) : bool :=
  truthy (Spec.prop (Some node) (u"id")) &&
  truthy (Spec.prop (Some node) (u"type")).

(** The findings of the credential check: one for each key of
    [node.credentials], in order, whose entry has a truthy [id]. *)
Definition credential_findings (node nodeName : value) : list SecurityIssue :=
  match Spec.prop node (u"credentials") with
  | Some creds =>
    if truthy (Some creds) then
      map (fun credType =>
             credential_issue credType (Spec.prop node (u"id")) nodeName)
          (filter (fun credType =>
                     truthy (Spec.prop (Spec.prop (Some creds) credType)
                                       (u"id")))
                  (map fst (own_entries creds)))
    else []
  | None => []
  end.

(** The finding of the HTTP request check: for a node of type
    [n8n-nodes-base.httpRequest] whose [parameters.url] is a string
    holding [http://] or [https://]. *)
Definition http_findings (node nodeName : value) : list SecurityIssue :=
  if strict_equal (Spec.prop node (u"type"))
                  (Some (JStr (u"n8n-nodes-base.httpRequest")))
  then
    match Spec.prop (Spec.prop node (u"parameters")) (u"url") with
    | Some (JStr url) =>
      if Str.includes url (u"http://") || Str.includes url (u"https://")
      then [http_request_issue url (Spec.prop node (u"id")) nodeName]
      else []
    | _ => []
    end
  else [].

(** A finding is attributed to [node]: it carries the node's [id] and
    the name the engine gives the node. *)
Definition attributed (node : value) (i : SecurityIssue) : Prop :=
  nodeId i = Spec.prop node (u"id") /\ nodeName i = Spec.node_name node.

(** No two members of [l] are the same string. *)
Fixpoint distinct (l : list Str.t) : bool :=
  match l with
  | [] => true
  | x :: rest => negb (existsb (Str.eqb x) rest) && distinct rest
  end.

(** The state after a file has passed the type test of [processFile]:
    what the callbacks of the reader leave. *)
Definition after_read (error_message : js_error -> Str.t)
  (file : Upload.File) (p : Upload.Page) : Upload.Page :=
  match Upload.file_text file with
  | Some content =>
    {| Upload.jsonInput := content;
       Upload.analysis :=
         match (parsed <- JSONParser.parse content ;;
                validation <- validateN8nWorkflow (Some parsed) ;;
                Ok (parsed, validation)) with
         | Ok (parsed, validation) =>
           {| result_ := Some validation; workflowData := Some parsed |}
         | Throw error =>
           {| result_ := Some (failure (u"Invalid JSON format: " ++
                                        error_message error));
              workflowData := Some JNull |}
         end |}
  | None => Upload.setResult (failure (u"Failed to read file")) p
  end.

(** The file passes for JSON by its MIME type or by its name. *)
Definition named_json (file : Upload.File) : bool :=
  Str.includes (Upload.file_type file) (u"json") ||
  StrMethods.ends_with (Upload.file_name file) (u".json").

(** The key under which the report groups a finding. *)
Definition group_key (i : SecurityIssue) : Str.t :=
  text_of (or_else (nodeName i) (Some (JStr (u"Unknown Node")))).

(** The findings of [l] grouped under [k], in the order of [l]; [None]
    when there is none. *)
Definition group (k : Str.t) (l : list SecurityIssue)
  : option (list SecurityIssue) :=
  match filter (fun i => Str.eqb (group_key i) k) l with
  | [] => None
  | g => Some g
  end.

(** What holds of the accumulator of [issuesByNode] once the findings
    [done] have been folded in: the keys are distinct, each key holds the
    findings grouped under it, and the key of every finding was converted
    and is no property name of [Object.prototype]. *)
Definition grouped (acc : Obj.t (list SecurityIssue))
  (done : list SecurityIssue) : Prop :=
  NoDup (map fst acc) /\
  (forall k, Obj.own acc k = group k done) /\
  Forall (fun i => to_string (or_else (nodeName i)
                                      (Some (JStr (u"Unknown Node"))))
                   = Ok (group_key i) /\
                   Obj.inherited (group_key i) = false) done.

(** No two members of [l] are the same value for a [Set]. *)
Definition distinct_values (l : list value) : Prop :=
  ForallOrdPairs (fun a b => same_value_zero a b = false) l.

(** The node has a finding in the eyes of the graph: some finding has a
    [nodeId] that is [===] the node's [id]. *)
Definition flagged (issues : list SecurityIssue) (node : json) : bool :=
  existsb (fun issue => strict_equal (nodeId issue) (Spec.node_id node)) issues.

(** The nodes the graph shows as secure: not sticky notes, and not
    flagged. *)
Definition shown_secure (ns : list json) (issues : list SecurityIssue)
  : list json :=
  filter (fun n => negb (Spec.is_annotation n) && negb (flagged issues n)) ns.

(** Every node that is not a sticky note has a truthy [id]. *)
Definition identified (ns : list json) : bool :=
  forallb (fun n => Spec.is_annotation n || truthy (Spec.node_id n)) ns.

(** [node.type.includes(s)], [false] where the call throws. *)
Definition type_has (node : value) (s : Str.t) : bool :=
  match type_includes node s with
  | Ok b => b
  | Throw _ => false
  end.

(** The finding of the webhook check. *)
Definition webhook_findings (node nodeName : value) : list SecurityIssue :=
  if type_has node (u"webhook") ||
     ((type_has node (u"trigger") || type_has node (u"form")) &&
      truthy (Spec.prop node (u"webhookId")))
  then [webhook_issue (Spec.prop node (u"id")) nodeName]
  else [].

(** The connection types with a colour of their own. *)
Definition ai_connection (connectionType : Str.t) : bool :=
  Str.eqb connectionType (u"ai_tool") ||
  Str.eqb connectionType (u"ai_languageModel") ||
  Str.eqb connectionType (u"ai_memory").

(** One of the end nodes of the edge, as found among the nodes of the
    graph by the edge's [source] and [target], is of the given security
    level. *)
Definition end_level (l : Visualization.SecurityLevel)
  (nodes : list Visualization.ProcessedNode) (e : Visualization.Edge)
  : bool :=
  Visualization.isLevel l
    (Visualization.levelOf
       (find (Visualization.hasId (Visualization.e_source e)) nodes)) ||
  Visualization.isLevel l
    (Visualization.levelOf
       (find (Visualization.hasId (Visualization.e_target e)) nodes)).

(** The colour and the width that show the security level of the end
    nodes of an edge. *)
Definition security_colour (nodes : list Visualization.ProcessedNode)
  (e : Visualization.Edge) : Str.t :=
  if end_level Visualization.High nodes e then u"#ef4444"
  else if end_level Visualization.Medium nodes e then u"#f59e0b"
  else u"#64748b".

Definition security_width (nodes : list Visualization.ProcessedNode)
  (e : Visualization.Edge) : Visualization.Width :=
  if end_level Visualization.High nodes e then Visualization.W3
  else if end_level Visualization.Medium nodes e then Visualization.W2_5
  else Visualization.W2.

(** The value converts to a string without throwing. *)
Definition printable (v : value) : bool := is_ok (to_string v).

(** A node on which the validator cannot throw: an object whose [type]
    is a string, whose [name] and [id] convert to strings, whose
    [parameters.tools] is no plain object, and whose [credentials] hold no
    [null] entry. *)
Definition regular (node : json) : bool :=
  match node with
  | JObj _ props =>
    match lookup (u"type") props with
    | Some (JStr _) =>
      printable (lookup (u"name") props) &&
      printable (lookup (u"id") props) &&
      match Spec.prop (lookup (u"parameters") props) (u"tools") with
      | Some (JObj _ _) => false
      | _ => true
      end &&
      Spec.plain_credentials (Some node)
    | _ => false
    end
  | _ => false
  end.

(** Every value of [nodeNameToIdMap] is the [id] of a node of [ns]. *)
Definition ids_of (ns : list json) (nodeNameToIdMap : Obj.t value) : Prop :=
  forall k v, In (k, v) nodeNameToIdMap ->
              exists node, In node ns /\ v = Spec.node_id node.

(** An edge starts at a node of [ns]: its source is truthy and is the
    [id] of a node, or it is a built-in of [Object.prototype] (when the
    source is named like one of its properties). *)
Definition starts_at (ns : list json) (e : Visualization.Edge) : Prop :=
  Visualization.truthyId (Visualization.e_source e) = true /\
  match Visualization.e_source e with
  | Visualization.Doc v => exists node, In node ns /\ v = Spec.node_id node
  | Visualization.Builtin k => Obj.inherited k = true
  end.

End Facts.
(** ** Sample documents *)

Module Samples.
Import JS Analyzer.

Definition parsed (text : string) : json :=
  match JSONParser.parse (Inputs.json_text text) with
  | Ok document => document
  | Throw _ => JNull
  end.

(** A webhook, an HTTP request with a credential, and a sticky note. *)
Definition workflow : json :=
  parsed "{'name':'Sample','nodes':[{'id':'1','name':'Webhook','type':'n8n-nodes-base.webhook','typeVersion':1,'webhookId':'w1','position':[0,0]},{'id':'2','name':'Fetch','type':'n8n-nodes-base.httpRequest','typeVersion':1,'parameters':{'url':'http://example.com'},'credentials':{'httpBasicAuth':{'id':'7','name':'basic'}}},{'id':'3','name':'Note','type':'n8n-nodes-base.stickyNote'}],'connections':{'Webhook':{'main':[[{'node':'Fetch','type':'main','index':0}]]}},'meta':{'instanceId':'abc'}}".

(** The second node of [workflow]. *)
Definition fetch : json :=
  parsed "{'id':'2','name':'Fetch','type':'n8n-nodes-base.httpRequest','typeVersion':1,'parameters':{'url':'http://example.com'},'credentials':{'httpBasicAuth':{'id':'7','name':'basic'}}}".

(** The first node of [workflow]. *)
Definition webhook : json :=
  parsed "{'id':'1','name':'Webhook','type':'n8n-nodes-base.webhook','typeVersion':1,'webhookId':'w1','position':[0,0]}".

(** A node whose credentials hold a [null] entry, and a workflow with
    it. *)
Definition unset_credential : json :=
  parsed "{'id':'1','type':'n8n-nodes-base.slack','credentials':{'slackApi':null}}".

Definition unset_credential_workflow : json :=
  parsed "{'nodes':[{'id':'1','type':'n8n-nodes-base.slack','credentials':{'slackApi':null}}],'connections':{}}".

(** A node without a [type]. *)
Definition untyped_workflow : json :=
  parsed "{'nodes':[{'id':'1'}],'connections':{}}".

(** A document whose [nodes] is no array. *)
Definition nodes_text : json := parsed "{'nodes':'none'}".

(** A document that is no workflow. *)
Definition other : Str.t := Inputs.json_text "{'a':1}".

(** The nodes of a document, the identity of their array, and the value
    of a node under a key. *)
Definition nodes_of (document : json) : list json :=
  match Spec.prop (Some document) (u"nodes") with
  | Some (JArr _ ns) => ns
  | _ => []
  end.

Definition nodes_ref (document : json) : N :=
  match Spec.prop (Some document) (u"nodes") with
  | Some (JArr ref _) => ref
  | _ => 0%N
  end.

Definition field (node : json) (key : Str.t) : json :=
  match Spec.prop (Some node) key with
  | Some v => v
  | None => JNull
  end.

(** The report of the validator for a document; the report of a failure
    where it throws. *)
Definition report_of (document : json) : ValidationResult :=
  match validateN8nWorkflow (Some document) with
  | Ok r => r
  | Throw _ => failure []
  end.

(** The findings of the engine for a node. *)
Definition findings_of (node : json) : list SecurityIssue :=
  match checkNodeSecurity (Some node) [] with
  | Ok issues => issues
  | Throw _ => []
  end.

(** The graph of a document with the findings of its report; the engine
    prints no built-in and the clock is at 0. *)
Definition graph_of (document : json) : Visualization.Graph :=
  match Visualization.processWorkflow (fun _ => []) 0 (Some document)
          (securityIssues (report_of document)) with
  | Ok g => g
  | Throw _ => {| Visualization.processedNodes := [];
                  Visualization.processedEdges := [];
                  Visualization.workflowKey := [] |}
  end.

(** The groups, the categories and the node types of the report; empty
    where the computation throws. *)
Definition groups_of (issues : list SecurityIssue)
  : Obj.t (list SecurityIssue) :=
  match Report.issuesByNode issues with
  | Ok groups => groups
  | Throw _ => []
  end.

Definition categories_of (document : json) : Obj.t nat :=
  match Report.nodeCategories (Some document) with
  | Ok categories => categories
  | Throw _ => []
  end.

Definition types_of (document : json) : list value :=
  match Report.nodeTypes (Some document) with
  | Ok types => types
  | Throw _ => []
  end.

(** [workflow] with its connection of type [ai_tool]: the edge runs from
    the webhook, which has a finding of medium severity, to the HTTP
    request, which has one of high severity. *)
Definition tool_workflow : json :=
  parsed "{'name':'Sample','nodes':[{'id':'1','name':'Webhook','type':'n8n-nodes-base.webhook','typeVersion':1,'webhookId':'w1','position':[0,0]},{'id':'2','name':'Fetch','type':'n8n-nodes-base.httpRequest','typeVersion':1,'parameters':{'url':'http://example.com'},'credentials':{'httpBasicAuth':{'id':'7','name':'basic'}}},{'id':'3','name':'Note','type':'n8n-nodes-base.stickyNote'}],'connections':{'Webhook':{'ai_tool':[[{'node':'Fetch','type':'ai_tool','index':0}]]}},'meta':{'instanceId':'abc'}}".

(** The names and ids of the nodes of [tool_workflow], and the one edge
    of its graph. *)
Definition tool_names : Obj.t value :=
  [(u"Webhook", Some (JStr (u"1"))); (u"Fetch", Some (JStr (u"2")));
   (u"Note", Some (JStr (u"3")))].

Definition tool_edge : Visualization.Edge :=
  nth 0 (Visualization.processedEdges (graph_of tool_workflow))
      {| Visualization.e_id := [];
         Visualization.e_source := Visualization.Doc None;
         Visualization.e_target := Visualization.Doc None;
         Visualization.e_stroke := [];
         Visualization.e_strokeWidth := Visualization.W2;
         Visualization.e_strokeDasharray := None;
         Visualization.e_animated := false;
         Visualization.e_label := None |}.

(** A finding for a node named [constructor]. *)
Definition constructor_finding : SecurityIssue :=
  llm02_issue (Some (JStr (u"1"))) (Some (JStr (u"constructor"))).

(** A JSON file with the text of the demo scenario. *)
Definition demo_file : Upload.File :=
  {| Upload.file_type := u"application/json";
     Upload.file_name := u"demo.json";
     Upload.file_text := Some Inputs.demo |}.

Definition start : Upload.Page :=
  {| Upload.jsonInput := []; Upload.analysis := Inputs.initial |}.

End Samples.

(** * Properties *)

Unset Implicit Arguments.
Import JS Analyzer.

(** ** Strings and values *)

Lemma Str_eqb_eq (a b : Str.t) : Str.eqb a b = true <-> a = b.
Proof.
  revert b. induction a as [ | x a IH]; intros [ | y b]; simpl;
    try (split; [discriminate | discriminate]); try tauto.
  rewrite andb_true_iff, N.eqb_eq, IH. split.
  - intros [-> ->]. reflexivity.
  - intros E. injection E as -> ->. tauto.
Qed.

Lemma Str_eqb_refl (a : Str.t) : Str.eqb a a = true.
Proof. apply Str_eqb_eq. reflexivity. Qed.

(** Induction on a value with its nested lists. *)
Lemma json_nested_ind (P : json -> Prop) :
  P JNull ->
  (forall b, P (JBool b)) ->
  (forall x, P (JNum x)) ->
  (forall s, P (JStr s)) ->
  (forall r xs, Forall P xs -> P (JArr r xs)) ->
  (forall r props, Forall (fun kv => P (snd kv)) props -> P (JObj r props)) ->
  forall j, P j.
Proof.
  intros Hnull Hbool Hnum Hstr Harr Hobj.
  fix IH 1. intros [ | b | x | s | r xs | r props].
  - exact Hnull.
  - apply Hbool.
  - apply Hnum.
  - apply Hstr.
  - apply Harr. induction xs as [ | y ys IHys]; constructor.
    + apply IH.
    + exact IHys.
  - apply Hobj. induction props as [ | [k v] rest IHrest]; constructor.
    + apply IH.
    + exact IHrest.
Qed.

(** ** Property reads *)

Lemma get_prop (base : value) (key : Str.t) :
  nullish base = false -> get base key = Ok (Spec.prop base key).
Proof.
  unfold Spec.prop.
  destruct base as [[ | b | x | str | r xs | r props] | ]; simpl;
    try discriminate; intros _;
    repeat match goal with
           | |- context [if ?c then _ else _] => destruct c
           | |- context [match ?c with Some _ => _ | None => _ end] => destruct c
           end; reflexivity.
Qed.

Lemma truthy_not_nullish (v : value) : truthy v = true -> nullish v = false.
Proof. destruct v as [[ | | | | | ] | ]; simpl; congruence. Qed.

Lemma get_opt_prop (base : value) (key : Str.t) :
  get_opt base key = Ok (Spec.prop base key).
Proof.
  unfold Spec.prop, get_opt.
  destruct base as [[ | b | x | str | r xs | r props] | ]; simpl;
    repeat match goal with
           | |- context [if ?c then _ else _] => destruct c
           | |- context [match ?c with Some _ => _ | None => _ end] => destruct c
           end; reflexivity.
Qed.

Lemma get_ok_not_nullish base key v :
  get base key = Ok v -> nullish base = false.
Proof. destruct base as [[ | | | | | ] | ]; simpl; congruence. Qed.

(** ** The parser never runs out of fuel *)

Section ParserFacts.
Import JSONParser.


Lemma skip_ws_length (s : Str.t) : List.length (skip_ws s) <= List.length s.
Proof.
  induction s as [ | c s IH]; simpl; [lia | ].
  destruct (is_ws c); simpl; lia.
Qed.

Lemma eat_length (c : Str.char) (s rest : Str.t) :
  Conv.eat c s = Some rest -> List.length s = S (List.length rest).
Proof.
  destruct s as [ | x s]; simpl; [discriminate | ].
  destruct (N.eqb x c); [ | discriminate].
  intros E. injection E as <-. reflexivity.
Qed.

Lemma take_digits_length (s ds rest : Str.t) :
  Conv.take_digits s = (ds, rest) ->
  List.length s = List.length ds + List.length rest.
Proof.
  revert ds rest. induction s as [ | c s IH]; intros ds rest; simpl.
  - intros E. injection E as <- <-. reflexivity.
  - destruct (Conv.is_digit c).
    + destruct (Conv.take_digits s) as [ds' rest'].
      intros E. injection E as <- <-. simpl. rewrite (IH ds' rest' eq_refl). lia.
    + intros E. injection E as <- <-. reflexivity.
Qed.

Lemma take_exponent_length (s rest : Str.t) (e : Z) :
  Conv.take_exponent s = Some (e, rest) -> List.length rest <= List.length s.
Proof.
  unfold Conv.take_exponent.
  destruct s as [ | c s1]; [intros E; injection E as <- <-; simpl; lia | ].
  destruct (N.eqb c 101 || N.eqb c 69)%N;
    [ | intros E; injection E as <- <-; simpl; lia].
  destruct (Conv.eat 45%N s1) as [s2 | ] eqn:Hminus;
    [ | destruct (Conv.eat 43%N s1) as [s2 | ] eqn:Hplus];
    try apply eat_length in Hminus; try apply eat_length in Hplus;
    match goal with
    | |- context [Conv.take_digits ?x] =>
      destruct (Conv.take_digits x) as [ds rest0] eqn:Hd;
        apply take_digits_length in Hd
    end;
    (destruct ds; [discriminate | ]);
    intros E; injection E as _ <-; simpl in *; lia.
Qed.

Lemma number_length (s rest : Str.t) (x : Num.t) :
  number s = Some (x, rest) -> List.length rest < List.length s.
Proof.
  unfold number.
  destruct (Conv.eat 45%N s) as [s0 | ] eqn:Hminus.
  - apply eat_length in Hminus.
    destruct (Conv.take_digits s0) as [ip s1] eqn:Hip.
    apply take_digits_length in Hip.
    destruct ip as [ | d more]; [discriminate | ].
    destruct (N.eqb d 48%N && negb (Nat.eqb (List.length more) 0));
      [discriminate | ].
    destruct (Conv.eat 46%N s1) as [s2 | ] eqn:Hdot.
    + apply eat_length in Hdot.
      destruct (Conv.take_digits s2) as [fp s3] eqn:Hfp.
      apply take_digits_length in Hfp.
      destruct fp; [discriminate | ].
      destruct (Conv.take_exponent s3) as [[e rest'] | ] eqn:He;
        [ | discriminate].
      apply take_exponent_length in He.
      intros E. injection E as _ <-. simpl in *. lia.
    + destruct (Conv.take_exponent s1) as [[e rest'] | ] eqn:He;
        [ | discriminate].
      apply take_exponent_length in He.
      intros E. injection E as _ <-. simpl in *. lia.
  - destruct (Conv.take_digits s) as [ip s1] eqn:Hip.
    apply take_digits_length in Hip.
    destruct ip as [ | d more]; [discriminate | ].
    destruct (N.eqb d 48%N && negb (Nat.eqb (List.length more) 0));
      [discriminate | ].
    destruct (Conv.eat 46%N s1) as [s2 | ] eqn:Hdot.
    + apply eat_length in Hdot.
      destruct (Conv.take_digits s2) as [fp s3] eqn:Hfp.
      apply take_digits_length in Hfp.
      destruct fp; [discriminate | ].
      destruct (Conv.take_exponent s3) as [[e rest'] | ] eqn:He;
        [ | discriminate].
      apply take_exponent_length in He.
      intros E. injection E as _ <-. simpl in *. lia.
    + destruct (Conv.take_exponent s1) as [[e rest'] | ] eqn:He;
        [ | discriminate].
      apply take_exponent_length in He.
      intros E. injection E as _ <-. simpl in *. lia.
Qed.

Lemma strip_prefix_length (p s rest : Str.t) :
  strip_prefix p s = Some rest ->
  List.length s = List.length p + List.length rest.
Proof.
  revert s. induction p as [ | x p IH]; intros [ | y s]; simpl;
    try discriminate.
  - intros E. injection E as <-. reflexivity.
  - intros E. injection E as <-. reflexivity.
  - destruct (N.eqb x y); [ | discriminate].
    intros H. rewrite (IH _ H). reflexivity.
Qed.

Lemma string_body_length :
  forall (n : nat) (s str rest : Str.t),
    List.length s <= n ->
    string_body s = Some (str, rest) -> List.length rest < List.length s.
Proof.
  induction n as [ | n IH]; intros s str rest Hn.
  - destruct s; [simpl; discriminate | simpl in Hn; lia].
  - destruct s as [ | c s1]; [simpl; discriminate | ].
    simpl in Hn. cbn [string_body].
    assert (Hstep : forall (x : Str.char) (t : Str.t),
               List.length t <= n ->
               option_map (fun r => (x :: fst r, snd r)) (string_body t)
               = Some (str, rest) ->
               List.length rest < List.length t).
    { intros x t Ht.
      destruct (string_body t) as [[str' rest'] | ] eqn:Hb; [ | discriminate].
      simpl. intros E. injection E as _ <-. apply (IH t str' rest' Ht Hb). }
    destruct (N.eqb c 34%N).
    { intros E. injection E as _ <-. simpl. lia. }
    destruct (N.eqb c 92%N).
    + destruct s1 as [ | e rest1]; [discriminate | ]. simpl in Hn.
      repeat match goal with
             | |- (if ?b then _ else _) = _ -> _ =>
               destruct b;
                 [ intros H; apply Hstep in H; [simpl; lia | lia] | ]
             end.
      destruct (N.eqb e 117%N); [ | discriminate].
      destruct rest1 as [ | h1 [ | h2 [ | h3 [ | h4 rest2]]]];
        try discriminate.
      destruct (Conv.hex_value h1), (Conv.hex_value h2),
               (Conv.hex_value h3), (Conv.hex_value h4); try discriminate.
      intros H. apply Hstep in H; simpl in *; lia.
    + destruct (c <? 32)%N; [discriminate | ].
      intros H. apply Hstep in H; simpl; lia.
Qed.

(** What a successful parse leaves is shorter than what it was given. *)
Lemma parsed_shorter (fuel : nat) :
  (forall s ref v rest ref',
      value fuel s ref = Parsed v rest ref' ->
      List.length rest < List.length s) /\
  (forall s ref self acc v rest ref',
      elements fuel s ref self acc = Parsed v rest ref' ->
      List.length rest < List.length s) /\
  (forall s ref self acc v rest ref',
      members fuel s ref self acc = Parsed v rest ref' ->
      List.length rest < List.length s).
Proof.
  induction fuel as [ | fuel [IHv [IHe IHm]]].
  - repeat split; intros; discriminate.
  - split; [ | split].
    + intros s ref v rest ref'. cbn [value].
      pose proof (skip_ws_length s) as Hs.
      destruct (skip_ws s) as [ | c r] eqn:Hskip; [discriminate | ].
      simpl in Hs.
      destruct (N.eqb c 123).
      { pose proof (skip_ws_length r) as Hr.
        destruct (Conv.eat 125%N (skip_ws r)) as [r' | ] eqn:Heat.
        - apply eat_length in Heat. intros E. injection E as _ <- _. lia.
        - intros H. apply IHm in H. lia. }
      destruct (N.eqb c 91).
      { pose proof (skip_ws_length r) as Hr.
        destruct (Conv.eat 93%N (skip_ws r)) as [r' | ] eqn:Heat.
        - apply eat_length in Heat. intros E. injection E as _ <- _. lia.
        - intros H. apply IHe in H. lia. }
      destruct (N.eqb c 34).
      { destruct (string_body r) as [[str r'] | ] eqn:Hb; [ | discriminate].
        apply (string_body_length _ _ _ _ (le_n _)) in Hb.
        intros E. injection E as _ <- _. lia. }
      destruct (N.eqb c 116).
      { destruct (strip_prefix (u"true") (c :: r)) as [r' | ] eqn:Hp;
          [ | discriminate].
        apply strip_prefix_length in Hp.
        intros E. injection E as _ <- _. simpl in Hp. lia. }
      destruct (N.eqb c 102).
      { destruct (strip_prefix (u"false") (c :: r)) as [r' | ] eqn:Hp;
          [ | discriminate].
        apply strip_prefix_length in Hp.
        intros E. injection E as _ <- _. simpl in Hp. lia. }
      destruct (N.eqb c 110).
      { destruct (strip_prefix (u"null") (c :: r)) as [r' | ] eqn:Hp;
          [ | discriminate].
        apply strip_prefix_length in Hp.
        intros E. injection E as _ <- _. simpl in Hp. lia. }
      destruct (number (c :: r)) as [[x r'] | ] eqn:Hnum; [ | discriminate].
      apply number_length in Hnum.
      intros E. injection E as _ <- _. simpl in Hnum. lia.
    + intros s ref self acc v rest ref'. cbn [elements].
      destruct (value fuel s ref) as [v0 r0 ref0 | | ] eqn:Hv;
        try discriminate.
      apply IHv in Hv. pose proof (skip_ws_length r0) as Hr.
      destruct (Conv.eat 44%N (skip_ws r0)) as [r1 | ] eqn:Hcomma.
      * apply eat_length in Hcomma. intros H. apply IHe in H. lia.
      * destruct (Conv.eat 93%N (skip_ws r0)) as [r1 | ] eqn:Hclose;
          [ | discriminate].
        apply eat_length in Hclose. intros E. injection E as _ <- _. lia.
    + intros s ref self acc v rest ref'. cbn [members].
      pose proof (skip_ws_length s) as Hs.
      destruct (Conv.eat 34%N (skip_ws s)) as [r | ] eqn:Hq; [ | discriminate].
      apply eat_length in Hq.
      destruct (string_body r) as [[key r1] | ] eqn:Hb; [ | discriminate].
      apply (string_body_length _ _ _ _ (le_n _)) in Hb.
      pose proof (skip_ws_length r1) as Hr1.
      destruct (Conv.eat 58%N (skip_ws r1)) as [r2 | ] eqn:Hcolon;
        [ | discriminate].
      apply eat_length in Hcolon.
      destruct (value fuel r2 ref) as [v0 r3 ref0 | | ] eqn:Hv;
        try discriminate.
      apply IHv in Hv. pose proof (skip_ws_length r3) as Hr3.
      destruct (Conv.eat 44%N (skip_ws r3)) as [r4 | ] eqn:Hcomma.
      * apply eat_length in Hcomma. intros H. apply IHm in H. lia.
      * destruct (Conv.eat 125%N (skip_ws r3)) as [r4 | ] eqn:Hclose;
          [ | discriminate].
        apply eat_length in Hclose. intros E. injection E as _ <- _. lia.
Qed.

Lemma enough_fuel (fuel : nat) :
  (forall s ref,
      2 * List.length s + 1 <= fuel -> value fuel s ref <> OutOfFuel) /\
  (forall s ref self acc,
      2 * List.length s + 2 <= fuel ->
      elements fuel s ref self acc <> OutOfFuel) /\
  (forall s ref self acc,
      2 * List.length s + 2 <= fuel ->
      members fuel s ref self acc <> OutOfFuel).
Proof.
  induction fuel as [ | fuel [IHv [IHe IHm]]].
  - repeat split; intros; lia.
  - split; [ | split].
    + intros s ref Hf. cbn [value].
      pose proof (skip_ws_length s) as Hs.
      destruct (skip_ws s) as [ | c r] eqn:Hskip; [discriminate | ].
      simpl in Hs.
      destruct (N.eqb c 123).
      { destruct (Conv.eat 125%N (skip_ws r)); [discriminate | ].
        apply IHm. lia. }
      destruct (N.eqb c 91).
      { destruct (Conv.eat 93%N (skip_ws r)); [discriminate | ].
        apply IHe. lia. }
      destruct (N.eqb c 34).
      { destruct (string_body r) as [[str r'] | ]; discriminate. }
      destruct (N.eqb c 116).
      { destruct (strip_prefix (u"true") (c :: r)); discriminate. }
      destruct (N.eqb c 102).
      { destruct (strip_prefix (u"false") (c :: r)); discriminate. }
      destruct (N.eqb c 110).
      { destruct (strip_prefix (u"null") (c :: r)); discriminate. }
      destruct (number (c :: r)) as [[x r'] | ]; discriminate.
    + intros s ref self acc Hf. cbn [elements].
      destruct (value fuel s ref) as [v0 r0 ref0 | | ] eqn:Hv.
      * apply (proj1 (parsed_shorter fuel)) in Hv.
        pose proof (skip_ws_length r0) as Hr.
        destruct (Conv.eat 44%N (skip_ws r0)) as [r1 | ] eqn:Hcomma.
        -- apply eat_length in Hcomma. apply IHe. lia.
        -- destruct (Conv.eat 93%N (skip_ws r0)); discriminate.
      * discriminate.
      * exfalso. apply (IHv s ref); [lia | exact Hv].
    + intros s ref self acc Hf. cbn [members].
      pose proof (skip_ws_length s) as Hs.
      destruct (Conv.eat 34%N (skip_ws s)) as [r | ] eqn:Hq; [ | discriminate].
      apply eat_length in Hq.
      destruct (string_body r) as [[key r1] | ] eqn:Hb; [ | discriminate].
      apply (string_body_length _ _ _ _ (le_n _)) in Hb.
      pose proof (skip_ws_length r1) as Hr1.
      destruct (Conv.eat 58%N (skip_ws r1)) as [r2 | ] eqn:Hcolon;
        [ | discriminate].
      apply eat_length in Hcolon.
      destruct (value fuel r2 ref) as [v0 r3 ref0 | | ] eqn:Hv.
      * apply (proj1 (parsed_shorter fuel)) in Hv.
        pose proof (skip_ws_length r3) as Hr3.
        destruct (Conv.eat 44%N (skip_ws r3)) as [r4 | ] eqn:Hcomma.
        -- apply eat_length in Hcomma. apply IHm. lia.
        -- destruct (Conv.eat 125%N (skip_ws r3)); discriminate.
      * discriminate.
      * exfalso. apply (IHv r2 ref); [lia | exact Hv].
Qed.

(** [JSON.parse] decides on every text: the fuel given to the descent is
    never used up. *)
Theorem parse_fuel_suffices (text : Str.t) (ref : N) :
  value (fuel_for text) text ref <> OutOfFuel.
Proof.
  apply (proj1 (enough_fuel (fuel_for text))). unfold fuel_for. lia.
Qed.

(** More fuel does not change a result. *)
Lemma fuel_monotone (fuel : nat) :
  (forall s ref extra,
      value fuel s ref <> OutOfFuel ->
      value (fuel + extra) s ref = value fuel s ref) /\
  (forall s ref self acc extra,
      elements fuel s ref self acc <> OutOfFuel ->
      elements (fuel + extra) s ref self acc = elements fuel s ref self acc) /\
  (forall s ref self acc extra,
      members fuel s ref self acc <> OutOfFuel ->
      members (fuel + extra) s ref self acc = members fuel s ref self acc).
Proof.
  induction fuel as [ | fuel [IHv [IHe IHm]]].
  - repeat split; intros; simpl in *; congruence.
  - split; [ | split].
    + intros s ref extra. cbn [value plus].
      destruct (skip_ws s) as [ | c r]; [reflexivity | ].
      destruct (N.eqb c 123).
      { destruct (Conv.eat 125%N (skip_ws r)); [reflexivity | ]. apply IHm. }
      destruct (N.eqb c 91).
      { destruct (Conv.eat 93%N (skip_ws r)); [reflexivity | ]. apply IHe. }
      reflexivity.
    + intros s ref self acc extra. cbn [elements plus].
      destruct (value fuel s ref) as [v0 r0 ref0 | | ] eqn:Hv.
      * rewrite IHv, Hv by congruence.
        destruct (Conv.eat 44%N (skip_ws r0)); [apply IHe | reflexivity].
      * rewrite IHv, Hv by congruence. reflexivity.
      * congruence.
    + intros s ref self acc extra. cbn [members plus].
      destruct (Conv.eat 34%N (skip_ws s)) as [r | ]; [ | reflexivity].
      destruct (string_body r) as [[key r1] | ]; [ | reflexivity].
      destruct (Conv.eat 58%N (skip_ws r1)) as [r2 | ]; [ | reflexivity].
      destruct (value fuel r2 ref) as [v0 r3 ref0 | | ] eqn:Hv.
      * rewrite IHv, Hv by congruence.
        destruct (Conv.eat 44%N (skip_ws r3)); [apply IHm | reflexivity].
      * rewrite IHv, Hv by congruence. reflexivity.
      * congruence.
Qed.

End ParserFacts.

(** ** Blank input *)

Lemma trim_start_nil (s : Str.t) :
  Str.trim_start s = [] -> Forall (fun c => Str.is_white_space c = true) s.
Proof.
  induction s as [ | c s IH]; simpl; [constructor | ].
  destruct (Str.is_white_space c) eqn:Hc; [ | discriminate].
  intros H. constructor; [exact Hc | apply IH, H].
Qed.

Lemma trim_start_last (l : Str.t) (x : Str.char) :
  Str.is_white_space x = false -> Str.trim_start (l ++ [x]) <> [].
Proof.
  intros Hx. induction l as [ | c l IH]; simpl.
  - rewrite Hx. discriminate.
  - destruct (Str.is_white_space c); [exact IH | discriminate].
Qed.

Lemma trim_start_head (s : Str.t) (x : Str.char) (r : Str.t) :
  Str.trim_start s = x :: r -> Str.is_white_space x = false.
Proof.
  induction s as [ | c s IH]; simpl; [discriminate | ].
  destruct (Str.is_white_space c) eqn:Hc; [exact IH | ].
  intros E. injection E as <- _. exact Hc.
Qed.

Lemma trim_nil (s : Str.t) :
  Str.trim s = [] -> Forall (fun c => Str.is_white_space c = true) s.
Proof.
  unfold Str.trim. intros H.
  apply trim_start_nil.
  destruct (Str.trim_start s) as [ | x r] eqn:Hs; [reflexivity | exfalso].
  apply (f_equal (@rev _)) in H. rewrite rev_involutive in H. simpl in H.
  apply (trim_start_last (rev r) x (trim_start_head _ _ _ Hs)). exact H.
Qed.

Lemma skip_ws_blank (s : Str.t) :
  Forall (fun c => Str.is_white_space c = true) s ->
  Forall (fun c => Str.is_white_space c = true) (JSONParser.skip_ws s) /\
  match JSONParser.skip_ws s with
  | c :: _ => JSONParser.is_ws c = false
  | [] => True
  end.
Proof.
  induction 1 as [ | c s Hc Hs IH]; simpl; [split; [constructor | exact I] | ].
  destruct (JSONParser.is_ws c) eqn:Hws; [exact IH | ].
  split; [constructor; assumption | exact Hws].
Qed.

Lemma white_space_not (c k : Str.char) :
  Str.is_white_space c = true -> Str.is_white_space k = false ->
  N.eqb c k = false.
Proof.
  intros Hc Hk. destruct (N.eqb_spec c k) as [-> | ]; [congruence | reflexivity].
Qed.

Lemma white_space_not_digit (c : Str.char) :
  Str.is_white_space c = true -> Conv.is_digit c = false.
Proof.
  unfold Str.is_white_space, Conv.is_digit. intros H.
  destruct ((48 <=? c) && (c <=? 57))%N eqn:Hd; [exfalso | reflexivity].
  rewrite andb_true_iff, !N.leb_le in Hd.
  rewrite !orb_true_iff, andb_true_iff, !N.eqb_eq, !N.leb_le in H. lia.
Qed.

(** Blank text is not JSON. *)
Lemma parse_blank (text : Str.t) :
  Str.trim text = [] -> JSONParser.parse text = Throw (SyntaxError text).
Proof.
  intros H. apply trim_nil in H. unfold JSONParser.parse, JSONParser.fuel_for.
  replace (2 * List.length text + 2) with (S (2 * List.length text + 1))
    by lia.
  cbn [JSONParser.value].
  destruct (skip_ws_blank _ H) as [Hall Hhead].
  destruct (JSONParser.skip_ws text) as [ | c r]; [reflexivity | ].
  inversion Hall as [ | c' r' Hc Hr]; subst.
  rewrite (white_space_not c 123%N Hc eq_refl), (white_space_not c 91%N Hc eq_refl),
    (white_space_not c 34%N Hc eq_refl), (white_space_not c 116%N Hc eq_refl),
    (white_space_not c 102%N Hc eq_refl), (white_space_not c 110%N Hc eq_refl).
  unfold JSONParser.number. cbn [Conv.eat].
  rewrite (white_space_not c 45%N Hc eq_refl).
  cbn [Conv.take_digits]. rewrite (white_space_not_digit c Hc). reflexivity.
Qed.

(** ** The scenario of the specification *)

(** C1: on the demo document [analyzeJson] sets a report with
    [isValid = true], a summary of one node and no connection, and exactly
    one finding, the high-severity "External HTTP Request" one; so no other
    check of the catalog adds a finding for the node. *)
Theorem C1_demo_report :
  forall (error_message : js_error -> Str.t) (st : State),
    exists r w,
      result_ (analyzeJson error_message Inputs.demo st) = Some r /\
      isValid r = true /\
      isN8nWorkflow r = true /\
      errors r = [] /\
      workflowInfo r = Some w /\
      nodes w = 1 /\
      connections w = 0 /\
      securityIssues r =
        [http_request_issue (u"http://example.com")
           (Some (JStr (u"1"))) (Some (JStr (u"1")))] /\
      map severity (securityIssues r) = [high] /\
      map type (securityIssues r) = [u"External HTTP Request"].
Proof.
  intros error_message st.
  eexists. eexists.
  split; [ vm_compute; reflexivity | ].
  vm_compute. repeat split; reflexivity.
Qed.

(** ** The entry point *)

(** C2: [analyzeJson] sets a report for every input and nothing escapes
    it. Blank input (which is not JSON either) and text [JSON.parse]
    rejects give a report whose only error tells the failure, with no
    warning and no finding; an error thrown while a parsed document is
    validated ends in the same kind of report, its message in the single
    error; otherwise the report is the validator's. *)
Theorem C2_analyze_never_throws :
  forall (error_message : js_error -> Str.t) (jsonInput : Str.t) (st : State),
    exists r,
      result_ (analyzeJson error_message jsonInput st) = Some r /\
      (Str.trim jsonInput = [] ->
       r = failure (u"Please provide JSON input") /\
       JSONParser.parse jsonInput = Throw (SyntaxError jsonInput)) /\
      (forall e, Str.trim jsonInput <> [] ->
                 JSONParser.parse jsonInput = Throw e ->
                 r = failure (u"Invalid JSON format: " ++ error_message e)) /\
      (forall e, JSONParser.parse jsonInput = Throw e ->
                 isValid r = false /\ List.length (errors r) = 1 /\
                 warnings r = [] /\ securityIssues r = [] /\
                 workflowInfo r = None) /\
      (forall parsed e,
          JSONParser.parse jsonInput = Ok parsed ->
          validateN8nWorkflow (Some parsed) = Throw e ->
          r = failure (u"Invalid JSON format: " ++ error_message e)) /\
      (forall parsed v,
          JSONParser.parse jsonInput = Ok parsed ->
          validateN8nWorkflow (Some parsed) = Ok v ->
          r = v).
Proof.
  intros error_message jsonInput st. unfold analyzeJson.
  destruct (Str.trim jsonInput) as [ | c rest] eqn:Htrim.
  - pose proof (parse_blank _ Htrim) as Hblank.
    eexists. split; [reflexivity | ].
    repeat split; try reflexivity; try exact Hblank; intros; congruence.
  - destruct (JSONParser.parse jsonInput) as [parsed | e] eqn:Hparse; simpl.
    + destruct (validateN8nWorkflow (Some parsed)) as [v | e] eqn:Hval; simpl.
      * eexists. split; [reflexivity | ].
        repeat split; intros; try congruence.
      * eexists. split; [reflexivity | ].
        repeat split; intros; try congruence.
    + eexists. split; [reflexivity | ].
      repeat split; intros; try congruence.
Qed.

(** ** The workflow classification *)

Lemma looksLikeWorkflow_spec (data : value) :
  looksLikeWorkflow data = Ok (Spec.has_truthy_workflow_attribute data).
Proof.
  unfold looksLikeWorkflow, Spec.has_truthy_workflow_attribute.
  destruct (truthy data) eqn:Hd; [ | reflexivity].
  unfold is_truthy, or_v.
  rewrite !(get_prop _ _ (truthy_not_nullish _ Hd)). cbn [bind].
  rewrite get_opt_prop.
  destruct (truthy (Spec.prop data (u"nodes"))) eqn:H1;
    repeat (cbn [bind]; rewrite ?H1); [reflexivity | ].
  destruct (truthy (Spec.prop data (u"connections"))) eqn:H2;
    repeat (cbn [bind]; rewrite ?H2); [reflexivity | ].
  destruct (truthy (Spec.prop (Spec.prop data (u"meta")) (u"instanceId")))
    eqn:H3; repeat (cbn [bind]; rewrite ?H3); reflexivity.
Qed.

(** The report of a document that is not taken for a workflow. *)
Lemma validate_not_a_workflow (data : value) :
  Spec.has_truthy_workflow_attribute data = false ->
  validateN8nWorkflow data = Ok (failure not_a_workflow_error).
Proof.
  intros H. unfold validateN8nWorkflow.
  rewrite looksLikeWorkflow_spec, H. reflexivity.
Qed.

(** A report the validator returns for a document taken for a workflow
    says so and carries a summary. *)
Lemma validate_workflow (data : value) (r : ValidationResult) :
  Spec.has_truthy_workflow_attribute data = true ->
  validateN8nWorkflow data = Ok r ->
  isN8nWorkflow r = true /\ exists w, workflowInfo r = Some w.
Proof.
  intros H. unfold validateN8nWorkflow.
  rewrite looksLikeWorkflow_spec, H. cbn [bind negb].
  repeat match goal with
         | |- bind ?e _ = Ok _ -> _ =>
           destruct e; cbn [bind]; [ | discriminate]
         end.
  intros E. injection E as <-. simpl. eauto.
Qed.

(** C3, counterexample: the document with the single attribute [name]
    holding the empty string is a non-null object that exposes a [name]
    attribute, and is not taken for a workflow. *)
Lemma C3_counterexample :
  JSONParser.parse (Inputs.json_text "{'name':''}")
    = Ok (JObj 0 [(u"name", JStr [])]) /\
  Spec.exposes_workflow_attribute (Some (JObj 0 [(u"name", JStr [])])) = true /\
  looksLikeWorkflow (Some (JObj 0 [(u"name", JStr [])])) = Ok false /\
  validateN8nWorkflow (Some (JObj 0 [(u"name", JStr [])]))
    = Ok (failure not_a_workflow_error).
Proof.
  repeat split; vm_compute; reflexivity.
Qed.

(** C3, amended: a parsed value is taken for a workflow if and only if the
    value of [nodes], of [connections], of [meta.instanceId] or of [name] is
    truthy. When none is, the report has [isN8nWorkflow = false], the one
    error saying so, no warning, no finding and no summary; a report
    returned for a value taken for a workflow has [isN8nWorkflow = true]
    and a summary. *)
Theorem C3_classification :
  forall data : value,
    looksLikeWorkflow data = Ok (Spec.has_truthy_workflow_attribute data) /\
    (Spec.has_truthy_workflow_attribute data = false ->
     validateN8nWorkflow data =
       Ok {| isValid := false; isN8nWorkflow := false;
             errors := [not_a_workflow_error]; warnings := []; info := [];
             securityIssues := []; workflowInfo := None |}) /\
    (forall r, Spec.has_truthy_workflow_attribute data = true ->
               validateN8nWorkflow data = Ok r ->
               isN8nWorkflow r = true /\ exists w, workflowInfo r = Some w).
Proof.
  intros data. split; [apply looksLikeWorkflow_spec | ]. split.
  - apply validate_not_a_workflow.
  - intros r. apply validate_workflow.
Qed.

(** ** The rule engine appends findings *)

Lemma appends_result c issues issues' :
  Spec.appends c -> c issues = Ok issues' ->
  exists added, c [] = Ok added /\ issues' = issues ++ added.
Proof.
  intros Hc H. rewrite Hc in H.
  destruct (c []) as [added | e]; cbn [bind] in H; [ | discriminate].
  injection H as <-. eauto.
Qed.

Lemma appends_seq c d :
  Spec.appends c -> Spec.appends d -> Spec.appends (fun issues => bind (c issues) d).
Proof.
  intros Hc Hd issues. rewrite (Hc issues).
  destruct (c []) as [a | e]; cbn [bind]; [ | reflexivity].
  rewrite (Hd (issues ++ a)), (Hd a).
  destruct (d []) as [b | e]; cbn [bind]; [ | reflexivity].
  rewrite app_assoc. reflexivity.
Qed.

Lemma appends_for_each {A} (f : A -> list SecurityIssue -> result (list SecurityIssue))
  (xs : list A) :
  (forall x, In x xs -> Spec.appends (f x)) -> Spec.appends (for_each f xs).
Proof.
  induction xs as [ | x xs IH]; intros H.
  - intros issues. simpl. rewrite app_nil_r. reflexivity.
  - change (for_each f (x :: xs))
      with (fun s => bind (f x s) (for_each f xs)).
    apply appends_seq.
    + apply H. left. reflexivity.
    + apply IH. intros y Hy. apply H. right. exact Hy.
Qed.

Ltac appends_step :=
  match goal with
  | |- bind ?e _ = _ => destruct e as [? | ?]; cbn [bind]
  | |- (if ?c then _ else _) = _ => destruct c
  | |- match ?x with _ => _ end = _ => destruct x
  | |- push_issue _ _ _ _ = _ => unfold push_issue
  | |- Ok _ = _ =>
    unfold push; cbn [bind app]; rewrite ?app_nil_r; reflexivity
  | |- Throw _ = _ => reflexivity
  end.

Ltac appends_by_cases c := intros ?issues; unfold c; repeat appends_step.

Lemma check_pattern_appends node nn text p :
  Spec.appends (check_pattern node nn text p).
Proof. appends_by_cases check_pattern. Qed.

Lemma checkForSensitiveData_appends node nn obj :
  Spec.appends (checkForSensitiveData node nn obj).
Proof.
  induction obj as [ | b | x | s | r xs IH | r props IH] using json_nested_ind;
    try (intros issues; simpl; rewrite app_nil_r; reflexivity).
  - apply appends_for_each. intros p _. apply check_pattern_appends.
  - apply (appends_for_each (checkForSensitiveData node nn)).
    rewrite Forall_forall in IH. exact IH.
  - apply (appends_for_each
             (fun kv => checkForSensitiveData node nn (snd kv))).
    rewrite Forall_forall in IH. exact IH.
Qed.

Lemma check_llm06_appends node nn : Spec.appends (check_llm06 node nn).
Proof.
  intros issues. unfold check_llm06.
  destruct (get node (u"parameters")) as [[obj | ] | e]; cbn [bind];
    try (rewrite app_nil_r; reflexivity); try reflexivity.
  destruct (truthy (Some obj)).
  - apply checkForSensitiveData_appends.
  - cbn [bind]. rewrite app_nil_r. reflexivity.
Qed.

Lemma check_credentials_appends node nn : Spec.appends (check_credentials node nn).
Proof.
  intros issues. unfold check_credentials.
  destruct (get node (u"credentials")) as [c | e]; cbn [bind]; [ | reflexivity].
  destruct (truthy c); [ | cbn [bind]; rewrite app_nil_r; reflexivity].
  destruct (keys c) as [ks | e]; cbn [bind]; [ | reflexivity].
  apply appends_for_each. intros credType _ issues'.
  repeat appends_step.
Qed.

Lemma check_llm01_appends node nn : Spec.appends (check_llm01 node nn).
Proof. appends_by_cases check_llm01. Qed.
Lemma check_llm02_appends node nn : Spec.appends (check_llm02 node nn).
Proof. appends_by_cases check_llm02. Qed.
Lemma check_llm03_appends node nn : Spec.appends (check_llm03 node nn).
Proof. appends_by_cases check_llm03. Qed.
Lemma check_llm04_appends node nn : Spec.appends (check_llm04 node nn).
Proof. appends_by_cases check_llm04. Qed.
Lemma check_llm07_appends node nn : Spec.appends (check_llm07 node nn).
Proof. appends_by_cases check_llm07. Qed.
Lemma check_llm08_appends node nn : Spec.appends (check_llm08 node nn).
Proof. appends_by_cases check_llm08. Qed.
Lemma check_llm09_appends node nn : Spec.appends (check_llm09 node nn).
Proof. appends_by_cases check_llm09. Qed.
Lemma check_llm10_appends node nn : Spec.appends (check_llm10 node nn).
Proof. appends_by_cases check_llm10. Qed.
Lemma check_planning_appends node nn : Spec.appends (check_planning node nn).
Proof. appends_by_cases check_planning. Qed.
Lemma check_memory_appends node nn : Spec.appends (check_memory node nn).
Proof. appends_by_cases check_memory. Qed.
Lemma check_code_execution_appends node nn :
  Spec.appends (check_code_execution node nn).
Proof. appends_by_cases check_code_execution. Qed.
Lemma check_http_request_appends node nn :
  Spec.appends (check_http_request node nn).
Proof. appends_by_cases check_http_request. Qed.
Lemma check_webhook_appends node nn : Spec.appends (check_webhook node nn).
Proof. appends_by_cases check_webhook. Qed.
Lemma check_social_media_appends node nn :
  Spec.appends (check_social_media node nn).
Proof. appends_by_cases check_social_media. Qed.
Lemma check_database_appends node nn : Spec.appends (check_database node nn).
Proof. appends_by_cases check_database. Qed.
Lemma check_file_system_appends node nn : Spec.appends (check_file_system node nn).
Proof. appends_by_cases check_file_system. Qed.

(** ** The category of what each check appends *)

Ltac adds_step :=
  match goal with
  | |- bind ?e _ = _ -> _ => destruct e as [? | ?]; cbn [bind]
  | |- (if ?c then _ else _) = _ -> _ => destruct c
  | |- match ?x with _ => _ end = _ -> _ => destruct x
  | |- push_issue _ _ _ _ = _ -> _ => unfold push_issue
  | |- Ok _ = Ok _ -> _ =>
    let E := fresh "E" in
    intros E; injection E as <-; unfold push; cbn [app];
    repeat first [ apply Forall_nil
                 | apply Forall_cons; [vm_compute; reflexivity | ] ]
  | |- Throw _ = _ -> _ => discriminate
  end.

Ltac adds_by_cases c := intros ?added; unfold c; repeat adds_step.

Lemma for_each_preserves {A} (P : SecurityIssue -> Prop)
  (f : A -> list SecurityIssue -> result (list SecurityIssue)) (xs : list A) :
  (forall x issues issues', In x xs -> f x issues = Ok issues' ->
                            Forall P issues -> Forall P issues') ->
  forall issues issues',
    for_each f xs issues = Ok issues' -> Forall P issues -> Forall P issues'.
Proof.
  induction xs as [ | x xs IH]; intros Hf issues issues'; simpl.
  - intros E. injection E as <-. trivial.
  - destruct (f x issues) as [mid | e] eqn:Hx; cbn [bind]; [ | discriminate].
    intros Hrest HP. apply (IH (fun y i i' Hy => Hf y i i' (or_intror Hy)) mid).
    + exact Hrest.
    + apply (Hf x issues mid (or_introl eq_refl) Hx HP).
Qed.

Lemma push_issue_preserves (P : SecurityIssue -> Prop) mk node nn issues issues' :
  (forall id, P (mk id nn)) ->
  push_issue mk node nn issues = Ok issues' ->
  Forall P issues -> Forall P issues'.
Proof.
  intros Hmk. unfold push_issue.
  destruct (get node (u"id")) as [id | e]; cbn [bind]; [ | discriminate].
  intros E HP. injection E as <-. apply Forall_app. split; [exact HP | ].
  constructor; [apply Hmk | constructor].
Qed.

Lemma checkForSensitiveData_preserves (P : SecurityIssue -> Prop) node nn :
  (forall p id, P (llm06_issue (type_ p) id nn)) ->
  forall obj issues issues',
    checkForSensitiveData node nn obj issues = Ok issues' ->
    Forall P issues -> Forall P issues'.
Proof.
  intros Hmk obj.
  induction obj as [ | b | x | s | r xs IH | r props IH] using json_nested_ind;
    intros issues issues'; cbn [checkForSensitiveData];
    try (intros E; injection E as <-; trivial).
  - apply for_each_preserves. intros p i i' _. unfold check_pattern.
    destruct (Regex.test (pattern p) s).
    + apply push_issue_preserves. intros id. apply Hmk.
    + intros E. injection E as <-. trivial.
  - apply for_each_preserves. intros x i i' Hx.
    rewrite Forall_forall in IH. apply (IH x Hx).
  - apply for_each_preserves. intros kv i i' Hkv.
    rewrite Forall_forall in IH. apply (IH kv Hkv).
Qed.

Lemma check_llm06_adds node nn :
  Spec.adds (type (llm06_issue [] None None)) (check_llm06 node nn).
Proof.
  intros added. unfold check_llm06.
  destruct (get node (u"parameters")) as [[obj | ] | e]; cbn [bind];
    try discriminate;
    try (intros E; injection E as <-; constructor).
  destruct (truthy (Some obj)).
  - intros H.
    refine (checkForSensitiveData_preserves
              (fun i => type i = type (llm06_issue [] None None)) node nn
              _ obj [] added H (Forall_nil _)).
    intros p id. vm_compute. reflexivity.
  - intros E; injection E as <-; constructor.
Qed.

Lemma check_credentials_adds node nn :
  Spec.adds (type (credential_issue [] None None)) (check_credentials node nn).
Proof.
  intros added. unfold check_credentials.
  destruct (get node (u"credentials")) as [c | e]; cbn [bind]; [ | discriminate].
  destruct (truthy c); [ | intros E; injection E as <-; constructor].
  destruct (keys c) as [ks | e]; cbn [bind]; [ | discriminate].
  intros H.
  refine (for_each_preserves
            (fun i => type i = type (credential_issue [] None None))
            _ ks _ [] added H (Forall_nil _)).
  intros credType i i' _.
  repeat match goal with
         | |- bind ?e _ = _ -> _ => destruct e as [? | ?]; cbn [bind];
                                    [ | discriminate]
         | |- (if ?c then _ else _) = _ -> _ => destruct c
         end.
  - apply push_issue_preserves. intros id. vm_compute. reflexivity.
  - intros E; injection E as <-; trivial.
Qed.

Lemma check_llm01_adds node nn :
  Spec.adds (type (llm01_issue None None)) (check_llm01 node nn).
Proof. adds_by_cases check_llm01. Qed.
Lemma check_llm02_adds node nn :
  Spec.adds (type (llm02_issue None None)) (check_llm02 node nn).
Proof. adds_by_cases check_llm02. Qed.
Lemma check_llm03_adds node nn :
  Spec.adds (type (llm03_issue None None)) (check_llm03 node nn).
Proof. adds_by_cases check_llm03. Qed.
Lemma check_llm04_adds node nn :
  Spec.adds (type (llm04_issue None None)) (check_llm04 node nn).
Proof. adds_by_cases check_llm04. Qed.
Lemma check_llm07_adds node nn :
  Spec.adds (type (llm07_issue None None)) (check_llm07 node nn).
Proof. adds_by_cases check_llm07. Qed.
Lemma check_llm08_adds node nn :
  Spec.adds (type (llm08_issue [] None None)) (check_llm08 node nn).
Proof. adds_by_cases check_llm08. Qed.
Lemma check_llm09_adds node nn :
  Spec.adds (type (llm09_issue None None)) (check_llm09 node nn).
Proof. adds_by_cases check_llm09. Qed.
Lemma check_llm10_adds node nn :
  Spec.adds (type (llm10_issue None None)) (check_llm10 node nn).
Proof. adds_by_cases check_llm10. Qed.
Lemma check_planning_adds node nn :
  Spec.adds (type (planning_issue None None)) (check_planning node nn).
Proof. adds_by_cases check_planning. Qed.
Lemma check_memory_adds node nn :
  Spec.adds (type (memory_issue None None)) (check_memory node nn).
Proof. adds_by_cases check_memory. Qed.
Lemma check_code_execution_adds node nn :
  Spec.adds (type (code_execution_issue None None)) (check_code_execution node nn).
Proof. adds_by_cases check_code_execution. Qed.
Lemma check_http_request_adds node nn :
  Spec.adds (type (http_request_issue [] None None)) (check_http_request node nn).
Proof. adds_by_cases check_http_request. Qed.
Lemma check_webhook_adds node nn :
  Spec.adds (type (webhook_issue None None)) (check_webhook node nn).
Proof. adds_by_cases check_webhook. Qed.
Lemma check_social_media_adds node nn :
  Spec.adds (type (social_media_issue None None)) (check_social_media node nn).
Proof. adds_by_cases check_social_media. Qed.
Lemma check_database_adds node nn :
  Spec.adds (type (database_issue None None)) (check_database node nn).
Proof. adds_by_cases check_database. Qed.
Lemma check_file_system_adds node nn :
  Spec.adds (type (file_system_issue None None)) (check_file_system node nn).
Proof. adds_by_cases check_file_system. Qed.

Lemma checks_categories : Forall2 Spec.check_of Spec.categories checks.
Proof.
  unfold Spec.categories, checks.
  apply Forall2_cons;
    [ intros node nn; split;
      [ apply check_llm01_appends | apply check_llm01_adds ] | ].
  apply Forall2_cons;
    [ intros node nn; split;
      [ apply check_llm02_appends | apply check_llm02_adds ] | ].
  apply Forall2_cons;
    [ intros node nn; split;
      [ apply check_llm03_appends | apply check_llm03_adds ] | ].
  apply Forall2_cons;
    [ intros node nn; split;
      [ apply check_llm04_appends | apply check_llm04_adds ] | ].
  apply Forall2_cons;
    [ intros node nn; split;
      [ apply check_llm06_appends | apply check_llm06_adds ] | ].
  apply Forall2_cons;
    [ intros node nn; split;
      [ apply check_llm07_appends | apply check_llm07_adds ] | ].
  apply Forall2_cons;
    [ intros node nn; split;
      [ apply check_llm08_appends | apply check_llm08_adds ] | ].
  apply Forall2_cons;
    [ intros node nn; split;
      [ apply check_llm09_appends | apply check_llm09_adds ] | ].
  apply Forall2_cons;
    [ intros node nn; split;
      [ apply check_llm10_appends | apply check_llm10_adds ] | ].
  apply Forall2_cons;
    [ intros node nn; split;
      [ apply check_planning_appends | apply check_planning_adds ] | ].
  apply Forall2_cons;
    [ intros node nn; split;
      [ apply check_memory_appends | apply check_memory_adds ] | ].
  apply Forall2_cons;
    [ intros node nn; split;
      [ apply check_credentials_appends | apply check_credentials_adds ] | ].
  apply Forall2_cons;
    [ intros node nn; split;
      [ apply check_code_execution_appends | apply check_code_execution_adds ] | ].
  apply Forall2_cons;
    [ intros node nn; split;
      [ apply check_http_request_appends | apply check_http_request_adds ] | ].
  apply Forall2_cons;
    [ intros node nn; split;
      [ apply check_webhook_appends | apply check_webhook_adds ] | ].
  apply Forall2_cons;
    [ intros node nn; split;
      [ apply check_social_media_appends | apply check_social_media_adds ] | ].
  apply Forall2_cons;
    [ intros node nn; split;
      [ apply check_database_appends | apply check_database_adds ] | ].
  apply Forall2_cons;
    [ intros node nn; split;
      [ apply check_file_system_appends | apply check_file_system_adds ] | ].
  apply Forall2_nil.
Qed.

(** *** The findings of one category among those of a node *)

Lemma in_category_app T l l' :
  Spec.in_category T (l ++ l') = Spec.in_category T l ++ Spec.in_category T l'.
Proof. apply filter_app. Qed.

Lemma in_category_uniform T T' l :
  Forall (fun i => type i = T') l ->
  Spec.in_category T l = if Str.eqb T' T then l else [].
Proof.
  unfold Spec.in_category.
  induction 1 as [ | i l Hi Hl IH]; simpl.
  - destruct (Str.eqb T' T); reflexivity.
  - rewrite Hi, IH. destruct (Str.eqb T' T); reflexivity.
Qed.

(** The findings of category [T] that a run of checks appends are those
    of the checks of that category. *)
Lemma checks_in_category Ts cs (node nn : value) :
  Forall2 Spec.check_of Ts cs ->
  forall T issues issues',
    for_each (fun c => c node nn) cs issues = Ok issues' ->
    exists parts,
      Forall2 (fun c part => c node nn [] = Ok part) cs parts /\
      Spec.in_category T issues' =
      Spec.in_category T issues ++
      List.concat (map (fun Tp => if Str.eqb (fst Tp) T then snd Tp else [])
                  (combine Ts parts)).
Proof.
  induction 1 as [ | T0 c Ts cs Hc Hrest IH]; intros T issues issues'.
  - simpl. intros E. injection E as <-. exists []. split; [constructor | ].
    simpl. rewrite app_nil_r. reflexivity.
  - cbn [for_each].
    destruct (c node nn issues) as [mid | e] eqn:Hmid; cbn [bind];
      [ | discriminate].
    intros Hrun.
    destruct (Hc node nn) as [Happ Hadd].
    destruct (appends_result _ _ _ Happ Hmid) as [part [Hpart ->]].
    destruct (IH T _ _ Hrun) as [parts [Hparts Hcat]].
    exists (part :: parts). split; [constructor; assumption | ].
    rewrite Hcat, in_category_app,
      (in_category_uniform T T0 part (Hadd part Hpart)).
    cbn [combine map List.concat fst snd]. rewrite app_assoc. reflexivity.
Qed.

Lemma Forall2_In_r {A B} (R : A -> B -> Prop) (l : list A) (l' : list B)
  (y : B) :
  Forall2 R l l' -> In y l' -> exists x, R x y.
Proof.
  induction 1 as [ | a b l l' Hab Hl IH]; intros Hy; [destruct Hy | ].
  destruct Hy as [<- | Hy]; eauto.
Qed.

Lemma checkNodeSecurity_appends node : Spec.appends (checkNodeSecurity node).
Proof.
  intros issues. unfold checkNodeSecurity.
  destruct (or_v _ _) as [nn | e]; cbn [bind]; [ | reflexivity].
  destruct (type_includes node (u"stickyNote")) as [[ | ] | e]; cbn [bind];
    try reflexivity.
  - rewrite app_nil_r. reflexivity.
  - apply (appends_for_each (fun check => check node nn)).
    intros c Hc.
    destruct (Forall2_In_r _ _ _ c checks_categories Hc) as [T HT].
    apply HT.
Qed.

(** *** What [checkNodeSecurity] runs *)

Lemma nodeName_spec (node : value) :
  nullish node = false ->
  or_v (or_v (get node (u"name")) (get node (u"id")))
       (Ok (Some (JStr (u"Unknown"))))
  = Ok (Spec.node_name node).
Proof.
  intros H. unfold or_v, Spec.node_name, or_else.
  rewrite !(get_prop _ _ H). cbn [bind].
  destruct (truthy (Spec.prop node (u"name"))) eqn:H1;
    repeat (cbn [bind]; rewrite ?H1); [reflexivity | ].
  destruct (truthy (Spec.prop node (u"id"))) eqn:H2;
    repeat (cbn [bind]; rewrite ?H2); reflexivity.
Qed.

Lemma checkNodeSecurity_run (node : value) (issues issues' : list SecurityIssue) :
  checkNodeSecurity node issues = Ok issues' ->
  nullish node = false /\
  exists sticky,
    type_includes node (u"stickyNote") = Ok sticky /\
    if sticky then issues' = issues
    else for_each (fun check => check node (Spec.node_name node))
                  checks issues = Ok issues'.
Proof.
  unfold checkNodeSecurity. intros H.
  assert (Hn : nullish node = false).
  { destruct node as [[ | | | | | ] | ]; try reflexivity;
      simpl in H; discriminate. }
  split; [exact Hn | ].
  rewrite (nodeName_spec _ Hn) in H. cbn [bind] in H.
  destruct (type_includes node (u"stickyNote")) as [sticky | e];
    cbn [bind] in H; [ | discriminate].
  exists sticky. split; [reflexivity | ].
  destruct sticky; [injection H as <-; reflexivity | exact H].
Qed.

(** *** The sensitive-data check in closed form *)

Lemma push_issue_spec mk (node nn : value) issues :
  nullish node = false ->
  push_issue mk node nn issues
  = Ok (issues ++ [mk (Spec.prop node (u"id")) nn]).
Proof.
  intros H. unfold push_issue. rewrite (get_prop _ _ H). reflexivity.
Qed.

Lemma for_each_flat_map {A} (f : A -> list SecurityIssue -> result (list SecurityIssue))
  (g : A -> list SecurityIssue) (xs : list A) :
  (forall x, In x xs -> forall issues, f x issues = Ok (issues ++ g x)) ->
  forall issues, for_each f xs issues = Ok (issues ++ flat_map g xs).
Proof.
  induction xs as [ | x xs IH]; intros H issues; simpl.
  - rewrite app_nil_r. reflexivity.
  - rewrite (H x (or_introl eq_refl)). cbn [bind].
    rewrite IH by (intros y Hy; apply H; right; exact Hy).
    rewrite app_assoc. reflexivity.
Qed.

Lemma flat_map_singletons {A B} (p : A -> bool) (mk : A -> B) (l : list A) :
  flat_map (fun x => if p x then [mk x] else []) l = map mk (filter p l).
Proof.
  induction l as [ | x l IH]; simpl; [reflexivity | ].
  rewrite IH. destruct (p x); reflexivity.
Qed.

Lemma flat_map_flat_map {A B C} (f : A -> list B) (g : B -> list C) (l : list A) :
  flat_map g (flat_map f l) = flat_map (fun x => flat_map g (f x)) l.
Proof.
  induction l as [ | x l IH]; simpl; [reflexivity | ].
  rewrite flat_map_app, IH. reflexivity.
Qed.

Lemma map_flat_map {A B C} (f : A -> list B) (g : B -> C) (l : list A) :
  map g (flat_map f l) = flat_map (fun x => map g (f x)) l.
Proof.
  induction l as [ | x l IH]; simpl; [reflexivity | ].
  rewrite map_app, IH. reflexivity.
Qed.

Lemma flat_map_ext_in {A B} (f g : A -> list B) (l : list A) :
  (forall x, In x l -> f x = g x) -> flat_map f l = flat_map g l.
Proof.
  induction l as [ | x l IH]; intros H; simpl; [reflexivity | ].
  rewrite (H x (or_introl eq_refl)), IH; [reflexivity | ].
  intros y Hy. apply H. right. exact Hy.
Qed.

Lemma checkForSensitiveData_spec (node nn : value) :
  nullish node = false ->
  forall obj issues,
    checkForSensitiveData node nn obj issues
    = Ok (issues ++ flat_map (Spec.findings_in node nn) (Spec.strings_of obj)).
Proof.
  intros Hn obj.
  induction obj as [ | b | x | s | r xs IH | r props IH] using json_nested_ind;
    intros issues; cbn [checkForSensitiveData Spec.strings_of flat_map];
    rewrite ?app_nil_r; try reflexivity.
  - unfold Spec.findings_in, Spec.matching_patterns.
    rewrite <- flat_map_singletons.
    apply for_each_flat_map. intros p _ issues'. unfold check_pattern.
    destruct (Regex.test (pattern p) s).
    + apply push_issue_spec, Hn.
    + rewrite app_nil_r. reflexivity.
  - rewrite flat_map_flat_map. apply for_each_flat_map.
    rewrite Forall_forall in IH. exact IH.
  - rewrite flat_map_flat_map.
    apply (for_each_flat_map
             (fun kv => checkForSensitiveData node nn (snd kv))).
    rewrite Forall_forall in IH. exact IH.
Qed.

Lemma check_llm06_spec (node nn : value) (issues : list SecurityIssue) :
  nullish node = false ->
  check_llm06 node nn issues = Ok (issues ++ Spec.sensitive_findings node nn).
Proof.
  intros Hn. unfold check_llm06, Spec.sensitive_findings.
  rewrite (get_prop _ _ Hn). cbn [bind].
  destruct (Spec.prop node (u"parameters")) as [obj | ];
    [ | rewrite app_nil_r; reflexivity].
  destruct (truthy (Some obj)); [ | rewrite app_nil_r; reflexivity].
  rewrite (checkForSensitiveData_spec _ _ Hn). rewrite map_flat_map.
  reflexivity.
Qed.

Lemma sensitive_findings_high (node nn : value) :
  Forall (fun i => severity i = high /\
                   type i = u"LLM-06: Sensitive Information Disclosure")
         (Spec.sensitive_findings node nn).
Proof.
  unfold Spec.sensitive_findings.
  destruct (Spec.prop node (u"parameters")) as [obj | ]; [ | constructor].
  destruct (truthy (Some obj)); [ | constructor].
  apply Forall_forall. intros i Hi. apply in_map_iff in Hi.
  destruct Hi as [p [<- _]]. split; vm_compute; reflexivity.
Qed.

Lemma length_flat_map {A B} (f : A -> list B) (l : list A) :
  List.length (flat_map f l) = Spec.sum (map (fun x => List.length (f x)) l).
Proof.
  induction l as [ | x l IH]; simpl; [reflexivity | ].
  rewrite length_app, IH. reflexivity.
Qed.

Ltac invert_parts :=
  repeat match goal with
         | H : Forall2 _ (_ :: _) _ |- _ => inversion H; subst; clear H
         | H : Forall2 _ [] _ |- _ => inversion H; subst; clear H
         end.

Ltac decide_categories :=
  repeat match goal with
         | |- context [Str.eqb (type ?i) ?T] =>
           let b := eval vm_compute in (Str.eqb (type i) T) in
           replace (Str.eqb (type i) T) with b by (vm_compute; reflexivity)
         end.

(** The findings of the sensitive-data category among those
    [checkNodeSecurity] appends for a node that is not an annotation. *)
Lemma checkNodeSecurity_sensitive (node : value) (issues issues' : list SecurityIssue) :
  checkNodeSecurity node issues = Ok issues' ->
  type_includes node (u"stickyNote") = Ok false ->
  Spec.in_category (u"LLM-06: Sensitive Information Disclosure") issues'
  = Spec.in_category (u"LLM-06: Sensitive Information Disclosure") issues
    ++ Spec.sensitive_findings node (Spec.node_name node).
Proof.
  intros Hrun Hsticky.
  destruct (checkNodeSecurity_run _ _ _ Hrun) as [Hn [sticky [Hs Hchecks]]].
  rewrite Hsticky in Hs. injection Hs as <-.
  destruct (checks_in_category _ _ node (Spec.node_name node)
              checks_categories
              (u"LLM-06: Sensitive Information Disclosure") _ _ Hchecks)
    as [parts [Hparts ->]].
  f_equal. unfold checks in Hparts. invert_parts.
  unfold Spec.categories. cbn [combine map fst snd].
  decide_categories. cbn [List.concat app]. rewrite app_nil_r.
  match goal with
  | H : check_llm06 _ _ [] = Ok _ |- _ =>
    rewrite (check_llm06_spec _ _ [] Hn) in H; injection H as <-
  end.
  reflexivity.
Qed.

Lemma check_code_execution_spec (node nn : value) (issues : list SecurityIssue) :
  nullish node = false ->
  check_code_execution node nn issues
  = Ok (issues ++
        if array_includes codeExecutionNodes (Spec.prop node (u"type"))
        then [code_execution_issue (Spec.prop node (u"id")) nn] else []).
Proof.
  intros Hn. unfold check_code_execution.
  rewrite (get_prop _ _ Hn). cbn [bind].
  destruct (array_includes codeExecutionNodes (Spec.prop node (u"type"))).
  - apply push_issue_spec, Hn.
  - rewrite app_nil_r. reflexivity.
Qed.

Lemma checkNodeSecurity_code_execution (node : value)
  (issues issues' : list SecurityIssue) :
  checkNodeSecurity node issues = Ok issues' ->
  type_includes node (u"stickyNote") = Ok false ->
  Spec.in_category (u"Code Execution Risk") issues'
  = Spec.in_category (u"Code Execution Risk") issues
    ++ (if array_includes codeExecutionNodes (Spec.prop node (u"type"))
        then [code_execution_issue (Spec.prop node (u"id"))
                                   (Spec.node_name node)]
        else []).
Proof.
  intros Hrun Hsticky.
  destruct (checkNodeSecurity_run _ _ _ Hrun) as [Hn [sticky [Hs Hchecks]]].
  rewrite Hsticky in Hs. injection Hs as <-.
  destruct (checks_in_category _ _ node (Spec.node_name node)
              checks_categories (u"Code Execution Risk") _ _ Hchecks)
    as [parts [Hparts ->]].
  f_equal. unfold checks in Hparts. invert_parts.
  unfold Spec.categories. cbn [combine map fst snd].
  decide_categories. cbn [List.concat app]. rewrite app_nil_r.
  match goal with
  | H : check_code_execution _ _ [] = Ok _ |- _ =>
    rewrite (check_code_execution_spec _ _ [] Hn) in H; injection H as <-
  end.
  reflexivity.
Qed.

(** ** When the rule engine returns *)

Section ObjectNode.

Variables (ref : N) (props : list (Str.t * json)) (t : Str.t).
Hypothesis Htype : lookup (u"type") props = Some (JStr t).

Let node : value := Some (JObj ref props).

Lemma type_includes_object (s : Str.t) :
  type_includes node s = Ok (Str.includes t s).
Proof.
  unfold type_includes, node. cbn [get bind]. rewrite Htype. reflexivity.
Qed.

Lemma parameter_object (key : Str.t) :
  parameter node key
  = Ok (Spec.prop (lookup (u"parameters") props) key).
Proof.
  unfold parameter, node. cbn [get bind]. apply get_opt_prop.
Qed.

Lemma push_issue_object mk nn issues :
  push_issue mk node nn issues = Ok (issues ++ [mk (lookup (u"id") props) nn]).
Proof. reflexivity. Qed.

Lemma truthy_prop_not_nullish (base : value) (key : Str.t) :
  truthy (Spec.prop base key) = true -> nullish base = false.
Proof.
  destruct base as [[ | | | | | ] | ]; try reflexivity; discriminate.
Qed.

Ltac returns_step :=
  match goal with
  | |- context [type_includes node ?s] => rewrite (type_includes_object s)
  | |- context [parameter node ?k] => rewrite (parameter_object k)
  | |- context [push_issue ?mk node ?nn ?i] =>
    rewrite (push_issue_object mk nn i)
  | |- context [if ?b then _ else _] => destruct b eqn:?
  | _ => progress cbn [bind or_b and_b or_v is_truthy not_b is_ok negb]
  end.

Lemma check_llm02_returns nn : is_ok (check_llm02 node nn []) = true.
Proof. unfold check_llm02. repeat returns_step; reflexivity. Qed.
Lemma check_llm03_returns nn : is_ok (check_llm03 node nn []) = true.
Proof. unfold check_llm03. repeat returns_step; reflexivity. Qed.
Lemma check_llm04_returns nn : is_ok (check_llm04 node nn []) = true.
Proof. unfold check_llm04. repeat returns_step; reflexivity. Qed.
Lemma check_llm07_returns nn : is_ok (check_llm07 node nn []) = true.
Proof. unfold check_llm07. repeat returns_step; reflexivity. Qed.
Lemma check_llm09_returns nn : is_ok (check_llm09 node nn []) = true.
Proof. unfold check_llm09. repeat returns_step; reflexivity. Qed.
Lemma check_llm10_returns nn : is_ok (check_llm10 node nn []) = true.
Proof. unfold check_llm10. repeat returns_step; reflexivity. Qed.
Lemma check_planning_returns nn : is_ok (check_planning node nn []) = true.
Proof. unfold check_planning. repeat returns_step; reflexivity. Qed.
Lemma check_memory_returns nn : is_ok (check_memory node nn []) = true.
Proof. unfold check_memory. repeat returns_step; reflexivity. Qed.
Lemma check_webhook_returns nn : is_ok (check_webhook node nn []) = true.
Proof.
  unfold check_webhook. unfold node at 4. cbn [get].
  repeat returns_step; reflexivity.
Qed.
Lemma check_social_media_returns nn :
  is_ok (check_social_media node nn []) = true.
Proof. unfold check_social_media. repeat returns_step; reflexivity. Qed.
Lemma check_database_returns nn : is_ok (check_database node nn []) = true.
Proof. unfold check_database. repeat returns_step; reflexivity. Qed.
Lemma check_file_system_returns nn :
  is_ok (check_file_system node nn []) = true.
Proof. unfold check_file_system. repeat returns_step; reflexivity. Qed.
Lemma check_code_execution_returns nn :
  is_ok (check_code_execution node nn []) = true.
Proof.
  rewrite (check_code_execution_spec node nn [] eq_refl). reflexivity.
Qed.
Lemma check_llm06_returns nn : is_ok (check_llm06 node nn []) = true.
Proof. rewrite (check_llm06_spec node nn [] eq_refl). reflexivity. Qed.


Lemma check_llm01_returns nn : is_ok (check_llm01 node nn []) = true.
Proof.
  unfold check_llm01. repeat rewrite type_includes_object.
  repeat rewrite parameter_object. unfold node. cbn [get bind].
  destruct (lookup (u"parameters") props) as [[ | b | x | s | r xs | r ps] | ];
    repeat match goal with
           | |- context [if ?b then _ else _] => destruct b eqn:?
           | |- context [match ?v with Some _ => _ | None => _ end] =>
             destruct v as [[ | | | | | ] | ] eqn:?
           | _ => progress cbn [bind or_b and_b or_v is_truthy not_b is_ok
                                     get push_issue Spec.prop truthy]
           end; try reflexivity; try discriminate.
Qed.

Lemma check_http_request_returns nn :
  is_ok (check_http_request node nn []) = true.
Proof.
  unfold check_http_request. repeat rewrite parameter_object.
  unfold node. cbn [get bind].
  destruct (lookup (u"parameters") props) as [[ | b | x | s | r xs | r ps] | ];
    repeat match goal with
           | |- context [if ?b then _ else _] => destruct b eqn:?
           | |- context [match ?v with Some _ => _ | None => _ end] =>
             destruct v as [[ | | | | | ] | ] eqn:?
           | _ => progress cbn [bind or_b and_b or_v is_truthy not_b is_ok
                                     get push_issue Spec.prop truthy]
           end; try reflexivity; try discriminate.
Qed.


Lemma check_llm08_returns nn :
  Str.includes t (u"agent") = false ->
  is_ok (check_llm08 node nn []) = true.
Proof.
  intros Hagent. unfold check_llm08.
  rewrite type_includes_object, Hagent. repeat rewrite parameter_object.
  unfold node. cbn [get bind or_b and_b is_truthy].
  destruct (truthy (Spec.prop (lookup (u"parameters") props) (u"tools")))
    eqn:Htools; cbn [bind]; [ | reflexivity].
  rewrite (get_prop _ _ (truthy_prop_not_nullish _ _ Htools)). cbn [bind].
  destruct (Spec.prop (lookup (u"parameters") props) (u"tools"))
    as [[ | b | x | s | r xs | r ps] | ]; cbn [isArray]; try reflexivity.
  cbn [get_opt get or_v bind]. change (Str.eqb (u"length") length_key) with true.
  cbv iota.
  unfold or_v. cbn [bind].
  destruct (truthy (Some (JNum (Num.of_nat (List.length xs)))));
    unfold Conv.greater_than; cbn [bind Conv.to_number];
    match goal with
    | |- context [if ?b then _ else _] => destruct b
    end; reflexivity.
Qed.

Lemma lookup_in (k : Str.t) (l : list (Str.t * json)) :
  In k (map fst l) ->
  exists k' v, lookup k l = Some v /\ In (k', v) l.
Proof.
  induction l as [ | [k0 v0] l IH]; simpl; [intros [] | ].
  intros H. destruct (Str.eqb k k0) eqn:E.
  - exists k0, v0. split; [reflexivity | left; reflexivity].
  - destruct H as [<- | H]; [rewrite Str_eqb_refl in E; discriminate | ].
    destruct (IH H) as [k' [v [Hl Hin]]]. exists k', v. split; [exact Hl | ].
    right. exact Hin.
Qed.

Lemma for_each_returns {A St} (f : A -> St -> result St) (xs : list A) :
  (forall x s, In x xs -> is_ok (f x s) = true) ->
  forall s, is_ok (for_each f xs s) = true.
Proof.
  induction xs as [ | x xs IH]; intros H s; simpl; [reflexivity | ].
  pose proof (H x s (or_introl eq_refl)) as Hx.
  destruct (f x s) as [s' | e]; [ | discriminate]. cbn [bind].
  apply IH. intros y s0 Hy. apply H. right. exact Hy.
Qed.

Lemma check_credentials_returns nn issues :
  Spec.plain_credentials node = true ->
  is_ok (check_credentials node nn issues) = true.
Proof.
  unfold Spec.plain_credentials, check_credentials, node.
  change (Spec.prop (Some (JObj ref props)) (u"credentials"))
    with (lookup (u"credentials") props).
  cbn [get bind].
  destruct (lookup (u"credentials") props) as [[ | b | x | s | r xs | r creds] | ];
    try (intros H; apply negb_true_iff in H; rewrite H; reflexivity);
    try reflexivity.
  intros Hall. rewrite forallb_forall in Hall.
  cbn [truthy keys entries own_entries bind].
  apply for_each_returns. intros credType s Hin.
  destruct (lookup_in _ _ Hin) as [k' [v [Hl Hv]]].
  cbn [get bind]. rewrite Hl.
  pose proof (Hall _ Hv) as Hnn. cbn [snd] in Hnn. apply negb_true_iff in Hnn.
  rewrite (get_prop _ _ Hnn). cbn [bind].
  destruct (truthy (Spec.prop (Some v) (u"id"))); reflexivity.
Qed.


Lemma for_each_checks_return (nn : value) cs :
  Forall (fun c => Spec.appends (c node nn) /\ is_ok (c node nn []) = true) cs ->
  forall issues, is_ok (for_each (fun c => c node nn) cs issues) = true.
Proof.
  induction 1 as [ | c cs [Happ Hok] Hrest IH]; intros issues;
    cbn [for_each]; [reflexivity | ].
  rewrite (Happ issues).
  destruct (c node nn []) as [added | e]; [ | discriminate]. cbn [bind].
  apply IH.
Qed.

(** [checkNodeSecurity] returns for an object node whose type is a string
    without [agent] in it and whose credentials are plain. *)
Lemma checkNodeSecurity_returns (issues : list SecurityIssue) :
  Str.includes t (u"agent") = false ->
  Spec.plain_credentials node = true ->
  is_ok (checkNodeSecurity node issues) = true.
Proof.
  intros Hagent Hcreds. unfold checkNodeSecurity.
  rewrite (nodeName_spec node eq_refl). cbn [bind].
  rewrite type_includes_object. cbn [bind].
  destruct (Str.includes t (u"stickyNote")); [reflexivity | ].
  apply for_each_checks_return. unfold checks.
  apply Forall_cons; [split; [apply check_llm01_appends | apply check_llm01_returns] | ].
  apply Forall_cons; [split; [apply check_llm02_appends | apply check_llm02_returns] | ].
  apply Forall_cons; [split; [apply check_llm03_appends | apply check_llm03_returns] | ].
  apply Forall_cons; [split; [apply check_llm04_appends | apply check_llm04_returns] | ].
  apply Forall_cons; [split; [apply check_llm06_appends | apply check_llm06_returns] | ].
  apply Forall_cons; [split; [apply check_llm07_appends | apply check_llm07_returns] | ].
  apply Forall_cons;
    [split; [apply check_llm08_appends | apply check_llm08_returns, Hagent] | ].
  apply Forall_cons; [split; [apply check_llm09_appends | apply check_llm09_returns] | ].
  apply Forall_cons; [split; [apply check_llm10_appends | apply check_llm10_returns] | ].
  apply Forall_cons; [split; [apply check_planning_appends | apply check_planning_returns] | ].
  apply Forall_cons; [split; [apply check_memory_appends | apply check_memory_returns] | ].
  apply Forall_cons;
    [split; [apply check_credentials_appends
            | apply check_credentials_returns, Hcreds] | ].
  apply Forall_cons;
    [split; [apply check_code_execution_appends
            | apply check_code_execution_returns] | ].
  apply Forall_cons;
    [split; [apply check_http_request_appends
            | apply check_http_request_returns] | ].
  apply Forall_cons; [split; [apply check_webhook_appends | apply check_webhook_returns] | ].
  apply Forall_cons;
    [split; [apply check_social_media_appends
            | apply check_social_media_returns] | ].
  apply Forall_cons; [split; [apply check_database_appends | apply check_database_returns] | ].
  apply Forall_cons;
    [split; [apply check_file_system_appends
            | apply check_file_system_returns] | ].
  apply Forall_nil.
Qed.

End ObjectNode.

Lemma typed_node_is_object (node : value) (t : Str.t) :
  Spec.prop node (u"type") = Some (JStr t) ->
  exists ref props,
    node = Some (JObj ref props) /\ lookup (u"type") props = Some (JStr t).
Proof.
  destruct node as [[ | b | x | s | r xs | r props] | ];
    try (intros H; vm_compute in H; discriminate).
  intros H. exists r, props. split; [reflexivity | exact H].
Qed.

(** ** Sensitive information disclosure *)

(** C6, counterexample: the only string value of the parameters holds the
    word password twice. As the claim counts, two findings are due; the
    check appends one, and so does the whole of [checkNodeSecurity]. *)
Lemma C6_counterexample :
  JSONParser.parse Inputs.password_twice
    = Ok (JObj 0 [(u"id", JStr (u"1")); (u"type", JStr (u"x"));
                  (u"parameters",
                   JObj 1 [(u"a", JStr (u"password password"))])]) /\
  Spec.findings_per_occurrence
    (JObj 1 [(u"a", JStr (u"password password"))]) = 2 /\
  check_llm06
    (Some (JObj 0 [(u"id", JStr (u"1")); (u"type", JStr (u"x"));
                   (u"parameters",
                    JObj 1 [(u"a", JStr (u"password password"))])]))
    (Some (JStr (u"1"))) []
    = Ok [llm06_issue (u"Password") (Some (JStr (u"1"))) (Some (JStr (u"1")))] /\
  checkNodeSecurity
    (Some (JObj 0 [(u"id", JStr (u"1")); (u"type", JStr (u"x"));
                   (u"parameters",
                    JObj 1 [(u"a", JStr (u"password password"))])])) []
    = Ok [llm06_issue (u"Password") (Some (JStr (u"1"))) (Some (JStr (u"1")))].
Proof.
  repeat split; vm_compute; reflexivity.
Qed.

(** C6, amended: for a node with parameters the check walks every string
    value of the parameter tree and appends one high-severity finding for
    each pattern of the fixed set that matches the string, however many
    times the pattern occurs in it; these are the findings of the category
    among those [checkNodeSecurity] appends for a node that is not an
    annotation. *)
Theorem C6_sensitive_findings :
  forall (ref : N) (props : list (Str.t * json)) (nodeName : value)
         (issues : list SecurityIssue),
    check_llm06 (Some (JObj ref props)) nodeName issues
    = Ok (issues ++ Spec.sensitive_findings (Some (JObj ref props)) nodeName) /\
    Forall (fun i => severity i = high /\
                     type i = u"LLM-06: Sensitive Information Disclosure")
           (Spec.sensitive_findings (Some (JObj ref props)) nodeName) /\
    (forall obj,
        lookup (u"parameters") props = Some obj ->
        truthy (Some obj) = true ->
        Spec.sensitive_findings (Some (JObj ref props)) nodeName
        = flat_map
            (fun text =>
               map (fun p => llm06_issue (type_ p) (lookup (u"id") props)
                                         nodeName)
                   (filter (fun p => Regex.test (pattern p) text)
                           sensitivePatterns))
            (Spec.strings_of obj)) /\
    (forall issues',
        checkNodeSecurity (Some (JObj ref props)) issues = Ok issues' ->
        Spec.is_annotation (JObj ref props) = false ->
        Spec.in_category (u"LLM-06: Sensitive Information Disclosure") issues'
        = Spec.in_category (u"LLM-06: Sensitive Information Disclosure") issues
          ++ Spec.sensitive_findings (Some (JObj ref props))
               (Spec.node_name (Some (JObj ref props)))).
Proof.
  intros ref props nodeName issues.
  split; [apply check_llm06_spec; reflexivity | ].
  split; [apply sensitive_findings_high | ].
  split.
  - intros obj Hobj Ht. unfold Spec.sensitive_findings.
    change (Spec.prop (Some (JObj ref props)) (u"parameters"))
      with (lookup (u"parameters") props).
    rewrite Hobj, Ht. rewrite map_flat_map. reflexivity.
  - intros issues' Hrun Hann.
    apply checkNodeSecurity_sensitive; [exact Hrun | ].
    destruct (checkNodeSecurity_run _ _ _ Hrun) as [_ [sticky [Hs _]]].
    unfold Spec.is_annotation in Hann. rewrite Hs in Hann. rewrite Hs, Hann.
    reflexivity.
Qed.

(** ** Code execution *)

Lemma code_execution_type (t : Str.t) :
  array_includes codeExecutionNodes (Some (JStr t)) = true <->
  In t codeExecutionNodes.
Proof.
  unfold array_includes. rewrite existsb_exists. split.
  - intros [x [Hx Heq]]. simpl in Heq. apply Str_eqb_eq in Heq. subst. exact Hx.
  - intros H. exists t. split; [exact H | ]. simpl. apply Str_eqb_refl.
Qed.

Lemma code_execution_not_sticky (t : Str.t) :
  In t codeExecutionNodes -> Str.includes t (u"stickyNote") = false.
Proof.
  intros [<- | [<- | [<- | []]]]; vm_compute; reflexivity.
Qed.

Lemma code_execution_not_agent (t : Str.t) :
  In t codeExecutionNodes -> Str.includes t (u"agent") = false.
Proof.
  intros [<- | [<- | [<- | []]]]; vm_compute; reflexivity.
Qed.

(** C7: the check compares [node.type] for equality with the three
    identifiers. For a node whose type is a string, the check appends the
    high-severity finding exactly when the type is one of the three, and
    appends nothing for any other type, whatever it contains; the same
    holds of the findings of that category among those
    [checkNodeSecurity] appends; and for a node of one of the three types
    whose credentials are plain, [checkNodeSecurity] does return, with the
    finding. *)
Theorem C7_code_execution_exact :
  forall (node nodeName : value) (t : Str.t) (issues : list SecurityIssue),
    Spec.prop node (u"type") = Some (JStr t) ->
    (In t codeExecutionNodes ->
     check_code_execution node nodeName issues
     = Ok (issues ++
           [code_execution_issue (Spec.prop node (u"id")) nodeName]) /\
     severity (code_execution_issue (Spec.prop node (u"id")) nodeName) = high /\
     type (code_execution_issue (Spec.prop node (u"id")) nodeName)
     = u"Code Execution Risk") /\
    (~ In t codeExecutionNodes ->
     check_code_execution node nodeName issues = Ok issues) /\
    (forall issues',
        checkNodeSecurity node issues = Ok issues' ->
        (In t codeExecutionNodes ->
         Spec.in_category (u"Code Execution Risk") issues'
         = Spec.in_category (u"Code Execution Risk") issues ++
           [code_execution_issue (Spec.prop node (u"id"))
                                 (Spec.node_name node)]) /\
        (~ In t codeExecutionNodes ->
         Spec.in_category (u"Code Execution Risk") issues'
         = Spec.in_category (u"Code Execution Risk") issues)) /\
    (In t codeExecutionNodes ->
     Spec.plain_credentials node = true ->
     exists issues',
       checkNodeSecurity node issues = Ok issues' /\
       In (code_execution_issue (Spec.prop node (u"id")) (Spec.node_name node))
          issues').
Proof.
  intros node nodeName t issues Ht.
  assert (Hn : nullish node = false).
  { destruct node as [[ | | | | | ] | ]; try reflexivity;
      vm_compute in Ht; discriminate. }
  pose proof (code_execution_type t) as Hexact.
  assert (Hengine :
            forall issues',
              checkNodeSecurity node issues = Ok issues' ->
              (In t codeExecutionNodes ->
               Spec.in_category (u"Code Execution Risk") issues'
               = Spec.in_category (u"Code Execution Risk") issues ++
                 [code_execution_issue (Spec.prop node (u"id"))
                                       (Spec.node_name node)]) /\
              (~ In t codeExecutionNodes ->
               Spec.in_category (u"Code Execution Risk") issues'
               = Spec.in_category (u"Code Execution Risk") issues)).
  { intros issues' Hrun.
    destruct (checkNodeSecurity_run _ _ _ Hrun) as [_ [sticky [Hs Hchecks]]].
    assert (Hsticky : sticky = Str.includes t (u"stickyNote")).
    { unfold type_includes in Hs. rewrite (get_prop _ _ Hn), Ht in Hs.
      cbn [bind call_includes] in Hs. injection Hs as <-. reflexivity. }
    split.
    - intros Hin.
      rewrite (code_execution_not_sticky t Hin) in Hsticky. subst sticky.
      rewrite (checkNodeSecurity_code_execution _ _ _ Hrun Hs), Ht.
      rewrite (proj2 Hexact Hin). reflexivity.
    - intros Hnot. destruct sticky.
      + subst issues'. reflexivity.
      + rewrite (checkNodeSecurity_code_execution _ _ _ Hrun Hs), Ht.
        destruct (array_includes codeExecutionNodes (Some (JStr t))) eqn:E.
        * exfalso. apply Hnot, Hexact. reflexivity.
        * rewrite app_nil_r. reflexivity. }
  split; [ | split; [ | split; [exact Hengine | ]]].
  - intros Hin. rewrite (check_code_execution_spec _ _ _ Hn), Ht.
    rewrite (proj2 Hexact Hin). repeat split.
  - intros Hnot. rewrite (check_code_execution_spec _ _ _ Hn), Ht.
    destruct (array_includes codeExecutionNodes (Some (JStr t))) eqn:E.
    + exfalso. apply Hnot, Hexact. reflexivity.
    + rewrite app_nil_r. reflexivity.
  - intros Hin Hcreds.
    destruct (typed_node_is_object _ _ Ht) as [ref [props [-> Hprops]]].
    pose proof (checkNodeSecurity_returns ref props t Hprops issues
                  (code_execution_not_agent t Hin) Hcreds) as Hok.
    destruct (checkNodeSecurity (Some (JObj ref props)) issues)
      as [issues' | e] eqn:Hrun; [ | discriminate].
    exists issues'. split; [reflexivity | ].
    destruct (Hengine issues' eq_refl) as [Hcat _].
    specialize (Hcat Hin).
    assert (Hmem : In (code_execution_issue
                         (Spec.prop (Some (JObj ref props)) (u"id"))
                         (Spec.node_name (Some (JObj ref props))))
                      (Spec.in_category (u"Code Execution Risk") issues')).
    { rewrite Hcat. apply in_or_app. right. left. reflexivity. }
    unfold Spec.in_category in Hmem. apply filter_In in Hmem. apply Hmem.
Qed.

(** C7, witness: a code node with an [id]. *)
Lemma C7_witness :
  Spec.prop (Some (JObj 0 [(u"id", JStr (u"7"));
                           (u"type", JStr (u"n8n-nodes-base.code"))]))
            (u"type")
  = Some (JStr (u"n8n-nodes-base.code")) /\
  checkNodeSecurity
    (Some (JObj 0 [(u"id", JStr (u"7"));
                   (u"type", JStr (u"n8n-nodes-base.code"))])) []
  = Ok [code_execution_issue (Some (JStr (u"7"))) (Some (JStr (u"7")))] /\
  Spec.in_category (u"Code Execution Risk")
    [code_execution_issue (Some (JStr (u"7"))) (Some (JStr (u"7")))]
  = Spec.in_category (u"Code Execution Risk") [] ++
    [code_execution_issue
       (Spec.prop (Some (JObj 0 [(u"id", JStr (u"7"));
                                 (u"type", JStr (u"n8n-nodes-base.code"))]))
                  (u"id"))
       (Spec.node_name
          (Some (JObj 0 [(u"id", JStr (u"7"));
                         (u"type", JStr (u"n8n-nodes-base.code"))])))].
Proof.
  split; [reflexivity | ].
  split; [vm_compute; reflexivity | ].
  apply (C7_code_execution_exact
           (Some (JObj 0 [(u"id", JStr (u"7"));
                          (u"type", JStr (u"n8n-nodes-base.code"))]))
           None (u"n8n-nodes-base.code") [] eq_refl).
  - vm_compute. reflexivity.
  - left. reflexivity.
Defined.

(** ** The connection count *)

Lemma fold_left_count {A} (g : nat -> A -> nat) (f : A -> nat) :
  (forall acc x, g acc x = acc + f x) ->
  forall l acc, fold_left g l acc = acc + Spec.sum (map f l).
Proof.
  intros Hg l. induction l as [ | x l IH]; intros acc; simpl.
  - lia.
  - rewrite IH, Hg. lia.
Qed.

Lemma countOutputs_spec (outputs : json) (connectionCount : nat) :
  countOutputs outputs connectionCount
  = connectionCount + Spec.outputs_edges outputs.
Proof.
  destruct outputs; simpl; try lia.
  apply fold_left_count.
  intros acc [ | | | | r es | ]; simpl; lia.
Qed.

Lemma countNodeConnections_spec (nodeConnections : json) (connectionCount : nat) :
  countNodeConnections nodeConnections connectionCount
  = connectionCount +
    (if Spec.is_object (Some nodeConnections)
     then Spec.sum (map Spec.outputs_edges (own_values nodeConnections))
     else 0).
Proof.
  unfold countNodeConnections.
  destruct nodeConnections as [ | b | x | str | r xs | r props];
    try (simpl; lia).
  - destruct (truthy (Some (JBool b))); simpl; lia.
  - destruct (truthy (Some (JNum x))); simpl; lia.
  - destruct (truthy (Some (JStr str))); simpl; lia.
  - change (truthy (Some (JArr r xs)) &&
            Str.eqb (typeof (Some (JArr r xs))) (u"object")) with true.
    cbn [Spec.is_object].
    apply fold_left_count. intros. apply countOutputs_spec.
  - change (truthy (Some (JObj r props)) &&
            Str.eqb (typeof (Some (JObj r props))) (u"object")) with true.
    cbn [Spec.is_object].
    apply fold_left_count. intros. apply countOutputs_spec.
Qed.

Lemma countConnections_walked (connections : value) :
  countConnections connections = Spec.edge_total_walked connections.
Proof.
  unfold countConnections, Spec.edge_total_walked.
  destruct connections as [c | ]; [ | reflexivity].
  destruct (truthy (Some c)); [ | reflexivity].
  rewrite fold_left_count
    with (f := fun nc => if Spec.is_object (Some nc)
                         then Spec.sum (map Spec.outputs_edges (own_values nc))
                         else 0).
  - reflexivity.
  - intros. apply countNodeConnections_spec.
Qed.

Lemma sum_map_ext {A} (f g : A -> nat) (l : list A) :
  (forall x, In x l -> f x = g x) ->
  Spec.sum (map f l) = Spec.sum (map g l).
Proof.
  induction l as [ | x l IH]; intros H; simpl; [reflexivity | ].
  rewrite (H x (or_introl eq_refl)), IH; [reflexivity | ].
  intros y Hy. apply H. right. exact Hy.
Qed.

Lemma walked_well_formed (c : json) :
  Spec.well_formed_connections c = true ->
  Spec.edge_total_walked (Some c) = Spec.edge_total (Some c).
Proof.
  destruct c as [ | | | | | r sources]; simpl; try discriminate.
  intros H. rewrite forallb_forall in H.
  apply sum_map_ext. intros nc Hnc. specialize (H nc Hnc).
  destruct nc; try discriminate. reflexivity.
Qed.

(** C8, counterexample: under the source node [A] the map holds an array
    where a mapping of categories is expected; the branch is walked like a
    mapping and counts for one connection, not for 0. *)
Lemma C8_counterexample :
  JSONParser.parse Inputs.array_branch
    = Ok (JObj 0 [(u"A", JArr 1 [JArr 2 [JArr 3
            [JObj 4 [(u"node", JStr (u"B"))]]]])]) /\
  Spec.mapping_values
    (JArr 1 [JArr 2 [JArr 3 [JObj 4 [(u"node", JStr (u"B"))]]]]) = [] /\
  Spec.edge_total
    (Some (JObj 0 [(u"A", JArr 1 [JArr 2 [JArr 3
            [JObj 4 [(u"node", JStr (u"B"))]]]])])) = 0 /\
  countConnections
    (Some (JObj 0 [(u"A", JArr 1 [JArr 2 [JArr 3
            [JObj 4 [(u"node", JStr (u"B"))]]]])])) = 1.
Proof.
  repeat split; vm_compute; reflexivity.
Qed.

(** C8, amended: the connection count is the sum of the lengths of the
    arrays found three levels down, where at the two upper levels the
    values of any object, mapping or array, are walked, and at the two lower
    levels only arrays count; a branch of another shape counts for 0; no
    step of the count can throw. On a well-formed map (mapping, mapping,
    array of arrays) this is the sum over all innermost edge arrays; for an
    absent map the count is 0. *)
Theorem C8_connection_count :
  forall connections : value,
    countConnections connections = Spec.edge_total_walked connections /\
    (forall c, connections = Some c ->
               Spec.well_formed_connections c = true ->
               countConnections connections = Spec.edge_total connections) /\
    countConnections None = 0 /\
    (forall nodeConnections n,
        Spec.is_object (Some nodeConnections) = false ->
        countNodeConnections nodeConnections n = n) /\
    (forall outputs n, Spec.is_array outputs = false ->
                       countOutputs outputs n = n).
Proof.
  intros connections. split; [apply countConnections_walked | ].
  split; [ | split; [reflexivity | split]].
  - intros c -> Hwf. rewrite countConnections_walked.
    apply walked_well_formed. exact Hwf.
  - intros nc n H. rewrite countNodeConnections_spec, H. lia.
  - intros outputs n H. rewrite countOutputs_spec.
    destruct outputs; simpl in *; try lia. discriminate.
Qed.

(** ** The node loop *)

Lemma checkNodeSecurity_findings (node : json) (issues issues' : list SecurityIssue) :
  checkNodeSecurity (Some node) issues = Ok issues' ->
  issues' = issues ++ Spec.node_findings node.
Proof.
  intros H.
  destruct (appends_result _ _ _ (checkNodeSecurity_appends (Some node)) H)
    as [added [Hadded ->]].
  unfold Spec.node_findings. rewrite Hadded. reflexivity.
Qed.

Lemma label_spec (node : json) (index : nat) (text : Str.t) :
  (d <- displayName (Some node) index ;; to_string d) = Ok text ->
  Spec.label node index = text.
Proof. intros H. unfold Spec.label. rewrite H. reflexivity. Qed.

Lemma validateNode_spec (node : json) (index : nat) (l l' : Lists) :
  validateNode node index l = Ok l' ->
  l_errors l' = l_errors l ++ Spec.node_errors node index /\
  l_warnings l' = l_warnings l ++ Spec.node_warnings node index /\
  l_securityIssues l' = l_securityIssues l ++ Spec.node_findings node.
Proof.
  unfold validateNode. intros H.
  destruct (get (Some node) (u"id")) as [id | e] eqn:Hid; cbn [bind] in H;
    [ | discriminate].
  pose proof (get_ok_not_nullish _ _ _ Hid) as Hn.
  rewrite (get_prop _ _ Hn) in Hid. injection Hid as <-.
  rewrite !(get_prop _ _ Hn) in H. cbn [bind] in H.
  unfold Spec.node_errors, Spec.node_warnings.
  destruct (truthy (Spec.prop (Some node) (u"type"))).
  - cbn [bind] in H.
    destruct (truthy (Spec.prop (Some node) (u"typeVersion"))).
    + cbn [bind] in H.
      destruct (checkNodeSecurity (Some node) (l_securityIssues l))
        as [issues' | e] eqn:Hsec; cbn [bind] in H; [ | discriminate].
      injection H as <-. cbn [l_errors l_warnings l_securityIssues].
      rewrite (checkNodeSecurity_findings _ _ _ Hsec).
      rewrite !app_nil_r.
      destruct (truthy (Spec.prop (Some node) (u"id"))); unfold push;
        rewrite ?app_nil_r; auto.
    + destruct (d <- displayName (Some node) index ;; to_string d)
        as [text | e] eqn:Hlabel; cbn [bind] in H; [ | discriminate].
      destruct (checkNodeSecurity (Some node) (l_securityIssues l))
        as [issues' | e] eqn:Hsec; cbn [bind] in H; [ | discriminate].
      injection H as <-. cbn [l_errors l_warnings l_securityIssues].
      rewrite (checkNodeSecurity_findings _ _ _ Hsec), (label_spec _ _ _ Hlabel).
      rewrite !app_nil_r.
      destruct (truthy (Spec.prop (Some node) (u"id"))); unfold push;
        rewrite ?app_nil_r; auto.
  - destruct (d <- displayName (Some node) index ;; to_string d)
      as [text | e] eqn:Hlabel; cbn [bind] in H; [ | discriminate].
    destruct (truthy (Spec.prop (Some node) (u"typeVersion")));
      cbn [bind] in H;
      (destruct (checkNodeSecurity (Some node) (l_securityIssues l))
         as [issues' | e] eqn:Hsec; cbn [bind] in H; [ | discriminate]);
      injection H as <-; cbn [l_errors l_warnings l_securityIssues];
      rewrite (checkNodeSecurity_findings _ _ _ Hsec), (label_spec _ _ _ Hlabel);
      rewrite ?app_nil_r;
      (destruct (truthy (Spec.prop (Some node) (u"id"))); unfold push;
       cbn [app]; rewrite <- ?app_assoc; auto).
Qed.

Lemma node_loop_spec (ns : list json) :
  forall (i : nat) (l l' : Lists),
    for_each_indexed validateNode ns i l = Ok l' ->
    l_errors l' =
      l_errors l ++
      flat_map (fun p => Spec.node_errors (snd p) (fst p)) (Spec.indexed ns i) /\
    l_warnings l' =
      l_warnings l ++
      flat_map (fun p => Spec.node_warnings (snd p) (fst p)) (Spec.indexed ns i) /\
    l_securityIssues l' =
      l_securityIssues l ++ flat_map Spec.node_findings ns.
Proof.
  induction ns as [ | node ns IH]; intros i l l'; cbn [for_each_indexed].
  - intros E. injection E as <-. cbn. rewrite !app_nil_r. auto.
  - destruct (validateNode node i l) as [mid | e] eqn:Hnode; cbn [bind];
      [ | discriminate].
    intros Hrest.
    destruct (validateNode_spec _ _ _ _ Hnode) as [He [Hw Hs]].
    destruct (IH _ _ _ Hrest) as [He' [Hw' Hs']].
    unfold Spec.indexed in *. cbn [List.length seq combine flat_map fst snd].
    rewrite He', Hw', Hs', He, Hw, Hs, <- !app_assoc. auto.
Qed.

Lemma actualNodes_spec (ns kept : list json) :
  filter_m notStickyNote ns = Ok kept ->
  kept = filter (fun n => negb (Spec.is_annotation n)) ns.
Proof.
  revert kept. induction ns as [ | n ns IH]; intros kept; simpl.
  - intros E. injection E as <-. reflexivity.
  - unfold notStickyNote at 1, not_b, Spec.is_annotation.
    destruct (type_includes (Some n) (u"stickyNote")) as [b | e];
      cbn [bind]; [ | discriminate].
    destruct (filter_m notStickyNote ns) as [r | e]; cbn [bind];
      [ | discriminate].
    intros E. injection E as <-. rewrite (IH r eq_refl).
    destruct b; reflexivity.
Qed.

(** The report of a completed validation of a document with a [nodes]
    array. *)
Lemma validate_spec (data : value) (r : ValidationResult) (ref : N)
  (ns : list json) :
  validateN8nWorkflow data = Ok r ->
  Spec.prop data (u"nodes") = Some (JArr ref ns) ->
  isN8nWorkflow r = true /\
  errors r =
    Spec.structure_errors data ++
    flat_map (fun p => Spec.node_errors (snd p) (fst p)) (Spec.indexed ns 0) /\
  warnings r =
    flat_map (fun p => Spec.node_warnings (snd p) (fst p)) (Spec.indexed ns 0) /\
  securityIssues r = flat_map Spec.node_findings ns /\
  isValid r = match errors r with [] => true | _ => false end /\
  exists w,
    workflowInfo r = Some w /\
    nodes w = List.length (filter (fun n => negb (Spec.is_annotation n)) ns) /\
    connections w = countConnections (Spec.prop data (u"connections")).
Proof.
  intros H Hnodes. unfold validateN8nWorkflow in H.
  rewrite looksLikeWorkflow_spec in H. cbn [bind] in H.
  assert (Hd : nullish data = false).
  { destruct data as [[ | | | | | ] | ]; try reflexivity;
      vm_compute in Hnodes; discriminate. }
  assert (Hw : Spec.has_truthy_workflow_attribute data = true).
  { unfold Spec.has_truthy_workflow_attribute. rewrite Hnodes.
    destruct data as [[ | b | x | s | r' xs | r' props] | ];
      try (vm_compute in Hnodes; discriminate); reflexivity. }
  rewrite Hw in H. cbn [negb] in H.
  rewrite !(get_prop _ _ Hd) in H. cbn [bind] in H.
  rewrite Hnodes in H.
  match type of H with
  | bind (for_each_indexed _ _ _ ?init) _ = _ =>
    destruct (for_each_indexed validateNode ns 0 init) as [l | e] eqn:Hloop;
      cbn [bind] in H; [ | discriminate]
  end.
  destruct (metadataInfo data []) as [info0 | e]; cbn [bind] in H;
    [ | discriminate].
  cbn [call_filter] in H.
  destruct (filter_m notStickyNote ns) as [kept | e] eqn:Hkept;
    cbn [bind] in H; [ | discriminate].
  destruct (or_v _ _) as [name0 | e] in H; cbn [bind] in H; [ | discriminate].
  rewrite get_opt_prop in H. cbn [bind] in H.
  injection H as <-.
  destruct (node_loop_spec _ _ _ _ Hloop) as [He [Hwn Hs]].
  cbn [l_errors l_warnings l_securityIssues] in He, Hwn, Hs.
  cbn [isN8nWorkflow errors warnings securityIssues isValid workflowInfo].
  split; [reflexivity | ].
  split.
  { rewrite He. f_equal. unfold Spec.structure_errors. rewrite Hnodes.
    cbn [truthy isArray negb orb].
    destruct (negb (truthy (Spec.prop data (u"connections"))) ||
              negb (Str.eqb (typeof (Spec.prop data (u"connections")))
                            (u"object"))); reflexivity. }
  split; [exact Hwn | ].
  split; [exact Hs | ].
  split; [reflexivity | ].
  eexists. split; [reflexivity | ].
  cbn [nodes connections]. rewrite (actualNodes_spec _ _ Hkept). auto.
Qed.

(** ** Annotation nodes *)

Lemma indexed_nth (ns : list json) :
  forall (i k : nat) (node : json),
    nth_error ns k = Some node -> In (i + k, node) (Spec.indexed ns i).
Proof.
  unfold Spec.indexed.
  induction ns as [ | n ns IH]; intros i [ | k] node H; simpl in *;
    try discriminate.
  - injection H as <-. left. f_equal. lia.
  - right. replace (i + S k) with (S i + k) by lia. apply IH. exact H.
Qed.

Lemma node_loop_each (ns : list json) :
  forall (i : nat) (l l' : Lists),
    for_each_indexed validateNode ns i l = Ok l' ->
    forall k node,
      nth_error ns k = Some node ->
      exists mid mid', validateNode node (i + k) mid = Ok mid'.
Proof.
  induction ns as [ | n ns IH]; intros i l l' H [ | k] node Hk; simpl in *;
    try discriminate.
  - injection Hk as <-.
    destruct (validateNode n i l) as [mid | e] eqn:Hn; [ | discriminate].
    exists l, mid. rewrite Nat.add_0_r. exact Hn.
  - destruct (validateNode n i l) as [mid | e]; cbn [bind] in H;
      [ | discriminate].
    replace (i + S k) with (S i + k) by lia. apply (IH _ _ _ H). exact Hk.
Qed.

(** When the loop body needs the node's display name, its conversion to
    text did not throw. *)
Lemma validateNode_label (node : json) (index : nat) (l l' : Lists) :
  validateNode node index l = Ok l' ->
  truthy (Spec.prop (Some node) (u"type")) = false \/
  truthy (Spec.prop (Some node) (u"typeVersion")) = false ->
  (d <- displayName (Some node) index ;; to_string d)
  = Ok (Spec.label node index).
Proof.
  unfold validateNode. intros H Hneed.
  destruct (get (Some node) (u"id")) as [id | e] eqn:Hid; cbn [bind] in H;
    [ | discriminate].
  pose proof (get_ok_not_nullish _ _ _ Hid) as Hn.
  rewrite !(get_prop _ _ Hn) in H. cbn [bind] in H.
  unfold Spec.label.
  destruct (d <- displayName (Some node) index ;; to_string d)
    as [text | e]; [reflexivity | exfalso].
  destruct (truthy (Spec.prop (Some node) (u"type"))); cbn [bind] in H;
    [ | discriminate].
  destruct (truthy (Spec.prop (Some node) (u"typeVersion")));
    cbn [bind] in H; [ | discriminate].
  destruct Hneed; discriminate.
Qed.

Lemma validate_each_node (data : value) (r : ValidationResult) (ref : N)
  (ns : list json) :
  validateN8nWorkflow data = Ok r ->
  Spec.prop data (u"nodes") = Some (JArr ref ns) ->
  forall k node,
    nth_error ns k = Some node ->
    exists mid mid', validateNode node k mid = Ok mid'.
Proof.
  intros H Hnodes. unfold validateN8nWorkflow in H.
  destruct (looksLikeWorkflow data) as [[ | ] | e] eqn:Hlooks;
    cbn [bind negb] in H; try discriminate.
  - assert (Hd : nullish data = false).
    { destruct data as [[ | | | | | ] | ]; try reflexivity;
        vm_compute in Hnodes; discriminate. }
    rewrite !(get_prop _ _ Hd) in H. cbn [bind] in H. rewrite Hnodes in H.
    match type of H with
    | bind (for_each_indexed _ _ _ ?init) _ = _ =>
      destruct (for_each_indexed validateNode ns 0 init) as [l | e] eqn:Hloop;
        cbn [bind] in H; [ | discriminate]
    end.
    intros k node Hk. apply (node_loop_each _ _ _ _ Hloop k node Hk).
  - rewrite looksLikeWorkflow_spec in Hlooks. injection Hlooks as Hlooks.
    exfalso. revert Hlooks.
    unfold Spec.has_truthy_workflow_attribute. rewrite Hnodes.
    destruct data as [[ | b | x | s | r' xs | r' props] | ];
      try (vm_compute in Hnodes; discriminate); discriminate.
Qed.

Lemma sticky_note_skipped (node : value) (issues : list SecurityIssue) :
  type_includes node (u"stickyNote") = Ok true ->
  checkNodeSecurity node issues = Ok issues.
Proof.
  intros Hs. unfold checkNodeSecurity.
  assert (Hn : nullish node = false).
  { unfold type_includes in Hs.
    destruct node as [[ | | | | | ] | ]; try reflexivity;
      simpl in Hs; discriminate. }
  rewrite (nodeName_spec _ Hn). cbn [bind]. rewrite Hs. reflexivity.
Qed.

(** C10: in a report the validator returns, a sticky note is checked like
    any node of the [nodes] array: without an [id] it puts the error naming
    its index in the report (which is then not valid), without a
    [typeVersion] the warning naming it; [checkNodeSecurity] appends no
    finding for it, so that the findings of the report are those of the
    other nodes; and the node count of the summary leaves it out. *)
Theorem C10_sticky_note_validated :
  forall (data : value) (r : ValidationResult) (ref : N) (ns : list json)
         (index : nat) (node : json),
    validateN8nWorkflow data = Ok r ->
    Spec.prop data (u"nodes") = Some (JArr ref ns) ->
    nth_error ns index = Some node ->
    type_includes (Some node) (u"stickyNote") = Ok true ->
    (truthy (Spec.prop (Some node) (u"id")) = false ->
     In (missing_id_error index) (errors r) /\ isValid r = false) /\
    (truthy (Spec.prop (Some node) (u"typeVersion")) = false ->
     exists text,
       (d <- displayName (Some node) index ;; to_string d) = Ok text /\
       In (missing_typeVersion_warning text) (warnings r)) /\
    (forall issues, checkNodeSecurity (Some node) issues = Ok issues) /\
    Spec.node_findings node = [] /\
    securityIssues r = flat_map Spec.node_findings ns /\
    exists w,
      workflowInfo r = Some w /\
      Spec.is_annotation node = true /\
      nodes w = List.length (filter (fun n => negb (Spec.is_annotation n)) ns).
Proof.
  intros data r ref ns index node Hval Hnodes Hnth Hsticky.
  destruct (validate_spec _ _ _ _ Hval Hnodes)
    as [_ [Herr [Hwarn [Hfind [Hvalid [w [Hw [Hcount _]]]]]]]].
  pose proof (indexed_nth ns 0 index node Hnth) as Hin. cbn [plus] in Hin.
  split; [ | split; [ | split; [ | split; [ | split]]]].
  - intros Hid.
    assert (In (missing_id_error index) (errors r)) as Hmem.
    { rewrite Herr. apply in_or_app. right. apply in_flat_map.
      exists (index, node). split; [exact Hin | ].
      unfold Spec.node_errors. cbn [fst snd]. rewrite Hid.
      left. reflexivity. }
    split; [exact Hmem | ].
    rewrite Hvalid. destruct (errors r); [destruct Hmem | reflexivity].
  - intros Htv.
    destruct (validate_each_node _ _ _ _ Hval Hnodes index node Hnth)
      as [mid [mid' Hbody]].
    exists (Spec.label node index). split.
    + apply (validateNode_label _ _ _ _ Hbody). right. exact Htv.
    + rewrite Hwarn. apply in_flat_map.
      exists (index, node). split; [exact Hin | ].
      unfold Spec.node_warnings. cbn [fst snd]. rewrite Htv.
      left. reflexivity.
  - intros issues. apply sticky_note_skipped. exact Hsticky.
  - unfold Spec.node_findings.
    rewrite (sticky_note_skipped _ [] Hsticky). reflexivity.
  - exact Hfind.
  - exists w. split; [exact Hw | ]. split; [ | exact Hcount].
    unfold Spec.is_annotation. rewrite Hsticky. reflexivity.
Qed.

(** C10, witness: a sticky note without [id] and [typeVersion], followed
    by a code node. *)
Lemma C10_witness :
  exists r,
    validateN8nWorkflow
      (Some (JObj 0
         [(u"nodes",
           JArr 1 [JObj 2 [(u"type", JStr (u"n8n-nodes-base.stickyNote"))];
                   JObj 3 [(u"id", JStr (u"2"));
                           (u"type", JStr (u"n8n-nodes-base.code"));
                           (u"typeVersion", JNum (Num.of_Z 2))]]);
          (u"connections", JObj 4 [])])) = Ok r /\
    type_includes
      (Some (JObj 2 [(u"type", JStr (u"n8n-nodes-base.stickyNote"))]))
      (u"stickyNote") = Ok true /\
    In (missing_id_error 0) (errors r) /\
    isValid r = false /\
    warnings r = [missing_typeVersion_warning (u"0")] /\
    securityIssues r
    = [code_execution_issue (Some (JStr (u"2"))) (Some (JStr (u"2")))].
Proof.
  eexists.
  split; [vm_compute; reflexivity | ].
  split; [vm_compute; reflexivity | ].
  split; [ | split; [ | split; vm_compute; reflexivity]].
  - refine (proj1 (proj1 (C10_sticky_note_validated
             (Some (JObj 0
                [(u"nodes",
                  JArr 1 [JObj 2 [(u"type", JStr (u"n8n-nodes-base.stickyNote"))];
                          JObj 3 [(u"id", JStr (u"2"));
                                  (u"type", JStr (u"n8n-nodes-base.code"));
                                  (u"typeVersion", JNum (Num.of_Z 2))]]);
                 (u"connections", JObj 4 [])]))
             _ 1 _ 0 (JObj 2 [(u"type", JStr (u"n8n-nodes-base.stickyNote"))])
             _ _ _ _) _)).
    + vm_compute. reflexivity.
    + vm_compute. reflexivity.
    + reflexivity.
    + vm_compute. reflexivity.
    + vm_compute. reflexivity.
  - vm_compute. reflexivity.
Defined.

(** ** Defects of the validator *)

(** C4, at the failing input: for the document with a [name] and no
    [nodes], the report does not hold the error about the [nodes] array
    (nor the one about [connections]): reading [data.nodes.filter] throws, and
    the report is the one of the [catch] clause. *)
Theorem C4_nodes_error_lost :
  forall (error_message : js_error -> Str.t) (st : State),
    validateN8nWorkflow (Some (JObj 0 [(u"name", JStr (u"Demo"))]))
      = Throw (TypeError_read_property None (u"filter")) /\
    analyzeJson error_message Inputs.name_only st =
      {| result_ :=
           Some (failure (u"Invalid JSON format: " ++
                          error_message
                            (TypeError_read_property None (u"filter"))));
         workflowData := Some JNull |}.
Proof.
  intros error_message st. split; vm_compute; reflexivity.
Qed.

(** C5, at the failing input: for a node with an [id] and no [type], the
    report holds neither the error about the missing [type] nor the warning
    about the missing [typeVersion]: [node.type.includes] throws in
    [checkNodeSecurity], and the report is the one of the [catch] clause. *)
Theorem C5_type_error_lost :
  forall (error_message : js_error -> Str.t) (st : State),
    validateN8nWorkflow
      (Some (JObj 0 [(u"nodes", JArr 1 [JObj 2 [(u"id", JStr (u"1"))]]);
                     (u"connections", JObj 3 [])]))
      = Throw (TypeError_read_property None (u"includes")) /\
    analyzeJson error_message Inputs.node_without_type st =
      {| result_ :=
           Some (failure (u"Invalid JSON format: " ++
                          error_message
                            (TypeError_read_property None (u"includes"))));
         workflowData := Some JNull |}.
Proof.
  intros error_message st. split; vm_compute; reflexivity.
Qed.

(** C4 in general: whenever a document taken for a workflow has no
    [nodes] array, validation throws, and no report of the validator
    reaches the caller. *)
Lemma validate_throws_without_nodes_array (data : value) :
  Spec.has_truthy_workflow_attribute data = true ->
  isArray (Spec.prop data (u"nodes")) = false ->
  exists e, validateN8nWorkflow data = Throw e.
Proof.
  intros Hw Harr. unfold validateN8nWorkflow.
  rewrite looksLikeWorkflow_spec, Hw. cbn [bind negb].
  assert (Hd : nullish data = false).
  { apply truthy_not_nullish.
    unfold Spec.has_truthy_workflow_attribute in Hw.
    destruct (truthy data); [reflexivity | discriminate]. }
  rewrite !(get_prop _ _ Hd). cbn [bind].
  destruct (Spec.prop data (u"nodes")) as [[ | b | x | s | r xs | r props] | ]
    eqn:Hnodes; try discriminate; cbn [bind];
    (destruct (metadataInfo data []) as [info0 | e]; cbn [bind];
     [ | eexists; reflexivity]);
    cbn [call_filter bind]; eexists; reflexivity.
Qed.

Lemma includes_ok_typed (node : json) (s : Str.t) (b : bool) :
  type_includes (Some node) s = Ok b -> Spec.typed node = true.
Proof.
  unfold type_includes, Spec.typed, Spec.prop.
  destruct (get (Some node) (u"type")) as [[[ | | | | | ] | ] | e];
    cbn [bind call_includes]; try discriminate; reflexivity.
Qed.

(** Every node of a document whose validation completes has a [type]
    that is a string or an array. *)
Lemma completed_validation_typed (data : value) (r : ValidationResult)
  (ref : N) (ns : list json) :
  validateN8nWorkflow data = Ok r ->
  Spec.prop data (u"nodes") = Some (JArr ref ns) ->
  forallb Spec.typed ns = true.
Proof.
  intros Hval Hnodes. apply forallb_forall. intros node Hin.
  destruct (In_nth_error _ _ Hin) as [k Hk].
  destruct (validate_each_node _ _ _ _ Hval Hnodes k node Hk)
    as [mid [mid' Hbody]].
  unfold validateNode in Hbody.
  repeat match type of Hbody with
         | bind ?e _ = Ok _ =>
           let H := fresh "H" in
           destruct e eqn:H; cbn [bind] in Hbody; [ | discriminate]
         end.
  match goal with
  | H : checkNodeSecurity _ _ = Ok _ |- _ =>
    destruct (checkNodeSecurity_run _ _ _ H) as [_ [sticky [Hs _]]]
  end.
  apply (includes_ok_typed _ _ _ Hs).
Qed.

(** X3. A node whose [type] is neither a string nor an array makes
    validation throw: wherever [nodes] is an array that holds such a node,
    [validateN8nWorkflow] ends with an exception and returns no report. *)
Lemma validate_throws_on_untyped_node (data : value) (ref : N)
  (ns : list json) (node : json) :
  Spec.prop data (u"nodes") = Some (JArr ref ns) ->
  In node ns ->
  Spec.typed node = false ->
  exists e, validateN8nWorkflow data = Throw e.
Proof.
  intros Hnodes Hin Htyped.
  destruct (validateN8nWorkflow data) as [r | e] eqn:Hval; [ | eauto].
  pose proof (completed_validation_typed _ _ _ _ Hval Hnodes) as Hall.
  rewrite forallb_forall in Hall. rewrite (Hall node Hin) in Htyped.
  discriminate.
Qed.

(** ** Secure nodes *)

Import ReportGenerator.

Lemma filter_m_ok {A} (f : A -> result bool) (g : A -> bool) (xs : list A) :
  (forall x, In x xs -> f x = Ok (g x)) ->
  filter_m f xs = Ok (filter g xs).
Proof.
  induction xs as [ | x xs IH]; intros H; simpl; [reflexivity | ].
  rewrite (H x (or_introl eq_refl)). cbn [bind].
  rewrite IH by (intros y Hy; apply H; right; exact Hy).
  reflexivity.
Qed.

Lemma typed_not_nullish (node : json) :
  Spec.typed node = true -> nullish (Some node) = false.
Proof. destruct node; simpl; try reflexivity. discriminate. Qed.

Lemma typed_includes (node : json) (s : Str.t) :
  Spec.typed node = true ->
  exists b, type_includes (Some node) s = Ok b.
Proof.
  intros H. unfold type_includes.
  rewrite (get_prop _ _ (typed_not_nullish _ H)). cbn [bind].
  unfold Spec.typed in H.
  destruct (Spec.prop (Some node) (u"type")) as [[ | | | str | r xs | ] | ];
    try discriminate; simpl; eauto.
Qed.

Lemma notStickyNote_typed (node : json) :
  Spec.typed node = true ->
  notStickyNote node = Ok (negb (Spec.is_annotation node)).
Proof.
  intros H. unfold notStickyNote, not_b, Spec.is_annotation.
  destruct (typed_includes node (u"stickyNote") H) as [b ->]. reflexivity.
Qed.

Lemma set_has_nodesWithIssues (findings : list SecurityIssue) (node : json) :
  set_has (nodesWithIssues findings) (Spec.node_id node)
  = existsb (fun f => truthy (nodeId f) && Spec.associated f node) findings.
Proof.
  unfold set_has, nodesWithIssues, Spec.associated.
  induction findings as [ | f fs IH]; simpl; [reflexivity | ].
  destruct (truthy (nodeId f)); simpl; rewrite IH; reflexivity.
Qed.

Lemma negb_existsb {A} (p : A -> bool) (l : list A) :
  negb (existsb p l) = forallb (fun x => negb (p x)) l.
Proof.
  induction l as [ | x l IH]; simpl; [reflexivity | ].
  rewrite negb_orb, IH. reflexivity.
Qed.

Lemma filter_filter {A} (p q : A -> bool) (l : list A) :
  filter q (filter p l) = filter (fun x => p x && q x) l.
Proof.
  induction l as [ | x l IH]; simpl; [reflexivity | ].
  destruct (p x); simpl; [destruct (q x) | ]; rewrite IH; reflexivity.
Qed.

Lemma calculateSecureNodes_typed (workflowData : value)
  (result : ValidationResult) (ref : N) (ns : list json) :
  Spec.prop workflowData (u"nodes") = Some (JArr ref ns) ->
  forallb Spec.typed ns = true ->
  calculateSecureNodes workflowData result
  = Ok (Spec.secure_nodes_by_truthy_id ns (securityIssues result)).
Proof.
  intros Hn Ht. rewrite forallb_forall in Ht.
  unfold calculateSecureNodes. rewrite get_opt_prop, Hn. cbn [bind truthy negb].
  cbn [call_filter].
  rewrite (filter_m_ok notStickyNote (fun n => negb (Spec.is_annotation n)))
    by (intros n Hin; apply notStickyNote_typed, Ht, Hin).
  cbn [bind].
  rewrite (filter_m_ok _
             (fun n => forallb
                         (fun f => negb (truthy (nodeId f) &&
                                         Spec.associated f n))
                         (securityIssues result))).
  - cbn [bind]. unfold Spec.secure_nodes_by_truthy_id.
    rewrite filter_filter. reflexivity.
  - intros n Hin. apply filter_In in Hin. destruct Hin as [Hin _].
    rewrite (get_prop _ _ (typed_not_nullish _ (Ht n Hin))). cbn [bind].
    fold (Spec.node_id n).
    rewrite set_has_nodesWithIssues, negb_existsb. reflexivity.
Qed.

(** On documents whose findings all carry a truthy [nodeId], the code
    counts what the specification words: the nodes that are not
    annotations and have no finding. *)
Lemma calculateSecureNodes_identified (workflowData : value)
  (result : ValidationResult) (ref : N) (ns : list json) :
  Spec.prop workflowData (u"nodes") = Some (JArr ref ns) ->
  forallb Spec.typed ns = true ->
  forallb (fun f => truthy (nodeId f)) (securityIssues result) = true ->
  calculateSecureNodes workflowData result
  = Ok (Spec.secure_nodes ns (securityIssues result)).
Proof.
  intros Hn Ht Hid.
  rewrite (calculateSecureNodes_typed _ _ _ _ Hn Ht).
  unfold Spec.secure_nodes_by_truthy_id, Spec.secure_nodes.
  do 2 f_equal. apply filter_ext. intros n. f_equal.
  induction (securityIssues result) as [ | f fs IH]; [reflexivity | ].
  simpl in Hid. apply andb_true_iff in Hid. destruct Hid as [Hf Hfs].
  simpl. rewrite Hf, (IH Hfs). reflexivity.
Qed.

(** C9, at the failing input: the only node of the document is a code
    node without [id]. The analyzer reports a finding for it, whose
    [nodeId] is [undefined] like the node's [id]; no node has zero
    findings, and the graph, which compares [issue.nodeId === node.id],
    shows no secure node; yet [calculateSecureNodes], whose set of node ids
    went through [filter(Boolean)], returns 1. *)
Theorem C9_unidentified_node_counted_secure :
  forall (function_text : Str.t -> Str.t) (now : N),
    JSONParser.parse Inputs.code_node_without_id
      = Ok (JObj 0 [(u"nodes", JArr 1 [JObj 2 [(u"type", JStr (u"n8n-nodes-base.code"))]]);
                    (u"connections", JObj 3 [])]) /\
    exists r,
      validateN8nWorkflow
        (Some (JObj 0 [(u"nodes", JArr 1 [JObj 2 [(u"type", JStr (u"n8n-nodes-base.code"))]]);
                       (u"connections", JObj 3 [])])) = Ok r /\
      securityIssues r = [code_execution_issue None (Some (JStr (u"Unknown")))] /\
      Spec.secure_nodes [JObj 2 [(u"type", JStr (u"n8n-nodes-base.code"))]]
                        (securityIssues r) = 0 /\
      calculateSecureNodes
        (Some (JObj 0 [(u"nodes", JArr 1 [JObj 2 [(u"type", JStr (u"n8n-nodes-base.code"))]]);
                       (u"connections", JObj 3 [])])) r = Ok 1 /\
      exists g,
        Visualization.processWorkflow function_text now
          (Some (JObj 0 [(u"nodes", JArr 1 [JObj 2 [(u"type", JStr (u"n8n-nodes-base.code"))]]);
                         (u"connections", JObj 3 [])]))
          (securityIssues r) = Ok g /\
        List.length (Visualization.secureShown (Visualization.processedNodes g))
        = 0.
Proof.
  intros function_text now.
  split; [vm_compute; reflexivity | ].
  eexists. split; [vm_compute; reflexivity | ].
  split; [vm_compute; reflexivity | ].
  split; [vm_compute; reflexivity | ].
  split; [vm_compute; reflexivity | ].
  eexists. split; [vm_compute; reflexivity | ].
  vm_compute. reflexivity.
Qed.

(** X20. The secure-node count the report's HTML shows and the count of
    [calculateSecureNodes] are the same computation: on every document and
    every result they return the same number or throw the same
    exception. *)
Lemma secureNodesCount_same (result : ValidationResult) (workflowData : value) :
  secureNodesCount result workflowData
  = calculateSecureNodes workflowData result.
Proof.
  unfold secureNodesCount, calculateSecureNodes.
  destruct (get_opt workflowData (u"nodes")) as [nodes_ | e]; cbn [bind];
    [ | reflexivity].
  destruct (truthy nodes_); reflexivity.
Qed.

(** After an analysis that ended with the validator's report for a
    document taken for a workflow, the count does not throw: [nodes] is an
    array of typed nodes. *)
Lemma secure_nodes_after_analysis (parsed : json) (r : ValidationResult) :
  validateN8nWorkflow (Some parsed) = Ok r ->
  isN8nWorkflow r = true ->
  exists ref ns,
    Spec.prop (Some parsed) (u"nodes") = Some (JArr ref ns) /\
    calculateSecureNodes (Some parsed) r
    = Ok (Spec.secure_nodes_by_truthy_id ns (securityIssues r)).
Proof.
  intros Hval Hwf.
  destruct (Spec.has_truthy_workflow_attribute (Some parsed)) eqn:Hw.
  - destruct (isArray (Spec.prop (Some parsed) (u"nodes"))) eqn:Harr.
    + destruct (Spec.prop (Some parsed) (u"nodes"))
        as [[ | | | | ref ns | ] | ] eqn:Hnodes; try discriminate.
      exists ref, ns. split; [reflexivity | ].
      apply (calculateSecureNodes_typed _ _ ref ns Hnodes).
      apply (completed_validation_typed _ _ _ _ Hval Hnodes).
    + destruct (validate_throws_without_nodes_array _ Hw Harr) as [e He].
      rewrite He in Hval. discriminate.
  - rewrite (validate_not_a_workflow _ Hw) in Hval. injection Hval as <-.
    discriminate.
Qed.

(** X21. Where [nodes] is truthy and not an array, the secure-node count
    throws: the guard of [calculateSecureNodes] tests [nodes] for truthiness
    only, and a value that is no array has no [filter] to call. *)
Lemma calculateSecureNodes_throws (workflowData : value)
  (result : ValidationResult) :
  truthy (Spec.prop workflowData (u"nodes")) = true ->
  isArray (Spec.prop workflowData (u"nodes")) = false ->
  exists e, calculateSecureNodes workflowData result = Throw e.
Proof.
  intros Ht Harr. unfold calculateSecureNodes.
  rewrite get_opt_prop. cbn [bind]. rewrite Ht. cbn [negb].
  destruct (Spec.prop workflowData (u"nodes")) as [[ | | | | | ] | ];
    try discriminate; cbn [call_filter bind]; eexists; reflexivity.
Qed.

(** ** The model on small inputs *)

(** Blank input leaves [workflowData] as the previous analysis set it. *)
Example blank_input_keeps_document :
  forall (error_message : js_error -> Str.t),
    let st := analyzeJson error_message Inputs.demo Inputs.initial in
    workflowData (analyzeJson error_message (u"  ") st) = workflowData st /\
    result_ (analyzeJson error_message (u"  ") st)
    = Some (failure (u"Please provide JSON input")).
Proof. intros error_message. split; vm_compute; reflexivity. Qed.

Example demo_text :
  firstn 9 Inputs.demo = [123; 34; 110; 97; 109; 101; 34; 58; 34]%N /\
  u"• a" = [8226; 32; 97]%N.
Proof. split; reflexivity. Qed.

Example number_texts :
  map (fun d => Num.to_string (Num.of_decimal false (Z.to_N (fst d)) (snd d)))
      [(11, -1); (1, 23); (5, -324); (1, -7); (123, -8); (1, 21);
       (590295810358705651712, 0); (3, 0); (9007199254740993, 0)]%Z
  = [u"1.1"; u"1e+23"; u"5e-324"; u"1e-7"; u"0.00000123"; u"1e+21";
     u"590295810358705700000"; u"3"; u"9007199254740992"].
Proof. vm_compute. reflexivity. Qed.

Example string_numbers :
  map (fun s => Num.to_string (Conv.string_to_number s))
      [u" 12 "; u"0x1F"; u"-Infinity"; u".5"; u"5."; u"."; u"1e"; u"1e3";
       u""; u"-0"; u"0b101"; u"12px"; u"+7"; u"0x"; u"1.5e-3"; u"00012"]
  = [u"12"; u"31"; u"-Infinity"; u"0.5"; u"5"; u"NaN"; u"NaN"; u"1000";
     u"0"; u"0"; u"5"; u"NaN"; u"7"; u"NaN"; u"0.0015"; u"12"].
Proof. vm_compute. reflexivity. Qed.

Example array_texts :
  to_string (Some (JArr 0 [JNum (Num.of_Z 1); JNull; JArr 1 [JStr (u"a"); JBool true];
                           JObj 2 []]))
  = Ok (u"1,,a,true,[object Object]") /\
  is_ok (to_string (Some (JObj 0 [(u"toString", JNum (Num.of_Z 1))]))) = false /\
  Conv.greater_than (Some (JArr 0 [JStr (u" 7 ")])) Num.five = Ok true /\
  Conv.greater_than (Some (JArr 0 [JNum (Num.of_Z 7); JNum (Num.of_Z 8)]))
                    Num.five = Ok false.
Proof. repeat split; vm_compute; reflexivity. Qed.

Example parse_key_order :
  JSONParser.parse (Inputs.json_text "{'b':1,'2':[true,null],'a':{},'1':'x','b':2}")
  = Ok (JObj 0 [(u"1", JStr (u"x"));
                (u"2", JArr 1 [JBool true; JNull]);
                (u"b", JNum (Num.of_Z 2));
                (u"a", JObj 2 [])]).
Proof. vm_compute. reflexivity. Qed.

Example parse_rejects :
  map (fun s => is_ok (JSONParser.parse (Inputs.json_text s)))
      ["[1,]"; "{'a':1,}"; "01"; "1."; "-"; "[1 2]"; "nul"; "true"; " 1 ";
       "'a"; "{'a' 1}"; "[[[]]]"; ""; "1e5"; "{} x"]%string
  = [false; false; false; false; false; false; false; true; true;
     false; false; true; false; true; false].
Proof. vm_compute. reflexivity. Qed.

Example pattern_tests :
  map (fun s => map (fun p => Regex.test (pattern p) s) sensitivePatterns)
      [u"my API_KEY here"; u"Social Security"; u"1234 5678-9012 3456";
       u"a1234567890123456"; u"12345678901234567"; u"creditXcard"; u"tokens"]
  = [[true; false; false; false; false; false; false; false];
     [false; false; false; false; false; true; false; false];
     [false; false; false; false; false; false; false; true];
     [false; false; false; false; false; false; false; false];
     [false; false; false; false; false; false; false; false];
     [false; false; false; false; false; false; true; false];
     [false; false; false; true; false; false; false; false]].
Proof. vm_compute. reflexivity. Qed.

(** A [null] credential entry makes the credential check throw, and with
    it the whole analysis of the node. *)
Example null_credential_throws :
  checkNodeSecurity
    (Some (JObj 0 [(u"id", JStr (u"1"));
                   (u"type", JStr (u"n8n-nodes-base.code"));
                   (u"credentials", JObj 1 [(u"api", JNull)])])) []
  = Throw (TypeError_read_property (Some JNull) (u"id")).
Proof. vm_compute. reflexivity. Qed.

(** * More properties of the code *)

(** ** The validator *)

Lemma is_object_typeof (v : value) :
  Spec.is_object v = truthy v && Str.eqb (typeof v) (u"object").
Proof.
  destruct v as [[ | b | x | s | r xs | r props] | ];
    cbn [Spec.is_object truthy typeof andb];
    try reflexivity; try (rewrite andb_comm; reflexivity).
Qed.

(** A document whose validation completes with [isN8nWorkflow] has a
    [nodes] array. *)
Lemma completed_validation_nodes (data : value) (r : ValidationResult) :
  validateN8nWorkflow data = Ok r ->
  isN8nWorkflow r = true ->
  exists ref ns, Spec.prop data (u"nodes") = Some (JArr ref ns).
Proof.
  intros Hval Hwf.
  destruct (Spec.has_truthy_workflow_attribute data) eqn:Hw.
  - destruct (isArray (Spec.prop data (u"nodes"))) eqn:Harr.
    + destruct (Spec.prop data (u"nodes"))
        as [[ | | | | ref ns | ] | ] eqn:Hnodes; try discriminate.
      eauto.
    + destruct (validate_throws_without_nodes_array _ Hw Harr) as [e He].
      rewrite He in Hval. discriminate.
  - rewrite (validate_not_a_workflow _ Hw) in Hval. injection Hval as <-.
    discriminate.
Qed.

Lemma node_errors_nil (node : json) (index : nat) :
  match Spec.node_errors node index with [] => true | _ => false end
  = Facts.complete node.
Proof.
  unfold Spec.node_errors, Facts.complete.
  destruct (truthy (Spec.prop (Some node) (u"id")));
    destruct (truthy (Spec.prop (Some node) (u"type"))); reflexivity.
Qed.

Lemma flat_map_nil_forallb {A B} (f : A -> list B) (g : A -> bool)
  (l : list A) :
  (forall x, In x l -> match f x with [] => true | _ => false end = g x) ->
  match flat_map f l with [] => true | _ => false end = forallb g l.
Proof.
  induction l as [ | x l IH]; intros H; simpl; [reflexivity | ].
  rewrite <- (H x (or_introl eq_refl)).
  destruct (f x); simpl; [ | reflexivity].
  apply IH. intros y Hy. apply H. right. exact Hy.
Qed.

Lemma forallb_indexed {A} (g : A -> bool) (l : list A) (i : nat) :
  forallb (fun p => g (snd p)) (combine (seq i (List.length l)) l)
  = forallb g l.
Proof.
  revert i. induction l as [ | x l IH]; intros i; simpl; [reflexivity | ].
  rewrite IH. reflexivity.
Qed.

(** X1. A completed validation of a workflow reports [isValid] exactly when
    [connections] is an object (or an array) and every node has a truthy
    [id] and a truthy [type]: warnings and findings never make a workflow
    invalid. *)
Theorem valid_iff_structure (data : value) (r : ValidationResult) :
  validateN8nWorkflow data = Ok r ->
  isN8nWorkflow r = true ->
  exists ref ns,
    Spec.prop data (u"nodes") = Some (JArr ref ns) /\
    isValid r = Spec.is_object (Spec.prop data (u"connections")) &&
                forallb Facts.complete ns.
Proof.
  intros Hval Hwf.
  destruct (completed_validation_nodes _ _ Hval Hwf) as [ref [ns Hnodes]].
  exists ref, ns. split; [exact Hnodes | ].
  destruct (validate_spec _ _ _ _ Hval Hnodes)
    as [_ [He [_ [_ [Hv _]]]]].
  rewrite Hv, He. unfold Spec.structure_errors. rewrite Hnodes.
  cbn [truthy isArray negb orb app].
  rewrite is_object_typeof.
  destruct (truthy (Spec.prop data (u"connections")));
    cbn [negb orb andb app]; [ | reflexivity].
  destruct (Str.eqb (typeof (Spec.prop data (u"connections"))) (u"object"));
    cbn [negb app]; [ | reflexivity].
  rewrite <- (forallb_indexed Facts.complete ns 0).
  apply flat_map_nil_forallb. intros p _. apply node_errors_nil.
Qed.

Lemma valid_iff_structure_witness :
  exists ref ns,
    Spec.prop (Some Samples.workflow) (u"nodes") = Some (JArr ref ns) /\
    isValid (Samples.report_of Samples.workflow)
    = Spec.is_object (Spec.prop (Some Samples.workflow) (u"connections")) &&
      forallb Facts.complete ns.
Proof.
  apply (valid_iff_structure (Some Samples.workflow)
           (Samples.report_of Samples.workflow));
    vm_compute; reflexivity.
Defined.

Lemma metadataInfo_spec (data : value) (info0 info1 : list Str.t) :
  nullish data = false ->
  metadataInfo data info0 = Ok info1 ->
  info1 = info0 ++ Facts.metadata_lines data.
Proof.
  intros Hd. unfold metadataInfo, Facts.metadata_lines.
  rewrite (get_prop _ _ Hd). cbn [bind].
  destruct (truthy (Spec.prop data (u"meta"))) eqn:Hm;
    [ | intros E; injection E as <-; rewrite app_nil_r; reflexivity].
  pose proof (truthy_not_nullish _ Hm) as Hn.
  rewrite !(get_prop _ _ Hn). cbn [bind].
  set (completed := truthy (Spec.prop (Spec.prop data (u"meta"))
                                      (u"templateCredsSetupCompleted"))).
  destruct (truthy (Spec.prop (Spec.prop data (u"meta")) (u"instanceId"))).
  - unfold Facts.text_of.
    destruct (to_string _) as [text | e]; cbn [bind]; [ | discriminate].
    intros E; injection E as <-. unfold push.
    destruct completed; rewrite <- ?app_assoc; reflexivity.
  - cbn [bind]. intros E; injection E as <-. unfold push.
    destruct completed; rewrite ?app_nil_r; reflexivity.
Qed.

(** X2. The [info] of a completed workflow validation is the lines about
    [meta] followed by the summary line, and the summary line carries
    the node and connection counts of [workflowInfo]; the name in
    [workflowInfo] is [data.name] or the default, hence never falsy, and
    the version is [data.meta?.version]. *)
Theorem info_ends_with_summary (data : value) (r : ValidationResult) :
  validateN8nWorkflow data = Ok r ->
  isN8nWorkflow r = true ->
  exists w,
    workflowInfo r = Some w /\
    info r = Facts.metadata_lines data ++ [summaryInfo w] /\
    name w = or_else (Spec.prop data (u"name"))
                     (Some (JStr (u"Unnamed Workflow"))) /\
    truthy (name w) = true /\
    version w = Spec.prop (Spec.prop data (u"meta")) (u"version").
Proof.
  intros H Hwf. unfold validateN8nWorkflow in H.
  rewrite looksLikeWorkflow_spec in H. cbn [bind] in H.
  destruct (Spec.has_truthy_workflow_attribute data) eqn:Hw; cbn [negb] in H;
    [ | injection H as <-; discriminate].
  assert (Hd : nullish data = false).
  { apply truthy_not_nullish.
    unfold Spec.has_truthy_workflow_attribute in Hw.
    destruct (truthy data); [reflexivity | discriminate]. }
  rewrite !(get_prop _ _ Hd) in H. cbn [bind] in H.
  match type of H with
  | bind ?loop _ = _ => destruct loop as [l | e]; cbn [bind] in H;
                        [ | discriminate]
  end.
  destruct (metadataInfo data []) as [info0 | e] eqn:Hinfo; cbn [bind] in H;
    [ | discriminate].
  destruct (call_filter _ _) as [kept | e]; cbn [bind] in H; [ | discriminate].
  rewrite get_opt_prop in H.
  unfold or_v in H. cbn [bind] in H.
  apply (metadataInfo_spec _ _ _ Hd) in Hinfo. cbn [app] in Hinfo. subst info0.
  destruct (truthy (Spec.prop data (u"name"))) eqn:Hname; cbn [bind] in H;
    injection H as <-; eexists; (split; [reflexivity | ]);
    cbn [info name version]; unfold or_else; rewrite Hname;
    repeat split; try reflexivity; exact Hname.
Qed.

Lemma info_ends_with_summary_witness :
  exists w,
    workflowInfo (Samples.report_of Samples.workflow) = Some w /\
    info (Samples.report_of Samples.workflow)
    = Facts.metadata_lines (Some Samples.workflow) ++ [summaryInfo w] /\
    name w = or_else (Spec.prop (Some Samples.workflow) (u"name"))
                     (Some (JStr (u"Unnamed Workflow"))) /\
    truthy (name w) = true /\
    version w
    = Spec.prop (Spec.prop (Some Samples.workflow) (u"meta")) (u"version").
Proof.
  apply (info_ends_with_summary (Some Samples.workflow)
           (Samples.report_of Samples.workflow));
    vm_compute; reflexivity.
Defined.

(** ** The rule engine *)

Lemma for_each_throws {A St} (f : A -> St -> result St) (xs : list A) (x : A) :
  In x xs ->
  (forall s, exists e, f x s = Throw e) ->
  forall s, exists e, for_each f xs s = Throw e.
Proof.
  induction xs as [ | y xs IH]; intros Hin Hx s; [destruct Hin | ].
  cbn [for_each].
  destruct (f y s) as [s' | e] eqn:Hy; cbn [bind]; [ | eauto].
  destruct Hin as [-> | Hin].
  - destruct (Hx s) as [e He]. rewrite He in Hy. discriminate.
  - apply (IH Hin Hx).
Qed.

Lemma keys_own (creds : json) :
  truthy (Some creds) = true ->
  keys (Some creds) = Ok (map fst (own_entries creds)).
Proof. destruct creds; try discriminate; reflexivity. Qed.

Lemma check_credentials_null (node nn : value) (creds : json) (k : Str.t) :
  nullish node = false ->
  Spec.prop node (u"credentials") = Some creds ->
  truthy (Some creds) = true ->
  In k (map fst (own_entries creds)) ->
  Spec.prop (Some creds) k = Some JNull ->
  forall issues, exists e, check_credentials node nn issues = Throw e.
Proof.
  intros Hn Hc Ht Hk Hnull issues. unfold check_credentials.
  rewrite (get_prop _ _ Hn), Hc. cbn [bind]. rewrite Ht, (keys_own _ Ht).
  cbn [bind]. apply (for_each_throws _ _ k Hk). intros s. cbv beta.
  rewrite (get_prop _ _ (truthy_not_nullish _ Ht)), Hnull. cbn [bind get].
  eauto.
Qed.

Lemma checkNodeSecurity_null_credential (node : value) (creds : json)
  (k : Str.t) :
  Spec.prop node (u"credentials") = Some creds ->
  truthy (Some creds) = true ->
  In k (map fst (own_entries creds)) ->
  Spec.prop (Some creds) k = Some JNull ->
  type_includes node (u"stickyNote") = Ok false ->
  forall issues, exists e, checkNodeSecurity node issues = Throw e.
Proof.
  intros Hc Ht Hk Hnull Hs issues.
  destruct (checkNodeSecurity node issues) as [issues' | e] eqn:Hrun;
    [ | eauto].
  destruct (checkNodeSecurity_run _ _ _ Hrun) as [Hn [sticky [Hs' Hchecks]]].
  rewrite Hs in Hs'. injection Hs' as <-.
  destruct (for_each_throws (fun check => check node (Spec.node_name node))
              checks check_credentials) with (s := issues) as [e He].
  - unfold checks. simpl. tauto.
  - intros s. apply (check_credentials_null _ _ creds k); assumption.
  - rewrite He in Hchecks. discriminate.
Qed.

(** X4. A node that is not a sticky note and whose [credentials] hold a
    [null] entry aborts the validation of the whole workflow: reading
    [node.credentials[credType].id] throws, so no report of the validator
    reaches the caller. *)
Theorem null_credential_aborts_validation (data : value) (ref : N)
  (ns : list json) (node creds : json) (k : Str.t) :
  Spec.prop data (u"nodes") = Some (JArr ref ns) ->
  In node ns ->
  type_includes (Some node) (u"stickyNote") = Ok false ->
  Spec.prop (Some node) (u"credentials") = Some creds ->
  truthy (Some creds) = true ->
  In k (map fst (own_entries creds)) ->
  Spec.prop (Some creds) k = Some JNull ->
  exists e, validateN8nWorkflow data = Throw e.
Proof.
  intros Hnodes Hin Hs Hc Ht Hk Hnull.
  destruct (validateN8nWorkflow data) as [r | e] eqn:Hval; [ | eauto].
  destruct (In_nth_error _ _ Hin) as [i Hi].
  destruct (validate_each_node _ _ _ _ Hval Hnodes i node Hi)
    as [mid [mid' Hbody]].
  unfold validateNode in Hbody.
  repeat match type of Hbody with
         | bind ?e _ = Ok _ =>
           let H := fresh "H" in
           destruct e eqn:H; cbn [bind] in Hbody; [ | discriminate]
         end.
  match goal with
  | H : checkNodeSecurity _ ?s = Ok _ |- _ =>
    destruct (checkNodeSecurity_null_credential _ _ _ Hc Ht Hk Hnull Hs s)
      as [e He]; rewrite He in H; discriminate
  end.
Qed.

Lemma null_credential_aborts_validation_witness :
  exists e,
    validateN8nWorkflow (Some Samples.unset_credential_workflow) = Throw e.
Proof.
  apply (null_credential_aborts_validation
           (Some Samples.unset_credential_workflow)
           (Samples.nodes_ref Samples.unset_credential_workflow)
           (Samples.nodes_of Samples.unset_credential_workflow)
           (nth 0 (Samples.nodes_of Samples.unset_credential_workflow) JNull)
           (Samples.field
              (nth 0 (Samples.nodes_of Samples.unset_credential_workflow) JNull)
              (u"credentials"))
           (u"slackApi"));
    try (vm_compute; reflexivity); vm_compute; left; reflexivity.
Defined.

Lemma for_each_flat_map_ok {A}
  (f : A -> list SecurityIssue -> result (list SecurityIssue))
  (g : A -> list SecurityIssue) (xs : list A) :
  (forall x issues issues', In x xs -> f x issues = Ok issues' ->
                            issues' = issues ++ g x) ->
  forall issues issues',
    for_each f xs issues = Ok issues' -> issues' = issues ++ flat_map g xs.
Proof.
  induction xs as [ | x xs IH]; intros H issues issues'; simpl.
  - intros E. injection E as <-. rewrite app_nil_r. reflexivity.
  - destruct (f x issues) as [mid | e] eqn:Hx; cbn [bind]; [ | discriminate].
    intros Hrest.
    rewrite (IH (fun y i i' Hy => H y i i' (or_intror Hy)) _ _ Hrest).
    rewrite (H x _ _ (or_introl eq_refl) Hx), app_assoc. reflexivity.
Qed.

Lemma check_credentials_spec (node nn : value)
  (issues issues' : list SecurityIssue) :
  nullish node = false ->
  check_credentials node nn issues = Ok issues' ->
  issues' = issues ++ Facts.credential_findings node nn.
Proof.
  intros Hn. unfold check_credentials, Facts.credential_findings.
  rewrite (get_prop _ _ Hn). cbn [bind].
  destruct (Spec.prop node (u"credentials")) as [creds | ] eqn:Hc;
    [ | cbn [truthy]; intros E; injection E as <-; rewrite app_nil_r;
        reflexivity].
  destruct (truthy (Some creds)) eqn:Ht;
    [ | intros E; injection E as <-; rewrite app_nil_r; reflexivity].
  rewrite (keys_own _ Ht). cbn [bind].
  rewrite <- flat_map_singletons.
  apply for_each_flat_map_ok. intros credType i i' _.
  rewrite (get_prop _ _ (truthy_not_nullish _ Ht)). cbn [bind].
  set (c := Spec.prop (Some creds) credType).
  destruct (nullish c) eqn:Hnull.
  - destruct c as [[ | | | | | ] | ]; try discriminate Hnull;
      cbn [get bind]; discriminate.
  - rewrite (get_prop _ _ Hnull). cbn [bind].
    destruct (truthy (Spec.prop c (u"id"))).
    + rewrite (push_issue_spec _ _ _ _ Hn). intros E; injection E as <-.
      reflexivity.
    + intros E; injection E as <-. rewrite app_nil_r. reflexivity.
Qed.

(** X5. Among the findings the engine appends for a node that is not a
    sticky note, those of the category "Credential Reference" are one
    low-severity finding for each key of [node.credentials], in order,
    whose entry has a truthy [id]; the message names the key. *)
Theorem credential_findings_per_entry (node : value)
  (issues issues' : list SecurityIssue) :
  checkNodeSecurity node issues = Ok issues' ->
  type_includes node (u"stickyNote") = Ok false ->
  Spec.in_category (u"Credential Reference") issues'
  = Spec.in_category (u"Credential Reference") issues
    ++ Facts.credential_findings node (Spec.node_name node) /\
  Forall (fun i => severity i = low)
         (Facts.credential_findings node (Spec.node_name node)).
Proof.
  intros Hrun Hsticky.
  destruct (checkNodeSecurity_run _ _ _ Hrun) as [Hn [sticky [Hs Hchecks]]].
  rewrite Hsticky in Hs. injection Hs as <-.
  split.
  - destruct (checks_in_category _ _ node (Spec.node_name node)
                checks_categories (u"Credential Reference") _ _ Hchecks)
      as [parts [Hparts ->]].
    f_equal. unfold checks in Hparts. invert_parts.
    unfold Spec.categories. cbn [combine map fst snd].
    decide_categories. cbn [List.concat app]. rewrite app_nil_r.
    match goal with
    | H : check_credentials _ _ [] = Ok _ |- _ =>
      apply (check_credentials_spec _ _ _ _ Hn) in H; rewrite H
    end.
    reflexivity.
  - unfold Facts.credential_findings.
    destruct (Spec.prop node (u"credentials")) as [creds | ]; [ | constructor].
    destruct (truthy (Some creds)); [ | constructor].
    apply Forall_forall. intros i Hi. apply in_map_iff in Hi.
    destruct Hi as [credType [<- _]]. reflexivity.
Qed.

Lemma credential_findings_per_entry_witness :
  Spec.in_category (u"Credential Reference") (Samples.findings_of Samples.fetch)
  = Spec.in_category (u"Credential Reference") []
    ++ Facts.credential_findings (Some Samples.fetch)
         (Spec.node_name (Some Samples.fetch)) /\
  Forall (fun i => severity i = low)
         (Facts.credential_findings (Some Samples.fetch)
            (Spec.node_name (Some Samples.fetch))).
Proof.
  apply (credential_findings_per_entry (Some Samples.fetch) []
           (Samples.findings_of Samples.fetch));
    vm_compute; reflexivity.
Defined.

Lemma check_http_request_spec (node nn : value) (issues : list SecurityIssue) :
  nullish node = false ->
  check_http_request node nn issues
  = Ok (issues ++ Facts.http_findings node nn).
Proof.
  intros Hn. unfold check_http_request, Facts.http_findings, parameter,
    and_b, is_truthy.
  rewrite !(get_prop _ _ Hn). cbn [bind].
  destruct (strict_equal (Spec.prop node (u"type")) _);
    [ | cbn [bind]; rewrite app_nil_r; reflexivity].
  rewrite get_opt_prop. cbn [bind].
  destruct (truthy (Spec.prop (Spec.prop node (u"parameters")) (u"url")))
    eqn:Hurl.
  - assert (Hp : nullish (Spec.prop node (u"parameters")) = false).
    { destruct (Spec.prop node (u"parameters")) as [[ | | | | | ] | ];
        try reflexivity; vm_compute in Hurl; discriminate. }
    rewrite (get_prop _ _ Hp). cbn [bind].
    destruct (Spec.prop (Spec.prop node (u"parameters")) (u"url"))
      as [[ | b | x | url | r xs | r ps] | ];
      try (rewrite app_nil_r; reflexivity).
    destruct (Str.includes url (u"http://") || Str.includes url (u"https://"));
      [apply push_issue_spec, Hn | rewrite app_nil_r; reflexivity].
  - destruct (Spec.prop (Spec.prop node (u"parameters")) (u"url"))
      as [[ | b | x | url | r xs | r ps] | ];
      try (rewrite app_nil_r; reflexivity); try discriminate.
    destruct url; [ | discriminate].
    rewrite app_nil_r. reflexivity.
Qed.

(** X6. Among the findings the engine appends for a node that is not a
    sticky note, those of the category "External HTTP Request" are: one
    finding when the node's type is exactly [n8n-nodes-base.httpRequest]
    and [parameters.url] is a string holding [http://] or [https://], none
    otherwise; the finding is of high severity when the url holds
    [http://] anywhere, of medium severity otherwise. *)
Theorem http_request_finding (node : value)
  (issues issues' : list SecurityIssue) :
  checkNodeSecurity node issues = Ok issues' ->
  type_includes node (u"stickyNote") = Ok false ->
  Spec.in_category (u"External HTTP Request") issues'
  = Spec.in_category (u"External HTTP Request") issues
    ++ Facts.http_findings node (Spec.node_name node) /\
  forall i, In i (Facts.http_findings node (Spec.node_name node)) ->
    exists url,
      Spec.prop (Spec.prop node (u"parameters")) (u"url") = Some (JStr url) /\
      severity i = if Str.includes url (u"http://") then high else medium.
Proof.
  intros Hrun Hsticky.
  destruct (checkNodeSecurity_run _ _ _ Hrun) as [Hn [sticky [Hs Hchecks]]].
  rewrite Hsticky in Hs. injection Hs as <-.
  split.
  - destruct (checks_in_category _ _ node (Spec.node_name node)
                checks_categories (u"External HTTP Request") _ _ Hchecks)
      as [parts [Hparts ->]].
    f_equal. unfold checks in Hparts. invert_parts.
    unfold Spec.categories. cbn [combine map fst snd].
    decide_categories. cbn [List.concat app]. rewrite app_nil_r.
    match goal with
    | H : check_http_request _ _ [] = Ok _ |- _ =>
      rewrite (check_http_request_spec _ _ [] Hn) in H; injection H as <-
    end.
    reflexivity.
  - intros i. unfold Facts.http_findings.
    destruct (strict_equal _ _); [ | intros []].
    destruct (Spec.prop (Spec.prop node (u"parameters")) (u"url"))
      as [[ | b | x | url | r xs | r ps] | ]; try (intros []).
    destruct (Str.includes url (u"http://") || Str.includes url (u"https://"));
      [ | intros []].
    intros [<- | []]. exists url. split; reflexivity.
Qed.

Lemma http_request_finding_witness :
  Spec.in_category (u"External HTTP Request") (Samples.findings_of Samples.fetch)
  = Spec.in_category (u"External HTTP Request") []
    ++ Facts.http_findings (Some Samples.fetch)
         (Spec.node_name (Some Samples.fetch)) /\
  forall i,
    In i (Facts.http_findings (Some Samples.fetch)
            (Spec.node_name (Some Samples.fetch))) ->
    exists url,
      Spec.prop (Spec.prop (Some Samples.fetch) (u"parameters")) (u"url")
      = Some (JStr url) /\
      severity i = if Str.includes url (u"http://") then high else medium.
Proof.
  apply (http_request_finding (Some Samples.fetch) []
           (Samples.findings_of Samples.fetch));
    vm_compute; reflexivity.
Defined.

(** *** Every finding names its node *)

Lemma push_issue_attributed mk (node : value) issues issues' :
  nullish node = false ->
  (forall id nn, nodeId (mk id nn) = id /\ nodeName (mk id nn) = nn) ->
  push_issue mk node (Spec.node_name node) issues = Ok issues' ->
  Forall (Facts.attributed node) issues ->
  Forall (Facts.attributed node) issues'.
Proof.
  intros Hn Hmk. rewrite (push_issue_spec _ _ _ _ Hn).
  intros E HP. injection E as <-. apply Forall_app. split; [exact HP | ].
  constructor; [apply Hmk | constructor].
Qed.

Ltac attributed_step Hn :=
  match goal with
  | |- bind ?e _ = _ -> _ =>
    destruct e as [? | ?]; cbn [bind]; [ | discriminate]
  | |- (if ?c then _ else _) = _ -> _ => destruct c
  | |- match ?x with _ => _ end = _ -> _ => destruct x
  | |- push_issue _ _ _ _ = _ -> _ =>
    apply (push_issue_attributed _ _ _ _ Hn); intros ? ?; split; reflexivity
  | |- Ok _ = Ok _ -> _ =>
    let E := fresh "E" in intros E; injection E as <-; trivial
  | |- Throw _ = _ -> _ => discriminate
  end.

Lemma checks_attributed (node : value) :
  nullish node = false ->
  forall check, In check checks ->
    forall issues issues',
      check node (Spec.node_name node) issues = Ok issues' ->
      Forall (Facts.attributed node) issues ->
      Forall (Facts.attributed node) issues'.
Proof.
  intros Hn check Hin. unfold checks in Hin. simpl in Hin.
  repeat (destruct Hin as [<- | Hin]); try destruct Hin; intros issues issues'.
  - unfold check_llm01. repeat attributed_step Hn.
  - unfold check_llm02. repeat attributed_step Hn.
  - unfold check_llm03. repeat attributed_step Hn.
  - unfold check_llm04. repeat attributed_step Hn.
  - unfold check_llm06.
    destruct (get node (u"parameters")) as [[obj | ] | e]; cbn [bind];
      try discriminate; try (intros E; injection E as <-; trivial).
    destruct (truthy (Some obj));
      [ | intros E; injection E as <-; trivial].
    rewrite (checkForSensitiveData_spec _ _ Hn).
    intros E HP. injection E as <-. apply Forall_app. split; [exact HP | ].
    apply Forall_forall. intros i Hi. apply in_flat_map in Hi.
    destruct Hi as [text [_ Hi]]. unfold Spec.findings_in in Hi.
    apply in_map_iff in Hi. destruct Hi as [p [<- _]]. split; reflexivity.
  - unfold check_llm07. repeat attributed_step Hn.
  - unfold check_llm08. repeat attributed_step Hn.
  - unfold check_llm09. repeat attributed_step Hn.
  - unfold check_llm10. repeat attributed_step Hn.
  - unfold check_planning. repeat attributed_step Hn.
  - unfold check_memory. repeat attributed_step Hn.
  - intros H HP. rewrite (check_credentials_spec _ _ _ _ Hn H).
    apply Forall_app. split; [exact HP | ].
    unfold Facts.credential_findings.
    destruct (Spec.prop node (u"credentials")) as [creds | ]; [ | constructor].
    destruct (truthy (Some creds)); [ | constructor].
    apply Forall_forall. intros i Hi. apply in_map_iff in Hi.
    destruct Hi as [credType [<- _]]. split; reflexivity.
  - unfold check_code_execution. repeat attributed_step Hn.
  - unfold check_http_request. repeat attributed_step Hn.
  - unfold check_webhook. repeat attributed_step Hn.
  - unfold check_social_media. repeat attributed_step Hn.
  - unfold check_database. repeat attributed_step Hn.
  - unfold check_file_system. repeat attributed_step Hn.
Qed.

Lemma node_name_truthy (node : value) : truthy (Spec.node_name node) = true.
Proof.
  unfold Spec.node_name, or_else.
  destruct (truthy (Spec.prop node (u"name"))) eqn:H1; rewrite ?H1;
    [reflexivity | ].
  destruct (truthy (Spec.prop node (u"id"))) eqn:H2; rewrite ?H2;
    reflexivity.
Qed.

(** X8. Every finding the engine appends for a node carries the node's
    own [id] as [nodeId] and [node.name || node.id || "Unknown"] as
    [nodeName]; that name is never falsy, so no finding of the engine is
    ever grouped under the fallback key "Unknown Node". *)
Theorem findings_name_their_node (node : value)
  (issues issues' : list SecurityIssue) :
  checkNodeSecurity node issues = Ok issues' ->
  exists added,
    issues' = issues ++ added /\
    Forall (fun i => nodeId i = Spec.prop node (u"id") /\
                     nodeName i = Spec.node_name node /\
                     truthy (nodeName i) = true) added.
Proof.
  intros Hrun.
  destruct (appends_result _ _ _ (checkNodeSecurity_appends node) Hrun)
    as [added [Hadded ->]].
  exists added. split; [reflexivity | ].
  destruct (checkNodeSecurity_run _ _ _ Hadded) as [Hn [sticky [_ Hchecks]]].
  destruct sticky; [subst added; constructor | ].
  assert (H : Forall (Facts.attributed node) added).
  { refine (for_each_preserves (Facts.attributed node)
              (fun check => check node (Spec.node_name node)) checks
              _ [] added Hchecks (Forall_nil _)).
    intros check i i' Hin. apply (checks_attributed _ Hn check Hin). }
  apply Forall_forall. intros i Hi. rewrite Forall_forall in H.
  destruct (H i Hi) as [H1 H2]. repeat split; try assumption.
  rewrite H2. apply node_name_truthy.
Qed.

Lemma findings_name_their_node_witness :
  exists added,
    Samples.findings_of Samples.fetch = [] ++ added /\
    Forall (fun i => nodeId i = Spec.prop (Some Samples.fetch) (u"id") /\
                     nodeName i = Spec.node_name (Some Samples.fetch) /\
                     truthy (nodeName i) = true) added.
Proof.
  apply (findings_name_their_node (Some Samples.fetch) []
           (Samples.findings_of Samples.fetch)).
  vm_compute. reflexivity.
Defined.

(** *** The order of the findings of a node *)

Lemma checks_parts Ts cs (node nn : value) :
  Forall2 Spec.check_of Ts cs ->
  forall issues issues',
    for_each (fun c => c node nn) cs issues = Ok issues' ->
    exists parts,
      Forall2 (fun T part => Forall (fun i => type i = T) part) Ts parts /\
      issues' = issues ++ List.concat parts.
Proof.
  induction 1 as [ | T0 c Ts cs Hc Hrest IH]; intros issues issues'.
  - simpl. intros E. injection E as <-. exists []. split; [constructor | ].
    simpl. rewrite app_nil_r. reflexivity.
  - cbn [for_each].
    destruct (c node nn issues) as [mid | e] eqn:Hmid; cbn [bind];
      [ | discriminate].
    intros Hrun.
    destruct (Hc node nn) as [Happ Hadd].
    destruct (appends_result _ _ _ Happ Hmid) as [part [Hpart ->]].
    destruct (IH _ _ Hrun) as [parts [Hparts ->]].
    exists (part :: parts). split.
    + constructor; [apply Hadd, Hpart | exact Hparts].
    + cbn [List.concat]. rewrite app_assoc. reflexivity.
Qed.

Lemma in_category_other T (Ts : list Str.t) (parts : list (list SecurityIssue)) :
  Forall2 (fun T part => Forall (fun i => type i = T) part) Ts parts ->
  existsb (Str.eqb T) Ts = false ->
  Spec.in_category T (List.concat parts) = [].
Proof.
  induction 1 as [ | T0 part Ts parts Hpart Hrest IH]; [reflexivity | ].
  cbn [existsb List.concat]. intros H. apply orb_false_elim in H.
  destruct H as [H0 H]. rewrite in_category_app, (IH H).
  rewrite (in_category_uniform T T0 part Hpart).
  replace (Str.eqb T0 T) with false; [reflexivity | ].
  symmetry. destruct (Str.eqb T0 T) eqn:E; [ | reflexivity].
  apply Str_eqb_eq in E. subst. rewrite Str_eqb_refl in H0. discriminate.
Qed.

Lemma grouped_by_category (Ts : list Str.t) (parts : list (list SecurityIssue)) :
  Forall2 (fun T part => Forall (fun i => type i = T) part) Ts parts ->
  Facts.distinct Ts = true ->
  List.concat (map (fun T => Spec.in_category T (List.concat parts)) Ts)
  = List.concat parts.
Proof.
  induction 1 as [ | T0 part Ts parts Hpart Hrest IH]; [reflexivity | ].
  cbn [Facts.distinct map List.concat]. intros H.
  apply andb_true_iff in H. destruct H as [H0 H].
  apply negb_true_iff in H0.
  rewrite in_category_app, (in_category_other _ _ _ Hrest H0), app_nil_r.
  rewrite (in_category_uniform T0 T0 part Hpart), Str_eqb_refl.
  f_equal. etransitivity; [ | apply (IH H)].
  f_equal. apply map_ext_in. intros T HT.
  rewrite in_category_app, (in_category_uniform T T0 part Hpart).
  replace (Str.eqb T0 T) with false; [reflexivity | ].
  symmetry. destruct (Str.eqb T0 T) eqn:E; [ | reflexivity].
  apply Str_eqb_eq in E. subst.
  assert (Hex : existsb (Str.eqb T) Ts = true).
  { apply existsb_exists. exists T. split; [exact HT | apply Str_eqb_refl]. }
  rewrite Hex in H0. discriminate.
Qed.

(** X9. The findings the engine appends for a node come grouped by
    category, the categories in the order of the catalog: the list is the
    concatenation, over the eighteen categories in that order, of its
    findings of each category. *)
Theorem findings_in_catalog_order (node : json) :
  Spec.node_findings node
  = List.concat (map (fun T => Spec.in_category T (Spec.node_findings node))
                     Spec.categories).
Proof.
  unfold Spec.node_findings.
  destruct (checkNodeSecurity (Some node) []) as [added | e] eqn:Hrun.
  - destruct (checkNodeSecurity_run _ _ _ Hrun) as [Hn [sticky [_ Hchecks]]].
    destruct sticky; [subst added; reflexivity | ].
    destruct (checks_parts _ _ _ _ checks_categories _ _ Hchecks)
      as [parts [Hparts ->]].
    cbn [app]. symmetry. apply (grouped_by_category _ _ Hparts).
    vm_compute. reflexivity.
  - reflexivity.
Qed.

(** *** What the sensitive-data scan reads *)

(** X10. The scan for sensitive data reads the string values of
    [node.parameters] and nothing else: two parameter trees with the same
    string values in the same order get the same findings, whatever their
    property names, numbers and nesting are. *)
Theorem sensitive_scan_reads_string_values (node nn : value) (obj obj' : json)
  (issues : list SecurityIssue) :
  nullish node = false ->
  Spec.strings_of obj = Spec.strings_of obj' ->
  checkForSensitiveData node nn obj issues
  = checkForSensitiveData node nn obj' issues.
Proof.
  intros Hn H. rewrite !(checkForSensitiveData_spec _ _ Hn), H. reflexivity.
Qed.

Lemma sensitive_scan_reads_string_values_witness :
  checkForSensitiveData (Some Samples.fetch) None
    (Samples.parsed "{'password':'x','n':4111111111111111}") []
  = checkForSensitiveData (Some Samples.fetch) None
      (Samples.parsed "['x']") [].
Proof.
  apply (sensitive_scan_reads_string_values (Some Samples.fetch) None
           (Samples.parsed "{'password':'x','n':4111111111111111}")
           (Samples.parsed "['x']") []);
    vm_compute; reflexivity.
Defined.

Lemma type_includes_has (node : value) (s0 : Str.t) (b0 : bool) :
  type_includes node s0 = Ok b0 ->
  forall s, type_includes node s = Ok (Facts.type_has node s).
Proof.
  intros H s. unfold Facts.type_has.
  unfold type_includes in *.
  destruct (get node (u"type")) as [[[ | | | | | ] | ] | e];
    cbn [bind call_includes] in *; try discriminate; reflexivity.
Qed.

Lemma check_webhook_spec (node nn : value) (issues : list SecurityIssue) :
  nullish node = false ->
  type_includes node (u"stickyNote") = Ok false ->
  check_webhook node nn issues = Ok (issues ++ Facts.webhook_findings node nn).
Proof.
  intros Hn Hs. unfold check_webhook, Facts.webhook_findings.
  rewrite !(type_includes_has _ _ _ Hs). unfold or_b, is_truthy.
  rewrite (get_prop _ _ Hn). cbn [bind].
  destruct (Facts.type_has node (u"trigger")); cbn [bind orb andb];
    destruct (Facts.type_has node (u"webhook")); cbn [bind orb andb];
    try destruct (Facts.type_has node (u"form")); cbn [bind orb andb];
    try destruct (truthy (Spec.prop node (u"webhookId"))); cbn [bind orb andb];
    rewrite ?app_nil_r; try reflexivity; apply push_issue_spec, Hn.
Qed.

(** X7. Among the findings the engine appends for a node that is not a
    sticky note, those of the category "Webhook Exposure" are one
    medium-severity finding when the type holds [webhook], or holds
    [trigger] or [form] and the node has a truthy [webhookId]; none
    otherwise. *)
Theorem webhook_finding (node : value) (issues issues' : list SecurityIssue) :
  checkNodeSecurity node issues = Ok issues' ->
  type_includes node (u"stickyNote") = Ok false ->
  Spec.in_category (u"Webhook Exposure") issues'
  = Spec.in_category (u"Webhook Exposure") issues
    ++ Facts.webhook_findings node (Spec.node_name node) /\
  Forall (fun i => severity i = medium)
         (Facts.webhook_findings node (Spec.node_name node)).
Proof.
  intros Hrun Hsticky.
  destruct (checkNodeSecurity_run _ _ _ Hrun) as [Hn [sticky [Hs Hchecks]]].
  rewrite Hsticky in Hs. injection Hs as <-.
  split.
  - destruct (checks_in_category _ _ node (Spec.node_name node)
                checks_categories (u"Webhook Exposure") _ _ Hchecks)
      as [parts [Hparts ->]].
    f_equal. unfold checks in Hparts. invert_parts.
    unfold Spec.categories. cbn [combine map fst snd].
    decide_categories. cbn [List.concat app]. rewrite app_nil_r.
    match goal with
    | H : check_webhook _ _ [] = Ok _ |- _ =>
      rewrite (check_webhook_spec _ _ [] Hn Hsticky) in H; injection H as <-
    end.
    reflexivity.
  - unfold Facts.webhook_findings.
    destruct (_ || _); repeat constructor.
Qed.

Lemma webhook_finding_witness :
  Spec.in_category (u"Webhook Exposure") (Samples.findings_of Samples.webhook)
  = Spec.in_category (u"Webhook Exposure") []
    ++ Facts.webhook_findings (Some Samples.webhook)
         (Spec.node_name (Some Samples.webhook)) /\
  Forall (fun i => severity i = medium)
         (Facts.webhook_findings (Some Samples.webhook)
            (Spec.node_name (Some Samples.webhook))).
Proof.
  apply (webhook_finding (Some Samples.webhook) []
           (Samples.findings_of Samples.webhook));
    vm_compute; reflexivity.
Defined.

(** *** When validation completes *)

Section RegularNode.

Variables (ref : N) (props : list (Str.t * json)) (t : Str.t).
Hypothesis Htype : lookup (u"type") props = Some (JStr t).
Hypothesis Htools :
  match Spec.prop (lookup (u"parameters") props) (u"tools") with
  | Some (JObj _ _) => false
  | _ => true
  end = true.
Hypothesis Hcreds : Spec.plain_credentials (Some (JObj ref props)) = true.

Let node : value := Some (JObj ref props).

Lemma check_llm08_regular nn : is_ok (check_llm08 node nn []) = true.
Proof.
  destruct (Str.includes t (u"agent")) eqn:Hagent;
    [ | apply (check_llm08_returns ref props t Htype nn Hagent)].
  unfold check_llm08.
  rewrite (type_includes_object ref props t Htype), Hagent.
  rewrite !(parameter_object ref props).
  cbn [or_b bind].
  destruct (Spec.prop (lookup (u"parameters") props) (u"tools"))
    as [[ | b | x | s | r xs | r ps] | ]; try discriminate;
    cbn [get_opt get or_v bind truthy];
    try change (Str.eqb (u"length") length_key) with true; cbv iota;
    unfold or_v; cbn [bind];
    repeat match goal with
           | |- context [if ?b then _ else _] => destruct b
           | _ => progress (unfold Conv.greater_than;
                            cbn [bind Conv.to_number to_string to_string_json
                                 is_ok])
           end; reflexivity.
Qed.

Lemma checkNodeSecurity_regular (issues : list SecurityIssue) :
  is_ok (checkNodeSecurity node issues) = true.
Proof.
  unfold checkNodeSecurity.
  rewrite (nodeName_spec node eq_refl). cbn [bind].
  rewrite (type_includes_object ref props t Htype). cbn [bind].
  destruct (Str.includes t (u"stickyNote")); [reflexivity | ].
  apply for_each_checks_return. unfold checks.
  apply Forall_cons;
    [split; [apply check_llm01_appends
            | apply (check_llm01_returns ref props t Htype)] | ].
  apply Forall_cons;
    [split; [apply check_llm02_appends
            | apply (check_llm02_returns ref props t Htype)] | ].
  apply Forall_cons;
    [split; [apply check_llm03_appends
            | apply (check_llm03_returns ref props)] | ].
  apply Forall_cons;
    [split; [apply check_llm04_appends
            | apply (check_llm04_returns ref props t Htype)] | ].
  apply Forall_cons;
    [split; [apply check_llm06_appends
            | apply (check_llm06_returns ref props)] | ].
  apply Forall_cons;
    [split; [apply check_llm07_appends
            | apply (check_llm07_returns ref props t Htype)] | ].
  apply Forall_cons;
    [split; [apply check_llm08_appends | apply check_llm08_regular] | ].
  apply Forall_cons;
    [split; [apply check_llm09_appends
            | apply (check_llm09_returns ref props t Htype)] | ].
  apply Forall_cons;
    [split; [apply check_llm10_appends
            | apply (check_llm10_returns ref props)] | ].
  apply Forall_cons;
    [split; [apply check_planning_appends
            | apply (check_planning_returns ref props t Htype)] | ].
  apply Forall_cons;
    [split; [apply check_memory_appends
            | apply (check_memory_returns ref props t Htype)] | ].
  apply Forall_cons;
    [split; [apply check_credentials_appends
            | apply (check_credentials_returns ref props), Hcreds] | ].
  apply Forall_cons;
    [split; [apply check_code_execution_appends
            | apply (check_code_execution_returns ref props)] | ].
  apply Forall_cons;
    [split; [apply check_http_request_appends
            | apply (check_http_request_returns ref props)] | ].
  apply Forall_cons;
    [split; [apply check_webhook_appends
            | apply (check_webhook_returns ref props t Htype)] | ].
  apply Forall_cons;
    [split; [apply check_social_media_appends
            | apply (check_social_media_returns ref props t Htype)] | ].
  apply Forall_cons;
    [split; [apply check_database_appends
            | apply (check_database_returns ref props t Htype)] | ].
  apply Forall_cons;
    [split; [apply check_file_system_appends
            | apply (check_file_system_returns ref props t Htype)] | ].
  apply Forall_nil.
Qed.

End RegularNode.

Lemma regular_object (node : json) :
  Facts.regular node = true ->
  exists ref props t,
    node = JObj ref props /\
    lookup (u"type") props = Some (JStr t) /\
    Facts.printable (lookup (u"name") props) = true /\
    Facts.printable (lookup (u"id") props) = true /\
    match Spec.prop (lookup (u"parameters") props) (u"tools") with
    | Some (JObj _ _) => false
    | _ => true
    end = true /\
    Spec.plain_credentials (Some node) = true.
Proof.
  destruct node as [ | | | | | ref props]; try discriminate.
  cbn [Facts.regular].
  destruct (lookup (u"type") props) as [[ | | | t | | ] | ] eqn:Ht;
    try discriminate.
  intros H. apply andb_true_iff in H. destruct H as [H H4].
  apply andb_true_iff in H. destruct H as [H H3].
  apply andb_true_iff in H. destruct H as [H1 H2].
  exists ref, props, t. auto 10.
Qed.

Lemma label_regular (ref : N) (props : list (Str.t * json)) (index : nat) :
  Facts.printable (lookup (u"name") props) = true ->
  Facts.printable (lookup (u"id") props) = true ->
  exists text,
    bind (displayName (Some (JObj ref props)) index) to_string = Ok text.
Proof.
  unfold Facts.printable, displayName, or_v. cbn [get bind]. intros Hn Hi.
  destruct (truthy (lookup (u"name") props)) eqn:H1;
    repeat (cbn [bind]; rewrite ?H1).
  - destruct (to_string (lookup (u"name") props)) as [text | e];
      [exists text; reflexivity | discriminate].
  - destruct (truthy (lookup (u"id") props)) eqn:H2;
      repeat (cbn [bind]; rewrite ?H2).
    + destruct (to_string (lookup (u"id") props)) as [text | e];
        [exists text; reflexivity | discriminate].
    + eexists. reflexivity.
Qed.

Lemma validateNode_regular (node : json) (index : nat) (l : Lists) :
  Facts.regular node = true -> exists l', validateNode node index l = Ok l'.
Proof.
  intros H.
  destruct (regular_object _ H)
    as [ref [props [t [-> [Ht [Hname [Hid [Htools Hcreds]]]]]]]].
  destruct (label_regular ref props index Hname Hid) as [text Htext].
  pose proof (checkNodeSecurity_regular ref props t Ht Htools Hcreds
                (l_securityIssues l)) as Hok.
  unfold validateNode. cbn [get bind]. rewrite Ht.
  change (fun d : value => to_string d) with to_string.
  rewrite Htext.
  destruct (checkNodeSecurity (Some (JObj ref props)) (l_securityIssues l));
    [ | discriminate].
  destruct (truthy (Some (JStr t)));
    destruct (truthy (lookup (u"typeVersion") props)); cbn [bind]; eauto.
Qed.

Lemma node_loop_regular (ns : list json) :
  forallb Facts.regular ns = true ->
  forall i l, exists l', for_each_indexed validateNode ns i l = Ok l'.
Proof.
  induction ns as [ | node ns IH]; intros H i l; cbn [for_each_indexed];
    [eauto | ].
  cbn [forallb] in H. apply andb_true_iff in H. destruct H as [Hnode Hns].
  destruct (validateNode_regular node i l Hnode) as [l' ->]. cbn [bind].
  apply (IH Hns).
Qed.

Lemma regular_typed (node : json) :
  Facts.regular node = true -> Spec.typed node = true.
Proof.
  intros H.
  destruct (regular_object _ H) as [ref [props [t [-> [Ht _]]]]].
  unfold Spec.typed, Spec.prop. cbn [get]. rewrite Ht. reflexivity.
Qed.

(** X11. Validation completes, and a report of the validator reaches
    the caller, for every document with a [nodes] array of regular nodes
    (objects with a string [type], a [name] and an [id] that convert to
    strings, [parameters.tools] that is no plain object, and [credentials]
    without a [null] entry) and a [meta.instanceId] that converts to a
    string. *)
Theorem validation_completes (data : value) (ref : N) (ns : list json) :
  Spec.prop data (u"nodes") = Some (JArr ref ns) ->
  forallb Facts.regular ns = true ->
  Facts.printable (Spec.prop (Spec.prop data (u"meta")) (u"instanceId")) = true ->
  exists r, validateN8nWorkflow data = Ok r /\ isN8nWorkflow r = true.
Proof.
  intros Hnodes Hreg Hprint. unfold validateN8nWorkflow.
  rewrite looksLikeWorkflow_spec. cbn [bind].
  assert (Hd : nullish data = false).
  { destruct data as [[ | | | | | ] | ]; try reflexivity;
      vm_compute in Hnodes; discriminate. }
  assert (Hw : Spec.has_truthy_workflow_attribute data = true).
  { unfold Spec.has_truthy_workflow_attribute. rewrite Hnodes.
    destruct data as [[ | b | x | s | r' xs | r' props] | ];
      try (vm_compute in Hnodes; discriminate); reflexivity. }
  rewrite Hw. cbn [negb].
  rewrite !(get_prop _ _ Hd). cbn [bind]. rewrite Hnodes.
  match goal with
  | |- context [for_each_indexed validateNode ns 0 ?init] =>
    destruct (node_loop_regular ns Hreg 0 init) as [l ->]
  end.
  cbn [bind].
  assert (Hinfo : exists info0, metadataInfo data [] = Ok info0).
  { unfold metadataInfo. rewrite (get_prop _ _ Hd). cbn [bind].
    destruct (truthy (Spec.prop data (u"meta"))) eqn:Hm; [ | eauto].
    rewrite !(get_prop _ _ (truthy_not_nullish _ Hm)). cbn [bind].
    unfold Facts.printable in Hprint.
    destruct (truthy (Spec.prop (Spec.prop data (u"meta")) (u"instanceId")));
      [ | cbn [bind]; eauto].
    destruct (to_string _); [ | discriminate]. cbn [bind]. eauto. }
  destruct Hinfo as [info0 ->]. cbn [bind call_filter].
  rewrite (filter_m_ok notStickyNote (fun n => negb (Spec.is_annotation n))).
  - cbn [bind]. rewrite get_opt_prop. unfold or_v. cbn [bind].
    destruct (truthy (Spec.prop data (u"name"))); cbn [bind]; eauto.
  - intros node Hin. apply notStickyNote_typed, regular_typed.
    rewrite forallb_forall in Hreg. apply (Hreg node Hin).
Qed.

Lemma validation_completes_witness :
  exists r,
    validateN8nWorkflow (Some Samples.workflow) = Ok r /\
    isN8nWorkflow r = true.
Proof.
  apply (validation_completes (Some Samples.workflow)
           (Samples.nodes_ref Samples.workflow)
           (Samples.nodes_of Samples.workflow));
    vm_compute; reflexivity.
Defined.

(** ** The reports of the page *)

Lemma validate_report_shape (data : value) (r : ValidationResult) :
  validateN8nWorkflow data = Ok r ->
  isValid r = match errors r with [] => true | _ => false end /\
  (isN8nWorkflow r = false -> r = failure not_a_workflow_error) /\
  (isN8nWorkflow r = true -> exists w, workflowInfo r = Some w).
Proof.
  intros Hval.
  destruct (Spec.has_truthy_workflow_attribute data) eqn:Hw.
  - destruct (validate_workflow _ _ Hw Hval) as [Hwf Hinfo].
    destruct (completed_validation_nodes _ _ Hval Hwf) as [ref [ns Hnodes]].
    destruct (validate_spec _ _ _ _ Hval Hnodes) as [_ [_ [_ [_ [Hv _]]]]].
    split; [exact Hv | ]. split; [ | intros _; exact Hinfo].
    rewrite Hwf. discriminate.
  - rewrite (validate_not_a_workflow _ Hw) in Hval. injection Hval as <-.
    split; [reflexivity | ]. split; [reflexivity | discriminate].
Qed.

(** X12. [analyzeJson] always sets a report, and every report it sets is
    well formed: [isValid] holds exactly when there is no error; a report
    with [isN8nWorkflow = false] has exactly one error and no warning, no
    info, no finding and no summary; a report with [isN8nWorkflow = true]
    has a summary, and then [workflowData] is the parsed document. *)
Theorem analysis_report_well_formed :
  forall (error_message : js_error -> Str.t) (jsonInput : Str.t) (st : State),
  exists r,
    result_ (analyzeJson error_message jsonInput st) = Some r /\
    isValid r = match errors r with [] => true | _ => false end /\
    (isN8nWorkflow r = false ->
     exists text, r = failure text) /\
    (isN8nWorkflow r = true ->
     (exists w, workflowInfo r = Some w) /\
     exists parsed,
       JSONParser.parse jsonInput = Ok parsed /\
       workflowData (analyzeJson error_message jsonInput st) = Some parsed /\
       validateN8nWorkflow (Some parsed) = Ok r).
Proof.
  intros error_message jsonInput st. unfold analyzeJson.
  destruct (Str.trim jsonInput) as [ | c rest].
  { eexists. split; [reflexivity | ]. split; [reflexivity | ].
    split; [eauto | discriminate]. }
  destruct (JSONParser.parse jsonInput) as [parsed | e]; cbn [bind].
  - destruct (validateN8nWorkflow (Some parsed)) as [r | e] eqn:Hval;
      cbn [bind].
    + exists r. split; [reflexivity | ].
      destruct (validate_report_shape _ _ Hval) as [Hv [Hn Hw]].
      split; [exact Hv | ]. split; [eauto | ].
      intros Hwf. split; [apply Hw, Hwf | ]. exists parsed. auto.
    + eexists. split; [reflexivity | ]. split; [reflexivity | ].
      split; [eauto | discriminate].
  - eexists. split; [reflexivity | ]. split; [reflexivity | ].
    split; [eauto | discriminate].
Qed.

(** ** Upload and drop *)

Import Upload.

(** X13. Uploading a file that passes the type test and is read gives the
    state that pasting its content and analysing gives, whenever the
    content is not blank. For a blank content the two differ: the upload
    reports the syntax error of [JSON.parse] and resets [workflowData],
    the analysis of pasted text asks for input and keeps
    [workflowData]. *)
Theorem upload_agrees_with_analysis (error_message : js_error -> Str.t)
  (file : File) (p : Page) (content : Str.t) :
  Facts.named_json file = true ->
  file_text file = Some content ->
  (Str.trim content <> [] ->
   processFile error_message file p
   = analyze error_message {| jsonInput := content; analysis := analysis p |}) /\
  (Str.trim content = [] ->
   analysis (processFile error_message file p)
   = {| result_ := Some (failure (u"Invalid JSON format: " ++
                                  error_message (SyntaxError content)));
        workflowData := Some JNull |} /\
   analysis (analyze error_message
               {| jsonInput := content; analysis := analysis p |})
   = {| result_ := Some (failure (u"Please provide JSON input"));
        workflowData := workflowData (analysis p) |}).
Proof.
  intros Hjson Hread. unfold Facts.named_json in Hjson.
  unfold processFile, analyze. rewrite <- negb_orb, Hjson, Hread. cbn [negb].
  cbn [jsonInput analysis]. unfold analyzeJson. split.
  - intros Hblank. destruct (Str.trim content); [contradiction | reflexivity].
  - intros Hblank. rewrite (parse_blank _ Hblank), Hblank. cbn [bind].
    split; reflexivity.
Qed.

Lemma upload_agrees_with_analysis_witness :
  (Str.trim Inputs.demo <> [] ->
   processFile (fun _ => []) Samples.demo_file Samples.start
   = analyze (fun _ => [])
       {| jsonInput := Inputs.demo; analysis := analysis Samples.start |}) /\
  (Str.trim Inputs.demo = [] ->
   analysis (processFile (fun _ => []) Samples.demo_file Samples.start)
   = {| result_ := Some (failure (u"Invalid JSON format: " ++ []));
        workflowData := Some JNull |} /\
   analysis (analyze (fun _ => [])
               {| jsonInput := Inputs.demo;
                  analysis := analysis Samples.start |})
   = {| result_ := Some (failure (u"Please provide JSON input"));
        workflowData := workflowData (analysis Samples.start) |}).
Proof.
  apply (upload_agrees_with_analysis (fun _ => []) Samples.demo_file
           Samples.start Inputs.demo);
    vm_compute; reflexivity.
Defined.

(** X14. A drop hands to [processFile] the first file that passes for
    JSON by type or by name, and that file always passes the type test of
    [processFile]: the state after a drop is the one the reader leaves for
    that file, or the report "Please drop a JSON file" when no file passes,
    never the report "Please upload a JSON file". *)
Theorem drop_reads_first_json_file :
  forall (error_message : js_error -> Str.t) (files : list File) (p : Page),
    handleDrop error_message files p
    = match find Facts.named_json files with
      | Some jsonFile => Facts.after_read error_message jsonFile p
      | None => setResult (failure (u"Please drop a JSON file")) p
      end.
Proof.
  intros error_message files p. unfold handleDrop.
  change (fun file : File =>
            Str.includes (file_type file) (u"json") ||
            StrMethods.ends_with (file_name file) (u".json"))
    with Facts.named_json.
  destruct (find Facts.named_json files) as [jsonFile | ] eqn:Hfind;
    [ | reflexivity].
  apply find_some in Hfind. destruct Hfind as [_ Hjson].
  unfold Facts.named_json in Hjson.
  unfold processFile, Facts.after_read. rewrite <- negb_orb, Hjson.
  reflexivity.
Qed.

(** ** Objects the code builds *)


Lemma own_none_not_in {A} (o : Obj.t A) (k : Str.t) :
  Obj.own o k = None -> ~ In k (map fst o).
Proof.
  induction o as [ | [k' a] o IH]; simpl; [tauto | ].
  destruct (Str.eqb k k') eqn:E; [discriminate | ].
  intros H [Hk | Hk].
  - subst. rewrite Str_eqb_refl in E. discriminate.
  - apply (IH H Hk).
Qed.

Lemma own_some_in {A} (o : Obj.t A) (k : Str.t) (a : A) :
  Obj.own o k = Some a -> In (k, a) o.
Proof.
  induction o as [ | [k' a'] o IH]; simpl; [discriminate | ].
  destruct (Str.eqb k k') eqn:E.
  - apply Str_eqb_eq in E. subst. intros H. injection H as <-. left.
    reflexivity.
  - intros H. right. apply (IH H).
Qed.

Lemma keys_replace {A} (k : Str.t) (a : A) (o : Obj.t A) :
  map fst (Obj.replace k a o) = map fst o.
Proof.
  induction o as [ | [k' a'] o IH]; simpl; [reflexivity | ].
  destruct (Str.eqb k k'); simpl; [reflexivity | ]. rewrite IH. reflexivity.
Qed.

Lemma insert_index_perm {A} (i : N) (k : Str.t) (a : A) (o : Obj.t A) :
  Permutation ((k, a) :: o) (Obj.insert_index i k a o).
Proof.
  induction o as [ | [k' a'] o IH]; simpl; [apply Permutation_refl | ].
  destruct (array_index k') as [j | ]; [ | apply Permutation_refl].
  destruct (j <? i)%N; [ | apply Permutation_refl].
  eapply Permutation_trans; [apply perm_swap | ].
  apply perm_skip, IH.
Qed.

Lemma define_new_perm {A} (o : Obj.t A) (k : Str.t) (a : A) :
  Obj.own o k = None -> Permutation ((k, a) :: o) (Obj.define o k a).
Proof.
  intros H. unfold Obj.define. rewrite H.
  destruct (array_index k) as [i | ].
  - apply insert_index_perm.
  - apply Permutation_cons_append.
Qed.

Lemma own_replace_same {A} (o : Obj.t A) (k : Str.t) (a a0 : A) :
  Obj.own o k = Some a0 -> Obj.own (Obj.replace k a o) k = Some a.
Proof.
  induction o as [ | [k' a'] o IH]; simpl; [discriminate | ].
  destruct (Str.eqb k k') eqn:E; simpl; rewrite E; [reflexivity | exact IH].
Qed.

Lemma own_replace_other {A} (o : Obj.t A) (k k' : Str.t) (a : A) :
  Str.eqb k' k = false ->
  Obj.own (Obj.replace k a o) k' = Obj.own o k'.
Proof.
  intros Hne. induction o as [ | [k0 a0] o IH]; simpl; [reflexivity | ].
  destruct (Str.eqb k k0) eqn:E; simpl.
  - apply Str_eqb_eq in E. subst k0. rewrite Hne. reflexivity.
  - rewrite IH. reflexivity.
Qed.

Lemma own_insert_index_same {A} (i : N) (o : Obj.t A) (k : Str.t) (a : A) :
  Obj.own o k = None -> Obj.own (Obj.insert_index i k a o) k = Some a.
Proof.
  induction o as [ | [k' a'] o IH]; simpl.
  - rewrite Str_eqb_refl. reflexivity.
  - destruct (Str.eqb k k') eqn:E; [discriminate | ]. intros H.
    destruct (array_index k') as [j | ]; simpl;
      [destruct (j <? i)%N; simpl | ];
      rewrite ?E, ?Str_eqb_refl; auto.
Qed.

Lemma own_insert_index_other {A} (i : N) (o : Obj.t A) (k k' : Str.t) (a : A) :
  Str.eqb k' k = false ->
  Obj.own (Obj.insert_index i k a o) k' = Obj.own o k'.
Proof.
  intros Hne. induction o as [ | [k0 a0] o IH]; simpl.
  - rewrite Hne. reflexivity.
  - destruct (array_index k0) as [j | ]; simpl;
      [destruct (j <? i)%N; simpl | ]; rewrite ?Hne, ?IH; reflexivity.
Qed.

Lemma own_app {A} (o o' : Obj.t A) (k : Str.t) :
  Obj.own (o ++ o') k
  = match Obj.own o k with Some a => Some a | None => Obj.own o' k end.
Proof.
  induction o as [ | [k0 a0] o IH]; simpl; [reflexivity | ].
  destruct (Str.eqb k k0); [reflexivity | exact IH].
Qed.

Lemma own_define_same {A} (o : Obj.t A) (k : Str.t) (a : A) :
  Obj.own (Obj.define o k a) k = Some a.
Proof.
  unfold Obj.define. destruct (Obj.own o k) as [a0 | ] eqn:H.
  - apply (own_replace_same _ _ _ _ H).
  - destruct (array_index k) as [i | ].
    + apply (own_insert_index_same _ _ _ _ H).
    + rewrite own_app, H. simpl. rewrite Str_eqb_refl. reflexivity.
Qed.

Lemma own_define_other {A} (o : Obj.t A) (k k' : Str.t) (a : A) :
  Str.eqb k' k = false ->
  Obj.own (Obj.define o k a) k' = Obj.own o k'.
Proof.
  intros Hne. unfold Obj.define. destruct (Obj.own o k) as [a0 | ].
  - apply (own_replace_other _ _ _ _ Hne).
  - destruct (array_index k) as [i | ].
    + apply (own_insert_index_other _ _ _ _ _ Hne).
    + rewrite own_app. simpl. rewrite Hne.
      destruct (Obj.own o k'); reflexivity.
Qed.

Lemma keys_define_nodup {A} (o : Obj.t A) (k : Str.t) (a : A) :
  NoDup (map fst o) -> NoDup (map fst (Obj.define o k a)).
Proof.
  intros Hnd. destruct (Obj.own o k) as [a0 | ] eqn:H.
  - unfold Obj.define. rewrite H, keys_replace. exact Hnd.
  - apply (Permutation_NoDup
             (Permutation_map fst (define_new_perm o k a H))).
    simpl. constructor; [apply (own_none_not_in _ _ H) | exact Hnd].
Qed.

Lemma Str_eqb_sym (a b : Str.t) : Str.eqb a b = Str.eqb b a.
Proof.
  destruct (Str.eqb a b) eqn:E.
  - apply Str_eqb_eq in E. subst. symmetry. apply Str_eqb_refl.
  - destruct (Str.eqb b a) eqn:E'; [ | reflexivity].
    apply Str_eqb_eq in E'. subst. rewrite Str_eqb_refl in E. discriminate.
Qed.

(** ** The report *)

Import Report.

(** X15. The three risk cards of the report add up: every finding is
    counted in exactly one of [highIssues], [mediumIssues] and
    [lowIssues]. *)
Theorem risk_cards_add_up :
  forall issues : list SecurityIssue,
    highIssues issues + mediumIssues issues + lowIssues issues
    = List.length issues.
Proof.
  unfold highIssues, mediumIssues, lowIssues, countSeverity.
  induction issues as [ | i l IH]; [reflexivity | ].
  cbn [filter]. destruct (severity i); cbn [severity_eqb List.length];
    lia.
Qed.

(** *** Grouping the findings by node *)

Lemma group_snoc_same (k : Str.t) (done : list SecurityIssue)
  (issue : SecurityIssue) :
  Facts.group_key issue = k ->
  Facts.group k (done ++ [issue])
  = Some (match Facts.group k done with
          | Some g => g ++ [issue]
          | None => [issue]
          end).
Proof.
  intros Hk. unfold Facts.group. rewrite filter_app. cbn [filter].
  rewrite Hk, Str_eqb_refl.
  destruct (filter _ done) as [ | i g]; reflexivity.
Qed.

Lemma group_snoc_other (k : Str.t) (done : list SecurityIssue)
  (issue : SecurityIssue) :
  Str.eqb (Facts.group_key issue) k = false ->
  Facts.group k (done ++ [issue]) = Facts.group k done.
Proof.
  intros Hk. unfold Facts.group. rewrite filter_app. cbn [filter].
  rewrite Hk, app_nil_r. reflexivity.
Qed.

Lemma grouped_own_not_inherited (acc : Obj.t (list SecurityIssue))
  (done : list SecurityIssue) (key : Str.t) (g : list SecurityIssue) :
  Facts.grouped acc done ->
  Obj.own acc key = Some g ->
  Obj.inherited key = false.
Proof.
  intros [_ [Hown Hdone]] Hg. rewrite Hown in Hg. unfold Facts.group in Hg.
  destruct (filter _ done) as [ | i g'] eqn:Hf; [discriminate | ].
  assert (Hi : In i (filter (fun i => Str.eqb (Facts.group_key i) key) done)).
  { rewrite Hf. left. reflexivity. }
  apply filter_In in Hi. destruct Hi as [Hi Hik].
  apply Str_eqb_eq in Hik. rewrite Forall_forall in Hdone.
  destruct (Hdone i Hi) as [_ Hni]. rewrite Hik in Hni. exact Hni.
Qed.

Lemma grouped_define (acc : Obj.t (list SecurityIssue))
  (done : list SecurityIssue) (issue : SecurityIssue) (key : Str.t) :
  Facts.grouped acc done ->
  to_string (or_else (nodeName issue) (Some (JStr (u"Unknown Node"))))
    = Ok key ->
  Obj.inherited key = false ->
  Facts.grouped
    (Obj.define acc key (match Obj.own acc key with
                         | Some g => g ++ [issue]
                         | None => [issue]
                         end))
    (done ++ [issue]).
Proof.
  intros [Hnd [Hown Hdone]] Hkey Hinh.
  assert (Hgk : Facts.group_key issue = key).
  { unfold Facts.group_key, Facts.text_of. rewrite Hkey. reflexivity. }
  split; [apply keys_define_nodup, Hnd | ]. split.
  - intros k. destruct (Str.eqb k key) eqn:E.
    + apply Str_eqb_eq in E. subst k.
      rewrite own_define_same, (group_snoc_same _ _ _ Hgk), <- Hown.
      reflexivity.
    + rewrite (own_define_other _ _ _ _ E), (group_snoc_other k done issue).
      * apply Hown.
      * rewrite Hgk, Str_eqb_sym. exact E.
  - apply Forall_app. split; [exact Hdone | ].
    constructor; [ | constructor]. rewrite Hgk. split; assumption.
Qed.

Lemma issuesByNode_grouped (issues : list SecurityIssue) :
  forall (acc groups : Obj.t (list SecurityIssue)) (done : list SecurityIssue),
    Facts.grouped acc done ->
    for_each
      (fun issue acc =>
         let nodeKey :=
           or_else (nodeName issue) (Some (JStr (u"Unknown Node"))) in
         bind (to_string nodeKey) (fun key =>
         match Obj.get acc key with
         | Obj.Own group => Ok (Obj.define acc key (push group issue))
         | Obj.Inherited => Throw (TypeError_not_a_function None (u"push"))
         | Obj.Absent => Ok (Obj.define acc key [issue])
         end))
      issues acc = Ok groups ->
    Facts.grouped groups (done ++ issues).
Proof.
  induction issues as [ | issue issues IH]; intros acc groups done Hacc.
  - simpl. intros E. injection E as <-. rewrite app_nil_r. exact Hacc.
  - cbn [for_each]. cbv zeta.
    destruct (to_string (or_else (nodeName issue)
                                 (Some (JStr (u"Unknown Node")))))
      as [key | e] eqn:Hkey; cbn [bind]; [ | discriminate].
    replace (done ++ issue :: issues) with ((done ++ [issue]) ++ issues)
      by (rewrite <- app_assoc; reflexivity).
    pose proof (grouped_define acc done issue key Hacc Hkey) as Hstep.
    unfold Obj.get.
    destruct (Obj.own acc key) as [g | ] eqn:Hg.
    + cbn [bind]. apply IH, Hstep.
      apply (grouped_own_not_inherited _ _ _ _ Hacc Hg).
    + destruct (Obj.inherited key); [discriminate | ].
      cbn [bind]. apply IH, Hstep. reflexivity.
Qed.

Lemma grouped_nil : Facts.grouped [] [].
Proof.
  split; [constructor | ]. split; [reflexivity | constructor].
Qed.

(** X16. Where the grouping of the findings by node returns, the groups
    partition the findings: the keys are distinct; the group under a key
    holds exactly the findings whose node name converts to that key, in
    their original order, and is never empty; and the section "Security
    Issues by Node" is part of the report exactly when there is a
    finding. *)
Theorem issues_grouped_by_node (issues : list SecurityIssue)
  (groups : Obj.t (list SecurityIssue)) :
  issuesByNode issues = Ok groups ->
  NoDup (map fst groups) /\
  (forall k g, In (k, g) groups <->
               g <> [] /\
               g = filter (fun i => Str.eqb (Facts.group_key i) k) issues) /\
  hasIssuesSection groups = match issues with [] => false | _ => true end.
Proof.
  intros H. unfold issuesByNode in H.
  pose proof (issuesByNode_grouped _ _ _ _ grouped_nil H) as [Hnd [Hown Hall]].
  cbn [app] in Hown, Hall.
  assert (Hin : forall k g, In (k, g) groups <-> Obj.own groups k = Some g).
  { intros k g. split; [ | apply own_some_in].
    intros Hkg. destruct (Obj.own groups k) as [g' | ] eqn:Hg.
    - apply own_some_in in Hg. f_equal.
      clear - Hnd Hkg Hg. induction groups as [ | [k0 g0] groups IH];
        [destruct Hkg | ].
      simpl in Hnd. inversion Hnd as [ | ? ? Hk0 Hnd']; subst.
      destruct Hkg as [E | Hkg], Hg as [E' | Hg].
      + congruence.
      + injection E as <- <-. exfalso. apply Hk0.
        apply (in_map fst) in Hg. exact Hg.
      + injection E' as <- <-. exfalso. apply Hk0.
        apply (in_map fst) in Hkg. exact Hkg.
      + apply (IH Hnd' Hkg Hg).
    - exfalso. apply (own_none_not_in _ _ Hg).
      apply (in_map fst) in Hkg. exact Hkg. }
  split; [exact Hnd | ]. split.
  - intros k g. rewrite Hin, Hown. unfold Facts.group.
    destruct (filter _ issues) as [ | i g'] eqn:Hf.
    + split; [discriminate | ]. intros [Hne ->]. contradiction.
    + split.
      * intros E. injection E as <-. split; [discriminate | reflexivity].
      * intros [_ ->]. reflexivity.
  - unfold hasIssuesSection. rewrite length_map.
    destruct issues as [ | i issues].
    + destruct groups as [ | [k g] groups]; [reflexivity | ].
      exfalso. specialize (Hown k). simpl in Hown.
      rewrite Str_eqb_refl in Hown. discriminate.
    + destruct groups as [ | [k g] groups]; [ | reflexivity].
      exfalso. specialize (Hown (Facts.group_key i)).
      unfold Facts.group in Hown. cbn [filter Obj.own] in Hown.
      rewrite Str_eqb_refl in Hown. discriminate.
Qed.

Lemma issues_grouped_by_node_witness :
  NoDup (map fst (Samples.groups_of
                    (securityIssues (Samples.report_of Samples.workflow)))) /\
  (forall k g,
     In (k, g) (Samples.groups_of
                  (securityIssues (Samples.report_of Samples.workflow))) <->
     g <> [] /\
     g = filter (fun i => Str.eqb (Facts.group_key i) k)
                (securityIssues (Samples.report_of Samples.workflow))) /\
  hasIssuesSection
    (Samples.groups_of (securityIssues (Samples.report_of Samples.workflow)))
  = match securityIssues (Samples.report_of Samples.workflow) with
    | [] => false
    | _ => true
    end.
Proof.
  apply (issues_grouped_by_node
           (securityIssues (Samples.report_of Samples.workflow))
           (Samples.groups_of
              (securityIssues (Samples.report_of Samples.workflow)))).
  vm_compute. reflexivity.
Defined.

(** X17. A finding whose node name converts to a property name of
    [Object.prototype] (a node called [constructor], [toString],
    [__proto__], ...) makes the grouping throw: [acc[nodeKey]] is then a
    built-in, no array is stored, and [push] is not a function. *)
Theorem grouping_throws_on_prototype_name (issues : list SecurityIssue)
  (issue : SecurityIssue) :
  In issue issues ->
  Obj.inherited (Facts.group_key issue) = true ->
  exists e, issuesByNode issues = Throw e.
Proof.
  intros Hin Hinh.
  destruct (issuesByNode issues) as [groups | e] eqn:H; [ | eauto].
  unfold issuesByNode in H.
  pose proof (issuesByNode_grouped _ _ _ _ grouped_nil H) as [_ [_ Hall]].
  cbn [app] in Hall. rewrite Forall_forall in Hall.
  destruct (Hall issue Hin) as [_ Hno]. rewrite Hno in Hinh. discriminate.
Qed.

Lemma grouping_throws_on_prototype_name_witness :
  exists e, issuesByNode [Samples.constructor_finding] = Throw e.
Proof.
  apply (grouping_throws_on_prototype_name [Samples.constructor_finding]
           Samples.constructor_finding).
  - left. reflexivity.
  - vm_compute. reflexivity.
Defined.

(** *** Node categories and node types *)

Lemma sum_replace (o : Obj.t nat) (k : Str.t) (n m : nat) :
  Obj.own o k = Some n ->
  Spec.sum (map snd (Obj.replace k m o)) + n = Spec.sum (map snd o) + m.
Proof.
  induction o as [ | [k' a'] o IH]; simpl; [discriminate | ].
  destruct (Str.eqb k k'); simpl.
  - intros E. injection E as <-. lia.
  - intros H. specialize (IH H). lia.
Qed.

Lemma sum_perm (l l' : list nat) :
  Permutation l l' -> Spec.sum l = Spec.sum l'.
Proof.
  induction 1; simpl; lia.
Qed.

Lemma sum_countCategory (category : Str.t) (acc : Obj.t nat) :
  Spec.sum (map snd (countCategory category acc))
  = S (Spec.sum (map snd acc)).
Proof.
  unfold countCategory, Obj.get.
  destruct (Obj.own acc category) as [n | ] eqn:H.
  - unfold Obj.define. rewrite H.
    pose proof (sum_replace _ _ _ (n + 1) H). lia.
  - assert (E : Spec.sum (map snd (Obj.define acc category 1))
                = S (Spec.sum (map snd acc))).
    { rewrite <- (sum_perm _ _ (Permutation_map snd
                                  (define_new_perm acc category 1 H))).
      reflexivity. }
    destruct (Obj.inherited category); exact E.
Qed.

(** X18. The node categories of the report count every node that is not
    a sticky note exactly once: where [nodeCategories] returns, its counts
    add up to the number of nodes whose type does not hold [stickyNote],
    and no category is listed twice. *)
Theorem categories_count_each_node_once (workflowData : value) (ref : N)
  (ns : list json) (categories : Obj.t nat) :
  Spec.prop workflowData (u"nodes") = Some (JArr ref ns) ->
  nodeCategories workflowData = Ok categories ->
  Spec.sum (map snd categories)
  = List.length (filter (fun n => negb (Spec.is_annotation n)) ns) /\
  NoDup (map fst categories).
Proof.
  intros Hnodes. unfold nodeCategories.
  rewrite get_opt_prop, Hnodes. cbn [bind truthy call_filter].
  destruct (filter_m notStickyNote ns) as [kept | e] eqn:Hkept; cbn [bind];
    [ | discriminate].
  rewrite <- (actualNodes_spec _ _ Hkept). clear Hkept Hnodes.
  assert (Hgen : forall (acc out : Obj.t nat),
    for_each
      (fun node acc =>
         bind (get (Some node) (u"type")) (fun t =>
         let nodeType := or_else t (Some (JStr (u"unknown"))) in
         bind (categoryOf nodeType) (fun category =>
         Ok (countCategory category acc))))
      kept acc = Ok out ->
    Spec.sum (map snd out) = Spec.sum (map snd acc) + List.length kept /\
    (NoDup (map fst acc) -> NoDup (map fst out))).
  { induction kept as [ | node kept IH]; intros acc out.
    - simpl. intros E. injection E as <-. split; [lia | trivial].
    - cbn [for_each].
      destruct (get (Some node) (u"type")) as [t | e]; cbn [bind];
        [ | discriminate]. cbv zeta.
      destruct (categoryOf _) as [category | e]; cbn [bind];
        [ | discriminate].
      intros Hrest. destruct (IH _ _ Hrest) as [Hsum Hnd].
      rewrite sum_countCategory in Hsum. split; [simpl; lia | ].
      intros Hacc. apply Hnd. unfold countCategory.
      destruct (Obj.get acc category); apply keys_define_nodup, Hacc. }
  intros H. destruct (Hgen _ _ H) as [Hsum Hnd].
  split; [exact Hsum | apply Hnd; constructor].
Qed.

Lemma categories_count_each_node_once_witness :
  Spec.sum (map snd (Samples.categories_of Samples.workflow))
  = List.length (filter (fun n => negb (Spec.is_annotation n))
                        (Samples.nodes_of Samples.workflow)) /\
  NoDup (map fst (Samples.categories_of Samples.workflow)).
Proof.
  apply (categories_count_each_node_once (Some Samples.workflow)
           (Samples.nodes_ref Samples.workflow)
           (Samples.nodes_of Samples.workflow)
           (Samples.categories_of Samples.workflow));
    vm_compute; reflexivity.
Defined.

(** The categories are no property names of [Object.prototype], so the
    counter under a category is a number or [undefined]. *)
Lemma categoryOf_not_inherited (nodeType : value) (category : Str.t) :
  categoryOf nodeType = Ok category -> Obj.inherited category = false.
Proof.
  unfold categoryOf. cbv zeta.
  repeat match goal with
         | |- bind ?e _ = _ -> _ =>
           destruct e as [[ | ] | ?]; cbn [bind]; try discriminate
         end;
    intros E; injection E as <-; vm_compute; reflexivity.
Qed.

Lemma includes_char (s : Str.t) (c : Str.char) :
  Str.includes s [c] = existsb (N.eqb c) s.
Proof.
  induction s as [ | x s IH]; [reflexivity | ].
  cbn [Str.includes Str.prefix existsb]. rewrite IH, andb_true_r.
  reflexivity.
Qed.

Lemma split_not_nil (sep : Str.char) (s : Str.t) :
  StrMethods.split sep s <> [].
Proof.
  destruct s as [ | c s]; simpl; [discriminate | ].
  destruct (N.eqb c sep); [discriminate | ].
  destruct (StrMethods.split sep s); discriminate.
Qed.

Lemma last_part_no_separator (sep : Str.char) (s : Str.t) :
  existsb (N.eqb sep) (StrMethods.last_part sep s) = false.
Proof.
  unfold StrMethods.last_part.
  induction s as [ | c s IH]; [reflexivity | ].
  cbn [StrMethods.split].
  pose proof (split_not_nil sep s) as Hne.
  destruct (N.eqb c sep) eqn:E.
  - destruct (StrMethods.split sep s) as [ | seg segs]; [contradiction | ].
    exact IH.
  - destruct (StrMethods.split sep s) as [ | seg segs]; [contradiction | ].
    destruct segs as [ | seg' segs].
    + cbn [last existsb] in *. rewrite IH, N.eqb_sym, E. reflexivity.
    + exact IH.
Qed.

Lemma unique_spec (xs : list value) :
  forall seen,
    Forall (fun x => existsb (fun e => same_value_zero e x) seen = false)
           (unique xs seen) /\
    Facts.distinct_values (unique xs seen) /\
    (forall x, In x (unique xs seen) -> In x xs).
Proof.
  induction xs as [ | x xs IH]; intros seen; cbn [unique].
  - repeat split; [constructor | constructor | tauto].
  - destruct (existsb (fun e => same_value_zero e x) seen) eqn:Hx.
    + destruct (IH seen) as [H1 [H2 H3]]. repeat split; auto.
      intros y Hy. right. auto.
    + destruct (IH (seen ++ [x])) as [H1 [H2 H3]].
      assert (H1' : Forall (fun y =>
                existsb (fun e => same_value_zero e y) seen = false /\
                same_value_zero x y = false) (unique xs (seen ++ [x]))).
      { eapply Forall_impl; [ | exact H1]. intros y Hy. cbv beta in Hy.
        rewrite existsb_app in Hy. apply orb_false_elim in Hy.
        destruct Hy as [Hs Hxy]. cbn [existsb] in Hxy.
        rewrite orb_false_r in Hxy. auto. }
      repeat split.
      * constructor; [exact Hx | ].
        eapply Forall_impl; [ | exact H1']. intros y [Hy _]. exact Hy.
      * constructor; [ | exact H2].
        eapply Forall_impl; [ | exact H1']. intros y [_ Hy]. exact Hy.
      * intros y [<- | Hy]; [left; reflexivity | right; auto].
Qed.

Lemma map_m_in {A B} (f : A -> result B) (xs : list A) (ys : list B) (y : B) :
  map_m f xs = Ok ys -> In y ys -> exists x, In x xs /\ f x = Ok y.
Proof.
  revert ys. induction xs as [ | x xs IH]; intros ys; cbn [map_m].
  - intros E. injection E as <-. intros [].
  - destruct (f x) as [b | e] eqn:Hx; cbn [bind]; [ | discriminate].
    destruct (map_m f xs) as [bs | e]; cbn [bind]; [ | discriminate].
    intros E. injection E as <-. intros [<- | Hy].
    + exists x. split; [left; reflexivity | exact Hx].
    + destruct (IH bs eq_refl Hy) as [x' [Hx' Hf]]. exists x'.
      split; [right; exact Hx' | exact Hf].
Qed.

Lemma readableType_no_dot (node : json) (s : Str.t) :
  readableType node = Ok (Some (JStr s)) ->
  Str.includes s (u".") = false.
Proof.
  unfold readableType.
  destruct (get (Some node) (u"type")) as [t | e]; cbn [bind];
    [ | discriminate]. cbv zeta.
  destruct (or_else t (Some (JStr (u"Unknown"))))
    as [[ | b | x | s0 | r xs | r ps] | ]; cbn [call_includes bind lastPart];
    try discriminate.
  - destruct (Str.includes s0 (u".")) eqn:Hdot.
    + intros E. injection E as <-.
      change (u".") with [46%N]. rewrite includes_char.
      apply last_part_no_separator.
    + intros E. injection E as <-. exact Hdot.
  - destruct (existsb _ xs); discriminate.
Qed.

(** X19. The node types the report lists hold no value twice and no
    empty or otherwise falsy value, and a listed name that comes from a
    string type holds no dot: it is the part of the type after its last
    dot, or the whole type when there is none. *)
Theorem node_types_listed_once (workflowData : value) (types : list value) :
  nodeTypes workflowData = Ok types ->
  Facts.distinct_values types /\
  Forall (fun t => truthy t = true) types /\
  (forall s, In (Some (JStr s)) types -> Str.includes s (u".") = false).
Proof.
  unfold nodeTypes.
  destruct (get_opt workflowData (u"nodes")) as [nodes_ | e]; cbn [bind];
    [ | discriminate].
  destruct (truthy nodes_).
  - destruct (call_filter nodes_ notStickyNote) as [actual | e]; cbn [bind];
      [ | discriminate].
    destruct (map_m readableType actual) as [names | e] eqn:Hnames;
      cbn [bind]; [ | discriminate].
    intros E. injection E as <-.
    destruct (unique_spec (filter truthy names) []) as [_ [H2 H3]].
    split; [exact H2 | ]. split.
    + apply Forall_forall. intros t Ht. apply H3, filter_In in Ht.
      apply Ht.
    + intros s Hs. apply H3, filter_In in Hs. destruct Hs as [Hs _].
      destruct (map_m_in _ _ _ _ Hnames Hs) as [node [_ Hnode]].
      apply (readableType_no_dot _ _ Hnode).
  - intros E. injection E as <-.
    repeat split; [constructor | constructor | intros s []].
Qed.

Lemma node_types_listed_once_witness :
  Facts.distinct_values (Samples.types_of Samples.workflow) /\
  Forall (fun t => truthy t = true) (Samples.types_of Samples.workflow) /\
  (forall s, In (Some (JStr s)) (Samples.types_of Samples.workflow) ->
             Str.includes s (u".") = false).
Proof.
  apply (node_types_listed_once (Some Samples.workflow)
           (Samples.types_of Samples.workflow)).
  vm_compute. reflexivity.
Defined.

(** *** The summary of the report component *)

(** X22. After any analysis the report component computes its count of
    secure nodes without throwing: either it renders nothing (the report
    is not that of a workflow), or the stored document has a [nodes] array
    and the count is the number of nodes that are not sticky notes and
    whose [id] is the [nodeId] of no finding with a truthy [nodeId]. *)
Theorem report_summary_after_analysis :
  forall (error_message : js_error -> Str.t) (jsonInput : Str.t) (st : State),
    summary (result_ (analyzeJson error_message jsonInput st))
            (workflowData (analyzeJson error_message jsonInput st)) = None \/
    exists r ref ns,
      result_ (analyzeJson error_message jsonInput st) = Some r /\
      Spec.prop (workflowData (analyzeJson error_message jsonInput st))
                (u"nodes") = Some (JArr ref ns) /\
      summary (result_ (analyzeJson error_message jsonInput st))
              (workflowData (analyzeJson error_message jsonInput st))
      = Some (Ok (Spec.secure_nodes_by_truthy_id ns (securityIssues r))).
Proof.
  intros error_message jsonInput st. unfold analyzeJson.
  destruct (Str.trim jsonInput) as [ | c rest]; [left; reflexivity | ].
  destruct (JSONParser.parse jsonInput) as [parsed | e]; cbn [bind];
    [ | left; reflexivity].
  destruct (validateN8nWorkflow (Some parsed)) as [r | e] eqn:Hval;
    cbn [bind]; [ | left; reflexivity].
  cbn [result_ workflowData summary].
  destruct (isN8nWorkflow r) eqn:Hwf; [ | left; reflexivity].
  right. destruct (secure_nodes_after_analysis _ _ Hval Hwf)
    as [ref [ns [Hnodes Hcount]]].
  exists r, ref, ns. rewrite Hcount. auto.
Qed.

(** ** The workflow graph *)

Import Visualization.

Lemma processWorkflow_needs_nodes_array (function_text : Str.t -> Str.t)
  (now : N) (workflowData : value) (issues : list SecurityIssue) :
  isArray (Spec.prop workflowData (u"nodes")) = false ->
  exists e, processWorkflow function_text now workflowData issues = Throw e.
Proof.
  intros Harr. unfold processWorkflow.
  destruct (get workflowData (u"nodes")) as [nodes_ | e] eqn:Hget;
    cbn [bind]; [ | eauto].
  assert (Hn : nodes_ = Spec.prop workflowData (u"nodes")).
  { unfold Spec.prop. rewrite Hget. reflexivity. }
  rewrite <- Hn in Harr.
  destruct nodes_ as [[ | b | x | s | r xs | r ps] | ]; try discriminate;
    cbn [bind]; eauto.
Qed.

(** X23. A document that parses to a truthy value and is not taken for a
    workflow is still handed to the visualization, and the visualization
    throws on it while rendering: it reads [workflowData.nodes.map] before
    testing that [nodes] exists. *)
Theorem visualization_throws_on_other_documents
  (error_message : js_error -> Str.t) (function_text : Str.t -> Str.t)
  (now : N) (jsonInput : Str.t) (st : State) (parsed : json) :
  JSONParser.parse jsonInput = Ok parsed ->
  truthy (Some parsed) = true ->
  looksLikeWorkflow (Some parsed) = Ok false ->
  Upload.visualizationProps (analyzeJson error_message jsonInput st)
  = Some (Some parsed, []) /\
  exists e, processWorkflow function_text now (Some parsed) [] = Throw e.
Proof.
  intros Hparse Htruthy Hlooks.
  rewrite looksLikeWorkflow_spec in Hlooks. injection Hlooks as Hw.
  split.
  - unfold analyzeJson.
    destruct (Str.trim jsonInput) as [ | c rest] eqn:Hblank.
    + rewrite (parse_blank _ Hblank) in Hparse. discriminate.
    + rewrite Hparse. cbn [bind].
      rewrite (validate_not_a_workflow _ Hw). cbn [bind].
      unfold Upload.visualizationProps. cbn [workflowData result_].
      rewrite Htruthy. reflexivity.
  - apply processWorkflow_needs_nodes_array.
    unfold Spec.has_truthy_workflow_attribute in Hw. rewrite Htruthy in Hw.
    cbn [andb] in Hw. apply orb_false_elim in Hw. destruct Hw as [Hw _].
    apply orb_false_elim in Hw. destruct Hw as [Hw _].
    apply orb_false_elim in Hw. destruct Hw as [Hw _].
    destruct (Spec.prop (Some parsed) (u"nodes")) as [[ | | | | | ] | ];
      try reflexivity; discriminate.
Qed.

Lemma visualization_throws_on_other_documents_witness :
  Upload.visualizationProps
    (analyzeJson (fun _ => []) Samples.other Inputs.initial)
  = Some (Some (Samples.parsed "{'a':1}"), []) /\
  exists e,
    processWorkflow (fun _ => []) 0 (Some (Samples.parsed "{'a':1}")) []
    = Throw e.
Proof.
  apply (visualization_throws_on_other_documents (fun _ => []) (fun _ => []) 0
           Samples.other Inputs.initial (Samples.parsed "{'a':1}"));
    vm_compute; reflexivity.
Defined.

(** *** The nodes of the graph *)

Lemma map_indexed_Forall2 {A B} (f : A -> nat -> result B) (xs : list A) :
  forall (i : nat) (ys : list B),
    map_indexed f xs i = Ok ys ->
    Forall2 (fun x y => exists k, f x k = Ok y) xs ys.
Proof.
  induction xs as [ | x xs IH]; intros i ys; cbn [map_indexed].
  - intros E. injection E as <-. constructor.
  - destruct (f x i) as [b | e] eqn:Hx; cbn [bind]; [ | discriminate].
    destruct (map_indexed f xs (S i)) as [bs | e] eqn:Hrest; cbn [bind];
      [ | discriminate].
    intros E. injection E as <-. constructor; [eauto | apply (IH _ _ Hrest)].
Qed.

Lemma processNode_spec (issues : list SecurityIssue) (node : json)
  (index : nat) (pn : ProcessedNode) :
  processNode issues node index = Ok pn ->
  Spec.typed node = true /\
  pn_id pn = Spec.node_id node /\
  pn_type pn = (if Spec.is_annotation node then sticky else custom) /\
  levelOf (Some pn)
  = (if Spec.is_annotation node then None
     else Some (getNodeSecurityLevel issues (Spec.node_id node))).
Proof.
  unfold processNode.
  destruct (get (Some node) (u"id")) as [id | e] eqn:Hid; cbn [bind];
    [ | discriminate].
  assert (Hid' : Spec.node_id node = id).
  { unfold Spec.node_id, Spec.prop. rewrite Hid. reflexivity. }
  destruct (positionOf node index) as [position | e]; cbn [bind];
    [ | discriminate].
  destruct (type_includes (Some node) (u"stickyNote")) as [isSticky | e]
    eqn:Hs; cbn [bind]; [ | discriminate].
  pose proof (includes_ok_typed _ _ _ Hs) as Htyped.
  unfold Spec.is_annotation. rewrite Hs.
  destruct isSticky.
  - repeat match goal with
           | |- bind ?e _ = _ -> _ =>
             destruct e as [? | ?]; cbn [bind]; [ | discriminate]
           end.
    intros E. injection E as <-. rewrite Hid'. auto.
  - repeat match goal with
           | |- bind ?e _ = _ -> _ =>
             destruct e as [? | ?]; cbn [bind]; [ | discriminate]
           end.
    intros E. injection E as <-. rewrite Hid'. auto.
Qed.

Lemma in_replace {A} (k k' : Str.t) (a a' : A) (o : Obj.t A) :
  In (k, a) (Obj.replace k' a' o) -> a = a' \/ In (k, a) o.
Proof.
  induction o as [ | [k0 a0] o IH]; simpl; [tauto | ].
  destruct (Str.eqb k' k0); simpl.
  - intros [E | H]; [injection E as _ <-; auto | auto].
  - intros [E | H]; [auto | ]. destruct (IH H); auto.
Qed.

Lemma in_define {A} (k k' : Str.t) (a a' : A) (o : Obj.t A) :
  In (k, a) (Obj.define o k' a') -> a = a' \/ In (k, a) o.
Proof.
  unfold Obj.define. destruct (Obj.own o k') as [a0 | ] eqn:Hown.
  - apply in_replace.
  - intros H.
    assert (H' : In (k, a) ((k', a') :: o)).
    { destruct (array_index k') as [i | ].
      - apply (Permutation_in _ (Permutation_sym
                                   (insert_index_perm i k' a' o)) H).
      - apply in_app_or in H. destruct H as [H | [H | []]];
          [right; exact H | left; exact H]. }
    destruct H' as [E | H']; [injection E as _ <-; auto | auto].
Qed.

Lemma fromEntries_values (Q : value -> Prop) (pairs : list (value * value)) :
  Forall (fun p => Q (snd p)) pairs ->
  forall m, fromEntries pairs = Ok m -> forall k v, In (k, v) m -> Q v.
Proof.
  unfold fromEntries. intros Hpairs.
  assert (Hgen : forall acc m,
    for_each (fun (kv : value * value) (acc : Obj.t value) =>
                bind (to_string (fst kv)) (fun key =>
                Ok (Obj.define acc key (snd kv)))) pairs acc = Ok m ->
    (forall k v, In (k, v) acc -> Q v) ->
    forall k v, In (k, v) m -> Q v).
  { induction Hpairs as [ | p pairs Hp Hrest IH]; intros acc m.
    - simpl. intros E. injection E as <-. auto.
    - cbn [for_each].
      destruct (to_string (fst p)) as [key | e]; cbn [bind]; [ | discriminate].
      intros Hrun Hacc. apply (IH _ _ Hrun).
      intros k v Hin. destruct (in_define _ _ _ _ _ Hin) as [-> | Hin'];
        [exact Hp | apply (Hacc _ _ Hin')]. }
  intros m Hm. apply (Hgen [] m Hm). intros k v [].
Qed.

(** What a graph that was computed tells about the document. *)
Lemma processWorkflow_ok (function_text : Str.t -> Str.t) (now : N)
  (workflowData : value) (issues : list SecurityIssue) (g : Graph) :
  processWorkflow function_text now workflowData issues = Ok g ->
  exists ref ns nodeNameToIdMap,
    Spec.prop workflowData (u"nodes") = Some (JArr ref ns) /\
    map_indexed (processNode issues) ns 0 = Ok (processedNodes g) /\
    Facts.ids_of ns nodeNameToIdMap /\
    match Spec.prop workflowData (u"connections") with
    | Some c =>
      if truthy (Some c) && Str.eqb (typeof (Some c)) (u"object")
      then for_each (edgesOfSource function_text nodeNameToIdMap
                                   (processedNodes g))
                    (own_entries c) [] = Ok (processedEdges g)
      else processedEdges g = []
    | None => processedEdges g = []
    end.
Proof.
  intros H.
  destruct (isArray (Spec.prop workflowData (u"nodes"))) eqn:Harr.
  2:{ destruct (processWorkflow_needs_nodes_array function_text now _ issues
                  Harr) as [e He]. rewrite He in H. discriminate. }
  destruct (Spec.prop workflowData (u"nodes"))
    as [[ | | | | ref ns | ] | ] eqn:Hnodes; try discriminate.
  assert (Hd : nullish workflowData = false).
  { destruct workflowData as [[ | | | | | ] | ]; try reflexivity;
      vm_compute in Hnodes; discriminate. }
  unfold processWorkflow in H.
  rewrite get_opt_prop, !(get_prop _ _ Hd), Hnodes in H. cbn [bind] in H.
  destruct (map_m _ ns) as [pairs | e] eqn:Hpairs; cbn [bind] in H;
    [ | discriminate].
  destruct (fromEntries pairs) as [nodeNameToIdMap | e] eqn:Hmap;
    cbn [bind] in H; [ | discriminate].
  cbn [truthy negb] in H.
  destruct (map_indexed (processNode issues) ns 0) as [pns | e] eqn:Hpns;
    cbn [bind] in H; [ | discriminate].
  assert (Hids : Facts.ids_of ns nodeNameToIdMap).
  { refine (fromEntries_values
              (fun v => exists node, In node ns /\ v = Spec.node_id node)
              pairs _ _ Hmap).
    apply Forall_forall. intros p Hp.
    destruct (map_m_in _ _ _ _ Hpairs Hp) as [node [Hnode Hp']].
    exists node. split; [exact Hnode | ].
    destruct (get (Some node) (u"name")) as [name_ | e]; cbn [bind] in Hp';
      [ | discriminate].
    unfold Spec.node_id, Spec.prop.
    destruct (get (Some node) (u"id")) as [id | e]; cbn [bind] in Hp';
      [ | discriminate].
    injection Hp' as <-. reflexivity. }
  assert (Hg : processedNodes g = pns /\
               match Spec.prop workflowData (u"connections") with
               | Some c =>
                 if truthy (Some c) && Str.eqb (typeof (Some c)) (u"object")
                 then for_each (edgesOfSource function_text nodeNameToIdMap pns)
                               (own_entries c) [] = Ok (processedEdges g)
                 else processedEdges g = []
               | None => processedEdges g = []
               end);
    [ | destruct Hg as [<- Hedges]; exists ref, ns, nodeNameToIdMap; auto].
  destruct (Spec.prop workflowData (u"connections")) as [c | ].
  - destruct (truthy (Some c) && Str.eqb (typeof (Some c)) (u"object")).
    + destruct (for_each _ (own_entries c) []) as [edges | e] eqn:Hedges;
        cbn [bind] in H; [ | discriminate].
      repeat match type of H with
             | bind ?e _ = Ok _ =>
               destruct e; cbn [bind] in H; [ | discriminate]
             end.
      injection H as <-. cbn [processedNodes processedEdges]. auto.
    + cbn [bind] in H.
      repeat match type of H with
             | bind ?e _ = Ok _ =>
               destruct e; cbn [bind] in H; [ | discriminate]
             end.
      injection H as <-. cbn [processedNodes processedEdges]. auto.
  - cbn [bind] in H.
    repeat match type of H with
           | bind ?e _ = Ok _ =>
             destruct e; cbn [bind] in H; [ | discriminate]
           end.
    injection H as <-. cbn [processedNodes processedEdges]. auto.
Qed.

Lemma workflowNodes_count (issues : list SecurityIssue) (ns : list json)
  (pns : list ProcessedNode) :
  Forall2 (fun node pn => exists k, processNode issues node k = Ok pn) ns pns ->
  forallb Spec.typed ns = true /\
  List.length (workflowNodes pns)
  = List.length (filter (fun n => negb (Spec.is_annotation n)) ns) /\
  List.length (secureShown pns)
  = List.length (Facts.shown_secure ns issues).
Proof.
  induction 1 as [ | node pn ns pns [k Hk] Hrest [IH1 [IH2 IH3]]];
    [repeat split | ].
  destruct (processNode_spec _ _ _ _ Hk) as [Htyped [Hid [Htype Hlevel]]].
  split; [cbn [forallb]; rewrite Htyped, IH1; reflexivity | ].
  unfold workflowNodes, secureShown, Facts.shown_secure in *.
  cbn [filter]. rewrite Htype, Hlevel.
  destruct (Spec.is_annotation node); cbn [negb andb isLevel];
    [split; assumption | ].
  split; [cbn [List.length]; rewrite IH2; reflexivity | ].
  unfold getNodeSecurityLevel, Facts.flagged.
  destruct (filter _ issues) as [ | i rest] eqn:Hf.
  - replace (existsb _ issues) with false.
    + cbn [isLevel negb List.length]. rewrite IH3. reflexivity.
    + symmetry. apply not_true_is_false. intros Hex.
      apply existsb_exists in Hex. destruct Hex as [i [Hi Hi']].
      assert (Hin : In i (filter (fun issue =>
                    strict_equal (nodeId issue) (Spec.node_id node)) issues)).
      { apply filter_In. auto. }
      rewrite Hf in Hin. destruct Hin.
  - replace (existsb _ issues) with true.
    + cbn [negb]. cbv zeta.
      destruct (existsb _ (i :: rest)); [exact IH3 | ].
      destruct (existsb _ (i :: rest)); exact IH3.
    + symmetry. apply existsb_exists. exists i.
      assert (Hin : In i (filter (fun issue =>
                    strict_equal (nodeId issue) (Spec.node_id node)) issues)).
      { rewrite Hf. left. reflexivity. }
      apply filter_In in Hin. exact Hin.
Qed.

(** X24. The graph and the report agree on the number of nodes: whenever
    the validator returns a report for a document and the graph of that
    document is computed, the count of nodes in the header of the graph
    (the processed nodes that are not sticky notes) is the node count of
    [workflowInfo]. *)
Theorem graph_counts_the_nodes_of_the_report
  (function_text : Str.t -> Str.t) (now : N) (data : value)
  (r : ValidationResult) (g : Graph) :
  validateN8nWorkflow data = Ok r ->
  processWorkflow function_text now data (securityIssues r) = Ok g ->
  exists w,
    workflowInfo r = Some w /\
    List.length (workflowNodes (processedNodes g)) = nodes w.
Proof.
  intros Hval Hg.
  destruct (processWorkflow_ok _ _ _ _ _ Hg)
    as [ref [ns [m [Hnodes [Hpns _]]]]].
  destruct (validate_spec _ _ _ _ Hval Hnodes)
    as [_ [_ [_ [_ [_ [w [Hw [Hcount _]]]]]]]].
  exists w. split; [exact Hw | ]. rewrite Hcount.
  apply (workflowNodes_count (securityIssues r)).
  apply (map_indexed_Forall2 _ _ _ _ Hpns).
Qed.

Lemma graph_counts_the_nodes_of_the_report_witness :
  exists w,
    workflowInfo (Samples.report_of Samples.workflow) = Some w /\
    List.length (workflowNodes (processedNodes (Samples.graph_of Samples.workflow)))
    = nodes w.
Proof.
  apply (graph_counts_the_nodes_of_the_report (fun _ => []) 0
           (Some Samples.workflow) (Samples.report_of Samples.workflow)
           (Samples.graph_of Samples.workflow));
    vm_compute; reflexivity.
Defined.

(** *** Secure nodes in the graph and in the report *)

Lemma strict_of_same_value (a b : value) :
  truthy a = true -> same_value_zero a b = true -> strict_equal a b = true.
Proof.
  destruct a as [[ | x | x | x | r xs | r ps] | ],
           b as [[ | y | y | y | r' ys | r' ps'] | ];
    cbn [same_value_zero strict_equal truthy]; try discriminate; auto.
  unfold Num.truthy, Num.same_value_zero.
  destruct (Num.is_nan x); [rewrite orb_true_r; discriminate | ].
  cbn [andb orb]. auto.
Qed.

Lemma same_value_of_strict (a b : value) :
  strict_equal a b = true -> truthy b = true ->
  truthy a = true /\ same_value_zero a b = true.
Proof.
  destruct a as [[ | x | x | x | r xs | r ps] | ],
           b as [[ | y | y | y | r' ys | r' ps'] | ];
    cbn [same_value_zero strict_equal truthy]; try discriminate; auto.
  - destruct x, y; try discriminate; auto.
  - unfold Num.truthy, Num.same_value_zero. intros Heq Hy.
    rewrite Heq, orb_true_r. split; [ | reflexivity].
    destruct x as [sx | sx | | sx mx ex], y as [sy | sy | | sy my ey];
      try discriminate; try reflexivity;
      destruct sx, sy; discriminate.
  - intros Heq Hy. apply Str_eqb_eq in Heq. subst. rewrite Str_eqb_refl.
    auto.
Qed.

Lemma filter_length_le {A} (p q : A -> bool) (l : list A) :
  (forall x, In x l -> p x = true -> q x = true) ->
  List.length (filter p l) <= List.length (filter q l).
Proof.
  induction l as [ | x l IH]; intros H; simpl; [lia | ].
  assert (IH' := IH (fun y Hy => H y (or_intror Hy))).
  pose proof (H x (or_introl eq_refl)) as Hx.
  destruct (p x); [rewrite (Hx eq_refl); simpl; lia | ].
  destruct (q x); simpl; lia.
Qed.

Lemma filter_ext_in_length {A} (p q : A -> bool) (l : list A) :
  (forall x, In x l -> p x = q x) ->
  List.length (filter p l) = List.length (filter q l).
Proof.
  intros H. rewrite (filter_ext_in _ _ _ H). reflexivity.
Qed.

Lemma unflagged_secure (issues : list SecurityIssue) (node : json) :
  Facts.flagged issues node = false ->
  forallb (fun f => negb (truthy (nodeId f) && Spec.associated f node)) issues
  = true.
Proof.
  unfold Facts.flagged, Spec.associated. intros H. apply forallb_forall.
  intros f Hf. apply negb_true_iff.
  destruct (truthy (nodeId f)) eqn:Ht; [ | reflexivity].
  destruct (same_value_zero (nodeId f) (Spec.node_id node)) eqn:Hs;
    [ | reflexivity].
  exfalso. rewrite (proj2 (existsb_exists _ _)) in H; [discriminate | ].
  exists f. split; [exact Hf | apply strict_of_same_value; assumption].
Qed.

Lemma secure_unflagged (issues : list SecurityIssue) (node : json) :
  truthy (Spec.node_id node) = true ->
  forallb (fun f => negb (truthy (nodeId f) && Spec.associated f node)) issues
  = true ->
  Facts.flagged issues node = false.
Proof.
  unfold Facts.flagged, Spec.associated. intros Hid H.
  apply not_true_is_false. intros Hex. apply existsb_exists in Hex.
  destruct Hex as [f [Hf Hstrict]]. rewrite forallb_forall in H.
  specialize (H f Hf).
  destruct (same_value_of_strict _ _ Hstrict Hid) as [Ht Hs].
  rewrite Ht, Hs in H. discriminate.
Qed.

(** X25. The graph never shows more secure nodes than the report
    counts: a node the graph shows as secure (no finding has its [id] as
    [nodeId]) is counted as secure by [calculateSecureNodes]. The two
    numbers are equal when every node that is not a sticky note has a
    truthy [id]; otherwise a node without [id] that has findings is
    flagged in the graph and secure in the report. *)
Theorem graph_secure_at_most_report_secure
  (function_text : Str.t -> Str.t) (now : N) (workflowData : value)
  (r : ValidationResult) (g : Graph) :
  processWorkflow function_text now workflowData (securityIssues r) = Ok g ->
  exists n ref ns,
    Spec.prop workflowData (u"nodes") = Some (JArr ref ns) /\
    calculateSecureNodes workflowData r = Ok n /\
    List.length (secureShown (processedNodes g)) <= n /\
    (Facts.identified ns = true ->
     List.length (secureShown (processedNodes g)) = n).
Proof.
  intros Hg.
  destruct (processWorkflow_ok _ _ _ _ _ Hg)
    as [ref [ns [m [Hnodes [Hpns _]]]]].
  destruct (workflowNodes_count _ _ _ (map_indexed_Forall2 _ _ _ _ Hpns))
    as [Htyped [_ Hshown]].
  exists (Spec.secure_nodes_by_truthy_id ns (securityIssues r)), ref, ns.
  split; [exact Hnodes | ].
  split; [apply (calculateSecureNodes_typed _ _ _ _ Hnodes Htyped) | ].
  rewrite Hshown. unfold Facts.shown_secure, Spec.secure_nodes_by_truthy_id.
  split.
  - apply filter_length_le. intros node _ H.
    apply andb_true_iff in H. destruct H as [Ha Hf].
    rewrite Ha. cbn [andb]. apply unflagged_secure.
    apply negb_true_iff. exact Hf.
  - intros Hids. apply filter_ext_in_length. intros node Hnode.
    unfold Facts.identified in Hids. rewrite forallb_forall in Hids.
    specialize (Hids node Hnode).
    destruct (Spec.is_annotation node); cbn [negb andb orb] in *;
      [reflexivity | ].
    destruct (Facts.flagged (securityIssues r) node) eqn:Hf; cbn [negb].
    + symmetry. apply not_true_is_false. intros Hs.
      rewrite (secure_unflagged _ _ Hids Hs) in Hf. discriminate.
    + symmetry. apply unflagged_secure, Hf.
Qed.

Lemma graph_secure_at_most_report_secure_witness :
  exists n ref ns,
    Spec.prop (Some Samples.workflow) (u"nodes") = Some (JArr ref ns) /\
    calculateSecureNodes (Some Samples.workflow)
      (Samples.report_of Samples.workflow) = Ok n /\
    List.length (secureShown (processedNodes (Samples.graph_of Samples.workflow)))
    <= n /\
    (Facts.identified ns = true ->
     List.length
       (secureShown (processedNodes (Samples.graph_of Samples.workflow))) = n).
Proof.
  apply (graph_secure_at_most_report_secure (fun _ => []) 0
           (Some Samples.workflow) (Samples.report_of Samples.workflow)
           (Samples.graph_of Samples.workflow)).
  vm_compute. reflexivity.
Defined.

(** *** The edges of the graph *)

Lemma for_each_bound {A B} (f : A -> list B -> result (list B))
  (b : A -> nat) (xs : list A) :
  (forall x s s', In x xs -> f x s = Ok s' ->
                  List.length s' <= List.length s + b x) ->
  forall s s',
    for_each f xs s = Ok s' ->
    List.length s' <= List.length s + Spec.sum (map b xs).
Proof.
  induction xs as [ | x xs IH]; intros H s s'; simpl.
  - intros E. injection E as <-. lia.
  - destruct (f x s) as [mid | e] eqn:Hx; cbn [bind]; [ | discriminate].
    intros Hrest.
    pose proof (H x s mid (or_introl eq_refl) Hx).
    pose proof (IH (fun y t t' Hy => H y t t' (or_intror Hy)) _ _ Hrest).
    lia.
Qed.

Lemma for_each_indexed_bound {A B} (f : A -> nat -> list B -> result (list B))
  (b : A -> nat) (xs : list A) :
  (forall x k s s', In x xs -> f x k s = Ok s' ->
                    List.length s' <= List.length s + b x) ->
  forall i s s',
    for_each_indexed f xs i s = Ok s' ->
    List.length s' <= List.length s + Spec.sum (map b xs).
Proof.
  induction xs as [ | x xs IH]; intros H i s s'; simpl.
  - intros E. injection E as <-. lia.
  - destruct (f x i s) as [mid | e] eqn:Hx; cbn [bind]; [ | discriminate].
    intros Hrest.
    pose proof (H x i s mid (or_introl eq_refl) Hx).
    pose proof (IH (fun y k t t' Hy => H y k t t' (or_intror Hy)) _ _ _ Hrest).
    lia.
Qed.

Lemma sum_ones {A} (l : list A) :
  Spec.sum (map (fun _ => 1) l) = List.length l.
Proof. induction l; simpl; auto. Qed.

Section Edges.

Variables (function_text : Str.t -> Str.t)
          (nodeNameToIdMap : Obj.t value)
          (nodes_ : list ProcessedNode).

Lemma edgesOfOutput_bound (sourceNodeId : Ident) (connectionType : Str.t)
  (outputArray : json) (outputIndex : nat) (s s' : list Edge) :
  edgesOfOutput function_text nodeNameToIdMap nodes_ sourceNodeId
                connectionType outputArray outputIndex s = Ok s' ->
  List.length s' <= List.length s + Spec.slot_edges outputArray.
Proof.
  unfold edgesOfOutput, Spec.slot_edges.
  destruct outputArray as [ | | | | r conns | ];
    try (intros E; injection E as <-; lia).
  intros H. rewrite <- (sum_ones conns).
  refine (for_each_indexed_bound _ (fun _ => 1) conns _ 0 s s' H).
  intros connection k t t' _.
  destruct (truthy (Some connection)); [ | intros E; injection E as <-; lia].
  destruct (get (Some connection) (u"node")) as [target | e]; cbn [bind];
    [ | discriminate].
  destruct (truthy target); [ | intros E; injection E as <-; lia].
  destruct (makeEdge _ _ _ _ _ _ _ _) as [edge | e]; cbn [bind];
    [ | discriminate].
  intros E. injection E as <-. unfold push. rewrite length_app. simpl. lia.
Qed.

Lemma edgesOfType_bound (sourceNodeId : Ident) (entry : Str.t * json)
  (s s' : list Edge) :
  edgesOfType function_text nodeNameToIdMap nodes_ sourceNodeId entry s
    = Ok s' ->
  List.length s' <= List.length s + Spec.outputs_edges (snd entry).
Proof.
  destruct entry as [connectionType connectionData].
  unfold edgesOfType, Spec.outputs_edges. cbn [snd].
  destruct connectionData as [ | | | | r outputs | ];
    try (intros E; injection E as <-; lia).
  apply for_each_indexed_bound. intros outputArray k t t' _.
  apply edgesOfOutput_bound.
Qed.

Lemma edgesOfSource_bound (entry : Str.t * json) (s s' : list Edge) :
  edgesOfSource function_text nodeNameToIdMap nodes_ entry s = Ok s' ->
  List.length s' <=
  List.length s +
  (if Spec.is_object (Some (snd entry))
   then Spec.sum (map Spec.outputs_edges (own_values (snd entry)))
   else 0).
Proof.
  destruct entry as [sourceNodeName sourceConnections].
  unfold edgesOfSource. cbn [snd].
  destruct (negb (truthyId _)); [intros E; injection E as <-; lia | ].
  destruct (identText _ _) as [logged | e]; cbn [bind]; [ | discriminate].
  rewrite <- is_object_typeof.
  destruct (Spec.is_object (Some sourceConnections));
    [ | intros E; injection E as <-; lia].
  unfold own_values. rewrite map_map.
  apply for_each_bound. intros e t t' _. apply edgesOfType_bound.
Qed.

End Edges.

(** X26. The graph never draws more edges than the validator counts
    connections: every edge comes from one entry of an innermost array of
    [connections], and the entries whose source name is no node name, or
    that have no truthy [node], are counted but not drawn. *)
Theorem graph_edges_at_most_connection_count
  (function_text : Str.t -> Str.t) (now : N) (workflowData : value)
  (issues : list SecurityIssue) (g : Graph) :
  processWorkflow function_text now workflowData issues = Ok g ->
  List.length (processedEdges g)
  <= countConnections (Spec.prop workflowData (u"connections")).
Proof.
  intros Hg.
  destruct (processWorkflow_ok _ _ _ _ _ Hg)
    as [ref [ns [m [_ [_ [_ Hedges]]]]]].
  rewrite countConnections_walked. unfold Spec.edge_total_walked.
  destruct (Spec.prop workflowData (u"connections")) as [c | ];
    [ | rewrite Hedges; simpl; lia].
  destruct (truthy (Some c)); cbn [andb] in Hedges;
    [ | rewrite Hedges; simpl; lia].
  destruct (Str.eqb (typeof (Some c)) (u"object"));
    [ | rewrite Hedges; simpl; lia].
  unfold own_values. rewrite map_map.
  refine (for_each_bound _ _ _ _ [] _ Hedges).
  intros e t t' _. apply edgesOfSource_bound.
Qed.

Lemma graph_edges_at_most_connection_count_witness :
  List.length (processedEdges (Samples.graph_of Samples.workflow))
  <= countConnections (Spec.prop (Some Samples.workflow) (u"connections")).
Proof.
  apply (graph_edges_at_most_connection_count (fun _ => []) 0
           (Some Samples.workflow)
           (securityIssues (Samples.report_of Samples.workflow))
           (Samples.graph_of Samples.workflow)).
  vm_compute. reflexivity.
Defined.

(** X28. The colour of an edge of one of the connection types
    [ai_tool], [ai_languageModel], [ai_memory] never shows the security
    level of its end nodes: it is the colour of the connection type
    (purple, cyan, green, each with its dash pattern), even where an end
    node is of high severity; there only the width and the animation of
    the edge tell, which follow the security level whatever the type is.
    An edge of another type has no dash pattern and the colour of the
    security level, so it is red exactly when it is animated. *)
Theorem ai_edges_hide_security_colour (function_text : Str.t -> Str.t)
  (nodeNameToIdMap : Obj.t value) (nodes_ : list ProcessedNode)
  (sourceNodeId : Ident) (connectionType : Str.t)
  (outputIndex connectionIndex : nat) (target : value) (edge : Edge) :
  makeEdge function_text nodeNameToIdMap nodes_ sourceNodeId connectionType
           outputIndex connectionIndex target = Ok edge ->
  e_animated edge = Facts.end_level High nodes_ edge /\
  e_strokeWidth edge = Facts.security_width nodes_ edge /\
  (connectionType = u"ai_tool" ->
   e_stroke edge = u"#8b5cf6" /\ e_strokeDasharray edge = Some (u"5,5")) /\
  (connectionType = u"ai_languageModel" ->
   e_stroke edge = u"#06b6d4" /\ e_strokeDasharray edge = Some (u"10,5")) /\
  (connectionType = u"ai_memory" ->
   e_stroke edge = u"#10b981" /\ e_strokeDasharray edge = Some (u"15,5")) /\
  (Facts.ai_connection connectionType = false ->
   e_stroke edge = Facts.security_colour nodes_ edge /\
   e_strokeDasharray edge = None /\
   (e_animated edge = true <-> e_stroke edge = u"#ef4444")).
Proof.
  unfold makeEdge, Facts.ai_connection, Facts.security_colour,
    Facts.security_width, Facts.end_level.
  destruct (identText _ _) as [sourceText | e]; cbn [bind]; [ | discriminate].
  destruct (to_string target) as [targetText | e]; cbn [bind];
    [ | discriminate].
  cbv zeta.
  set (a := find (hasId sourceNodeId) nodes_).
  set (found := lookupId nodeNameToIdMap targetText).
  set (targetNodeId := if truthyId found then found else Doc target).
  set (b := find (hasId targetNodeId) nodes_).
  assert (Htool : connectionType = u"ai_tool" ->
                  Str.eqb connectionType (u"ai_tool") = true)
    by (intros ->; apply Str_eqb_refl).
  assert (Hmodel : connectionType = u"ai_languageModel" ->
                   Str.eqb connectionType (u"ai_tool") = false /\
                   Str.eqb connectionType (u"ai_languageModel") = true)
    by (intros ->; split; vm_compute; reflexivity).
  assert (Hmemory : connectionType = u"ai_memory" ->
                    Str.eqb connectionType (u"ai_tool") = false /\
                    Str.eqb connectionType (u"ai_languageModel") = false /\
                    Str.eqb connectionType (u"ai_memory") = true)
    by (intros ->; repeat split; vm_compute; reflexivity).
  destruct (Str.eqb connectionType (u"ai_tool")) eqn:E1;
    destruct (Str.eqb connectionType (u"ai_languageModel")) eqn:E2;
    destruct (Str.eqb connectionType (u"ai_memory")) eqn:E3;
    destruct (isLevel High (levelOf a) || isLevel High (levelOf b)) eqn:Hh;
    destruct (isLevel Medium (levelOf a) || isLevel Medium (levelOf b))
      eqn:Hm;
    intros E; injection E as <-;
    cbn [e_stroke e_animated e_strokeDasharray e_strokeWidth e_source
         e_target orb];
    fold a; fold b; rewrite ?Hh, ?Hm;
    (split; [reflexivity | ]);
    (split; [reflexivity | ]);
    (split; [intros H; first [split; reflexivity
                             | discriminate (Htool H)] | ]);
    (split; [intros H; first [split; reflexivity
                             | destruct (Hmodel H); discriminate] | ]);
    (split; [intros H; first [split; reflexivity
                             | destruct (Hmemory H) as [? [? ?]];
                               discriminate] | ]);
    intros H; try discriminate H;
    (split; [reflexivity | ]); (split; [reflexivity | ]);
    split; intros H';
    first [reflexivity | discriminate H' | vm_compute in H'; discriminate H'].
Qed.

Lemma ai_edges_hide_security_colour_witness :
  Visualization.processedEdges (Samples.graph_of Samples.tool_workflow)
  = [Samples.tool_edge] /\
  Facts.end_level High
    (Visualization.processedNodes (Samples.graph_of Samples.tool_workflow))
    Samples.tool_edge = true /\
  e_stroke Samples.tool_edge = u"#8b5cf6" /\
  e_animated Samples.tool_edge
  = Facts.end_level High
      (Visualization.processedNodes (Samples.graph_of Samples.tool_workflow))
      Samples.tool_edge /\
  e_strokeWidth Samples.tool_edge
  = Facts.security_width
      (Visualization.processedNodes (Samples.graph_of Samples.tool_workflow))
      Samples.tool_edge /\
  (u"ai_tool" = u"ai_tool" ->
   e_stroke Samples.tool_edge = u"#8b5cf6" /\
   e_strokeDasharray Samples.tool_edge = Some (u"5,5")) /\
  (u"ai_tool" = u"ai_languageModel" ->
   e_stroke Samples.tool_edge = u"#06b6d4" /\
   e_strokeDasharray Samples.tool_edge = Some (u"10,5")) /\
  (u"ai_tool" = u"ai_memory" ->
   e_stroke Samples.tool_edge = u"#10b981" /\
   e_strokeDasharray Samples.tool_edge = Some (u"15,5")) /\
  (Facts.ai_connection (u"ai_tool") = false ->
   e_stroke Samples.tool_edge
   = Facts.security_colour
       (Visualization.processedNodes (Samples.graph_of Samples.tool_workflow))
       Samples.tool_edge /\
   e_strokeDasharray Samples.tool_edge = None /\
   (e_animated Samples.tool_edge = true <->
    e_stroke Samples.tool_edge = u"#ef4444")).
Proof.
  split; [vm_compute; reflexivity | ].
  split; [vm_compute; reflexivity | ].
  split; [vm_compute; reflexivity | ].
  apply (ai_edges_hide_security_colour (fun _ => []) Samples.tool_names
           (Visualization.processedNodes
              (Samples.graph_of Samples.tool_workflow))
           (Doc (Some (JStr (u"1")))) (u"ai_tool") 0 0
           (Some (JStr (u"Fetch"))) Samples.tool_edge).
  vm_compute. reflexivity.
Defined.

(** X29. The fallback grid gives every index a place of its own: two
    nodes without a usable [position] that are laid out at the same
    coordinates have the same index. *)
Theorem fallback_grid_is_injective (node node' : json) (i j n m : nat) :
  positionOf node i = Ok (Grid n, Grid m) ->
  positionOf node' j = Ok (Grid n, Grid m) ->
  i = j.
Proof.
  unfold positionOf.
  destruct (get (Some node) (u"position")) as [p | e]; cbn [bind];
    [ | discriminate].
  destruct (get (Some node') (u"position")) as [p' | e]; cbn [bind];
    [ | discriminate].
  intros H H'.
  assert (Hi : (i mod 6) * 200 + 100 = n /\ (i / 6) * 150 + 100 = m).
  { destruct p as [[ | | | | r [ | x [ | y xs]] | ] | ];
      try discriminate H; injection H as H1 H2; auto. }
  assert (Hj : (j mod 6) * 200 + 100 = n /\ (j / 6) * 150 + 100 = m).
  { destruct p' as [[ | | | | r [ | x [ | y xs]] | ] | ];
      try discriminate H'; injection H' as H1 H2; auto. }
  destruct Hi as [Hi1 Hi2], Hj as [Hj1 Hj2].
  rewrite (Nat.div_mod_eq i 6), (Nat.div_mod_eq j 6). lia.
Qed.

Lemma fallback_grid_is_injective_witness : 7 = 7.
Proof.
  apply (fallback_grid_is_injective Samples.fetch Samples.unset_credential
           7 7 300 250);
    vm_compute; reflexivity.
Defined.

(** *** Icons *)

Lemma call_includes_cases (nodeType : value) :
  (exists has, forall x, call_includes nodeType x = Ok (has x)) \/
  (forall x, exists e, call_includes nodeType x = Throw e).
Proof.
  destruct nodeType as [[ | b | n | s | r xs | r ps] | ];
    try (right; intros x; eexists; reflexivity).
  - left. exists (fun x => Str.includes s x). reflexivity.
  - left.
    exists (fun x => existsb (fun e => same_value_zero (Some (JStr x)) (Some e))
                             xs).
    reflexivity.
Qed.

Ltac icon_case has x :=
  match goal with
  | |- context [has x] =>
    destruct (has x) eqn:?; cbn [bind];
    try solve [split; intros; (discriminate || assumption)]
  | _ => idtac
  end.

(** X30. Two rules of [getNodeIcon] never decide the icon. The rule for
    chat triggers is shadowed by the first rule, which takes every type
    holding [trigger]: the message icon is only ever given for [linkedin].
    Likewise the globe is only ever given for [http], its alternative
    [webhook] being taken by the first rule. *)
Theorem shadowed_icon_rules :
  forall nodeType : value,
    (getNodeIcon nodeType = Ok MessageSquare ->
     call_includes nodeType (u"linkedin") = Ok true) /\
    (getNodeIcon nodeType = Ok Globe ->
     call_includes nodeType (u"http") = Ok true).
Proof.
  intros nodeType. unfold getNodeIcon. cbv zeta.
  destruct (call_includes_cases nodeType) as [[has Hhas] | Hthrow].
  - rewrite !Hhas. unfold or_b, and_b. cbn [bind].
    icon_case has (u"trigger").
    all: icon_case has (u"webhook").
    all: icon_case has (u"form").
    all: icon_case has (u"chat").
    all: icon_case has (u"agent").
    all: icon_case has (u"lmChat").
    all: icon_case has (u"openai").
    all: icon_case has (u"gemini").
    all: icon_case has (u"memory").
    all: icon_case has (u"buffer").
    all: icon_case has (u"tool").
    all: icon_case has (u"calendar").
    all: icon_case has (u"langchain").
    all: icon_case has (u"http").
    all: icon_case has (u"linkedin").
    all: icon_case has (u"code").
    all: icon_case has (u"function").
    all: icon_case has (u"set").
    all: icon_case has (u"edit").
    all: icon_case has (u"database").
    all: icon_case has (u"postgres").
    all: icon_case has (u"mysql").
    all: icon_case has (u"email").
    all: icon_case has (u"gmail").
    all: icon_case has (u"schedule").
    all: icon_case has (u"cron").
    all: icon_case has (u"google").
    all: icon_case has (u"sticky").
    all: split; intros; (discriminate || assumption || reflexivity).
  - destruct (Hthrow (u"trigger")) as [e He]. rewrite He. cbn [or_b bind].
    split; discriminate.
Qed.

Lemma for_each_Forall {A B} (P : B -> Prop)
  (f : A -> list B -> result (list B)) (xs : list A) :
  (forall x s s', In x xs -> f x s = Ok s' -> Forall P s -> Forall P s') ->
  forall s s', for_each f xs s = Ok s' -> Forall P s -> Forall P s'.
Proof.
  induction xs as [ | x xs IH]; intros Hf s s'; simpl.
  - intros E. injection E as <-. trivial.
  - destruct (f x s) as [mid | e] eqn:Hx; cbn [bind]; [ | discriminate].
    intros Hrest HP. apply (IH (fun y t t' Hy => Hf y t t' (or_intror Hy)) mid).
    + exact Hrest.
    + apply (Hf x s mid (or_introl eq_refl) Hx HP).
Qed.

Lemma for_each_indexed_Forall {A B} (P : B -> Prop)
  (f : A -> nat -> list B -> result (list B)) (xs : list A) :
  (forall x k s s', In x xs -> f x k s = Ok s' -> Forall P s -> Forall P s') ->
  forall i s s', for_each_indexed f xs i s = Ok s' -> Forall P s -> Forall P s'.
Proof.
  induction xs as [ | x xs IH]; intros Hf i s s'; simpl.
  - intros E. injection E as <-. trivial.
  - destruct (f x i s) as [mid | e] eqn:Hx; cbn [bind]; [ | discriminate].
    intros Hrest HP.
    apply (IH (fun y k t t' Hy => Hf y k t t' (or_intror Hy)) (S i) mid).
    + exact Hrest.
    + apply (Hf x i s mid (or_introl eq_refl) Hx HP).
Qed.

Lemma makeEdge_source (function_text : Str.t -> Str.t)
  (nodeNameToIdMap : Obj.t value) (nodes_ : list ProcessedNode)
  (sourceNodeId : Ident) (connectionType : Str.t)
  (outputIndex connectionIndex : nat) (target : value) (edge : Edge) :
  makeEdge function_text nodeNameToIdMap nodes_ sourceNodeId connectionType
           outputIndex connectionIndex target = Ok edge ->
  e_source edge = sourceNodeId.
Proof.
  unfold makeEdge.
  destruct (identText _ _) as [sourceText | e]; cbn [bind]; [ | discriminate].
  destruct (to_string target) as [targetText | e]; cbn [bind];
    [ | discriminate].
  cbv zeta.
  repeat match goal with
         | |- context [let '(_, _) := ?p in _] => destruct p
         | |- context [if ?b then _ else _] => destruct b
         end;
    intros E; injection E as <-; reflexivity.
Qed.

(** X27. Every edge of the graph starts at a node: its source is
    truthy and is the [id] of a node of the document. The one exception
    is a source named like a property of [Object.prototype]
    ([constructor], [toString], ...) when no node has that name: the
    lookup in [nodeNameToIdMap] then finds the built-in, and the edge
    starts at no node. *)
Theorem edges_start_at_nodes (function_text : Str.t -> Str.t) (now : N)
  (workflowData : value) (issues : list SecurityIssue) (g : Graph) :
  processWorkflow function_text now workflowData issues = Ok g ->
  exists ref ns,
    Spec.prop workflowData (u"nodes") = Some (JArr ref ns) /\
    Forall (Facts.starts_at ns) (processedEdges g).
Proof.
  intros Hg.
  destruct (processWorkflow_ok _ _ _ _ _ Hg)
    as [ref [ns [m [Hnodes [_ [Hids Hedges]]]]]].
  exists ref, ns. split; [exact Hnodes | ].
  destruct (Spec.prop workflowData (u"connections")) as [c | ];
    [ | rewrite Hedges; constructor].
  destruct (truthy (Some c) && Str.eqb (typeof (Some c)) (u"object"));
    [ | rewrite Hedges; constructor].
  refine (for_each_Forall (Facts.starts_at ns) _ _ _ [] _ Hedges
            (Forall_nil _)).
  intros [sourceNodeName sourceConnections] s s' _. unfold edgesOfSource.
  destruct (truthyId (lookupId m sourceNodeName)) eqn:Htruthy; cbn [negb];
    [ | intros E; injection E as <-; trivial].
  assert (Hsource : Facts.starts_at ns
            {| e_id := []; e_source := lookupId m sourceNodeName;
               e_target := Doc None; e_stroke := []; e_strokeWidth := W2;
               e_strokeDasharray := None; e_animated := false;
               e_label := None |}).
  { split; [exact Htruthy | ]. cbn [e_source]. unfold lookupId, Obj.get.
    destruct (Obj.own m sourceNodeName) as [v | ] eqn:Hown.
    - apply (Hids sourceNodeName v), own_some_in, Hown.
    - destruct (Obj.inherited sourceNodeName) eqn:Hinh; [exact Hinh | ].
      unfold lookupId, Obj.get in Htruthy. rewrite Hown, Hinh in Htruthy.
      discriminate. }
  destruct (identText _ _) as [logged | e]; cbn [bind]; [ | discriminate].
  destruct (truthy (Some sourceConnections) && _);
    [ | intros E; injection E as <-; trivial].
  apply for_each_Forall. intros [connectionType connectionData] t t' _.
  unfold edgesOfType.
  destruct connectionData as [ | | | | r outputs | ];
    try (intros E; injection E as <-; trivial).
  apply for_each_indexed_Forall. intros outputArray k t1 t1' _.
  unfold edgesOfOutput.
  destruct outputArray as [ | | | | r' conns | ];
    try (intros E; injection E as <-; trivial).
  apply for_each_indexed_Forall. intros connection k' w w' _.
  destruct (truthy (Some connection));
    [ | intros E; injection E as <-; trivial].
  destruct (get (Some connection) (u"node")) as [target | e]; cbn [bind];
    [ | discriminate].
  destruct (truthy target); [ | intros E; injection E as <-; trivial].
  destruct (makeEdge _ _ _ _ _ _ _ _) as [edge | e] eqn:Hedge; cbn [bind];
    [ | discriminate].
  intros E HP. injection E as <-. unfold push. apply Forall_app.
  split; [exact HP | ]. constructor; [ | constructor].
  unfold Facts.starts_at in *. rewrite (makeEdge_source _ _ _ _ _ _ _ _ _ Hedge).
  exact Hsource.
Qed.

Lemma edges_start_at_nodes_witness :
  exists ref ns,
    Spec.prop (Some Samples.workflow) (u"nodes") = Some (JArr ref ns) /\
    Forall (Facts.starts_at ns) (processedEdges (Samples.graph_of Samples.workflow)).
Proof.
  apply (edges_start_at_nodes (fun _ => []) 0 (Some Samples.workflow)
           (securityIssues (Samples.report_of Samples.workflow))
           (Samples.graph_of Samples.workflow)).
  vm_compute. reflexivity.
Defined.

(** ** Inputs for the defects in general *)

Lemma validate_throws_on_untyped_node_witness :
  exists e, validateN8nWorkflow (Some Samples.untyped_workflow) = Throw e.
Proof.
  apply (validate_throws_on_untyped_node (Some Samples.untyped_workflow)
           (Samples.nodes_ref Samples.untyped_workflow)
           (Samples.nodes_of Samples.untyped_workflow)
           (nth 0 (Samples.nodes_of Samples.untyped_workflow) JNull)).
  - vm_compute. reflexivity.
  - vm_compute. left. reflexivity.
  - vm_compute. reflexivity.
Defined.

Lemma calculateSecureNodes_throws_witness :
  exists e,
    calculateSecureNodes (Some Samples.nodes_text) (failure []) = Throw e.
Proof.
  apply (calculateSecureNodes_throws (Some Samples.nodes_text) (failure []));
    vm_compute; reflexivity.
Defined.
